(** * Balance oracle and tier reconciliation of the role bot (index.js)

    A shallow embedding of [src/index.js]: the value decoders, the RPC
    client, the balance oracle, identity resolution, the role reconciler
    [assignRoleByBalance], the daily batch driver [updateAllUserRoles] and
    the command handler of [messageCreate], followed by the properties
    established about them.

    Conventions.
    - Strings whose characters the program only compares, slices or
      concatenates (hex results, identifiers, role names, messages) are
      Rocq [string]s holding the UTF-8 bytes of the JavaScript string.
    - The text produced by [Buffer.toString('utf8')] is a list of UTF-16
      code units ([text]), because the two regular expressions applied to
      it work on code units.
    - [BigInt] values are [Z]; JavaScript numbers are [number] (a finite
      value carried as a rational, the two infinities and NaN).
    - Exceptions are values of [exn]; a computation that may throw returns
      an [outcome]; a computation that also talks to Discord, the node or
      the console is a function on [World] (monad [M]). *)

From Stdlib Require Import String Ascii List Sorted ZArith NArith QArith Bool Lia.
From Stdlib.Strings Require Import Byte.
Import ListNotations.

#[local] Open Scope string_scope.
#[local] Open Scope Z_scope.

(** ** Exceptions and results *)

Inductive exn : Type :=
| Error (message : string)
| TypeError (message : string)
| SyntaxError (message : string)
| RangeError (message : string)
| DiscordAPIError (message : string).

Definition message (e : exn) : string :=
  match e with
  | Error m | TypeError m | SyntaxError m | RangeError m | DiscordAPIError m => m
  end.

Inductive outcome (A : Type) : Type :=
| Returned (a : A)
| Thrown (e : exn).
Arguments Returned {A} a.
Arguments Thrown {A} e.

Definition obind {A B} (o : outcome A) (k : A -> outcome B) : outcome B :=
  match o with
  | Returned a => k a
  | Thrown e => Thrown e
  end.

(** What the program reads in the [result] field of the node's answer to
    an [eth_call]: the string of the JSON-RPC interface, [null], or
    nothing at all when the field is absent.  The other JSON values, which
    the interface does not give to that field, are left out. *)
Inductive value : Type :=
| VUndefined
| VNull
| VString (s : string).

(** ** The JavaScript built-ins the program calls *)

Module Js.

(** *** Strings *)

(** [s.startsWith(p)] *)
Definition startsWith (s p : string) : bool := String.prefix p s.

(** [s.slice(n)] for [0 <= n] *)
Fixpoint slice (n : nat) (s : string) : string :=
  match n, s with
  | O, _ => s
  | S n', String _ s' => slice n' s'
  | S _, EmptyString => EmptyString
  end.

Definition code (c : ascii) : Z := Z.of_N (N_of_ascii c).

Definition is_digit (c : ascii) : bool := (48 <=? code c) && (code c <=? 57).

Fixpoint all_digits (s : string) : bool :=
  match s with
  | EmptyString => true
  | String c s' => is_digit c && all_digits s'
  end.

Definition nonempty (s : string) : bool :=
  match s with EmptyString => false | _ => true end.

(** [s.split('#')]: the pieces between the separators, at least one. *)
Fixpoint split (sep : ascii) (s : string) : list string :=
  match s with
  | EmptyString => [EmptyString]
  | String c s' =>
      if Ascii.eqb c sep then EmptyString :: split sep s'
      else match split sep s' with
           | p :: ps => String c p :: ps
           | [] => [String c EmptyString]
           end
  end.

(** [/^\d+$/.test(s)] *)
Definition test_digits (s : string) : bool := nonempty s && all_digits s.

Fixpoint last_char (s : string) : option ascii :=
  match s with
  | EmptyString => None
  | String c EmptyString => Some c
  | String _ s' => last_char s'
  end.

Fixpoint drop_last (s : string) : string :=
  match s with
  | EmptyString => EmptyString
  | String _ EmptyString => EmptyString
  | String c s' => String c (drop_last s')
  end.

(** [s.match(/^<@!?(\d+)>$/)]: the first capture group, when the whole
    input matches. *)
Definition match_mention (s : string) : option string :=
  if startsWith s "<@" then
    let r := slice 2 s in
    let r' := if startsWith r "!" then slice 1 r else r in
    match last_char r' with
    | Some ">"%char =>
        let ds := drop_last r' in
        if test_digits ds then Some ds else None
    | _ => None
    end
  else None.

(** *** White space *)

(** The white space and the line terminators of the language, by the
    UTF-8 bytes that encode them: U+0009 to U+000D and U+0020 take one
    byte, U+00A0 two, and U+1680, U+2000 to U+200A, U+2028, U+2029, U+202F,
    U+205F, U+3000 and U+FEFF three. *)
Definition white1 (a : Z) : bool := ((9 <=? a) && (a <=? 13)) || (a =? 32).

Definition white2 (a b : Z) : bool := (a =? 0xC2) && (b =? 0xA0).

Definition white3 (a b c : Z) : bool :=
  ((a =? 0xE1) && (b =? 0x9A) && (c =? 0x80))
  || ((a =? 0xE2) && (b =? 0x80)
      && (((0x80 <=? c) && (c <=? 0x8A)) || (c =? 0xA8) || (c =? 0xA9) || (c =? 0xAF)))
  || ((a =? 0xE2) && (b =? 0x81) && (c =? 0x9F))
  || ((a =? 0xE3) && (b =? 0x80) && (c =? 0x80))
  || ((a =? 0xEF) && (b =? 0xBB) && (c =? 0xBF)).

(** [s.trimStart()] *)
Fixpoint trimStart (s : string) : string :=
  match s with
  | EmptyString => s
  | String a s1 =>
      if white1 (code a) then trimStart s1
      else
        match s1 with
        | EmptyString => s
        | String b s2 =>
            if white2 (code a) (code b) then trimStart s2
            else
              match s2 with
              | EmptyString => s
              | String c s3 =>
                  if white3 (code a) (code b) (code c) then trimStart s3 else s
              end
        end
  end.

(** [s] holds white space only. *)
Fixpoint blank (s : string) : bool :=
  match s with
  | EmptyString => true
  | String a s1 =>
      if white1 (code a) then blank s1
      else
        match s1 with
        | EmptyString => false
        | String b s2 =>
            if white2 (code a) (code b) then blank s2
            else
              match s2 with
              | EmptyString => false
              | String c s3 =>
                  if white3 (code a) (code b) (code c) then blank s3 else false
              end
        end
  end.

(** [s.trimEnd()] *)
Fixpoint trimEnd (s : string) : string :=
  match s with
  | EmptyString => EmptyString
  | String a s1 => if blank s then EmptyString else String a (trimEnd s1)
  end.

(** [s.trim()] *)
Definition trim (s : string) : string := trimEnd (trimStart s).

(** *** Digits *)

Definition digit_of (radix : Z) (c : ascii) : option Z :=
  let n := code c in
  let v := if (48 <=? n) && (n <=? 57) then n - 48
           else if (97 <=? n) && (n <=? 102) then n - 87
           else if (65 <=? n) && (n <=? 70) then n - 55
           else 16 in
  if v <? radix then Some v else None.

Fixpoint digits_value (radix : Z) (s : string) (acc : Z) : option Z :=
  match s with
  | EmptyString => Some acc
  | String c s' =>
      match digit_of radix c with
      | Some d => digits_value radix s' (acc * radix + d)
      | None => None
      end
  end.

Definition literal (radix : Z) (ds : string) : option Z :=
  if nonempty ds then digits_value radix ds 0 else None.

(** *** BigInt *)

(** The integer literal between the white space of a string given to
    [BigInt]: the empty string is [0n]; a [0x], [0o] or [0b] prefix
    (either case) selects the radix and takes no sign; a decimal literal
    may carry one sign. *)
Definition StrIntegerLiteral (s : string) : option Z :=
  match s with
  | EmptyString => Some 0
  | String "0" (String "x" ds) | String "0" (String "X" ds) => literal 16 ds
  | String "0" (String "o" ds) | String "0" (String "O" ds) => literal 8 ds
  | String "0" (String "b" ds) | String "0" (String "B" ds) => literal 2 ds
  | String "+" ds => literal 10 ds
  | String "-" ds => option_map Z.opp (literal 10 ds)
  | _ => literal 10 s
  end%char.

(** StringToBigInt: the literal of the string, white space and line
    terminators around it set aside. *)
Definition StringToBigInt (s : string) : option Z := StrIntegerLiteral (trim s).

(** [BigInt(v)] *)
Definition BigInt (v : value) : outcome Z :=
  match v with
  | VUndefined => Thrown (TypeError "Cannot convert undefined to a BigInt")
  | VNull => Thrown (TypeError "Cannot convert null to a BigInt")
  | VString s =>
      match StringToBigInt s with
      | Some z => Returned z
      | None => Thrown (SyntaxError ("Cannot convert " ++ s ++ " to a BigInt"))
      end
  end.

Definition digit_char (d : Z) : ascii := ascii_of_N (Z.to_N (48 + d)).

Fixpoint decimal_digits (fuel : nat) (n : Z) : string :=
  match fuel with
  | O => EmptyString
  | S f =>
      (if n <? 10 then EmptyString else decimal_digits f (n / 10))
        ++ String (digit_char (n mod 10)) EmptyString
  end.

Definition digits_fuel (n : Z) : nat := S (Z.to_nat (Z.log2 n)).

(** [z.toString(10)] on a BigInt *)
Definition BigInt_toString (z : Z) : string :=
  if z <? 0 then String "-" (decimal_digits (digits_fuel (- z)) (- z))
  else decimal_digits (digits_fuel z) z.

(** [a / b] on BigInts: truncation toward zero. *)
Definition BigInt_div (a b : Z) : outcome Z :=
  if b =? 0 then Thrown (RangeError "Division by zero") else Returned (Z.quot a b).

(** [a ** b] on BigInts *)
Definition BigInt_pow (a b : Z) : outcome Z :=
  if b <? 0 then Thrown (RangeError "Exponent must be non-negative")
  else Returned (a ^ b).

(** *** Numbers *)

Inductive number : Type :=
| Finite (q : Q)
| PosInfinity
| NegInfinity
| NaN.

Definition Qltb (a b : Q) : bool := negb (Qle_bool b a).

(** [x < y] on numbers *)
Definition lt (x y : number) : bool :=
  match x, y with
  | NaN, _ | _, NaN => false
  | Finite a, Finite b => Qltb a b
  | Finite _, PosInfinity => true
  | Finite _, NegInfinity => false
  | PosInfinity, _ => false
  | NegInfinity, NegInfinity => false
  | NegInfinity, _ => true
  end.

(** The binary64 value nearest to an integer, ties to even. *)
Definition binary64_of_Z (z : Z) : number :=
  let a := Z.abs z in
  let e := Z.log2 a - 52 in
  let m :=
    if e <=? 0 then a
    else
      let q := Z.shiftr a e in
      let r := a - Z.shiftl q e in
      let half := Z.shiftl 1 (e - 1) in
      Z.shiftl (if r <? half then q
                else if half <? r then q + 1
                else if Z.even q then q else q + 1) e in
  if 2 ^ 1024 <=? m then (if z <? 0 then NegInfinity else PosInfinity)
  else Finite (inject_Z (Z.sgn z * m)).

(** [parseFloat(s)] on the strings the program passes to it, the decimal
    integers written by [BigInt.prototype.toString].  On any other string
    this model answers NaN; fractions, exponents and the longest-prefix rule
    of the built-in are not modelled. *)
Definition parseFloat (s : string) : number :=
  match s with
  | EmptyString => NaN
  | String "-" ds =>
      match literal 10 ds with
      | Some z => binary64_of_Z (- z)
      | None => NaN
      end
  | _ =>
      match literal 10 s with
      | Some z => binary64_of_Z z
      | None => NaN
      end
  end%char.

(** *** Buffers and text *)

Definition byte_of (z : Z) : byte :=
  match Byte.of_N (Z.to_N z) with
  | Some b => b
  | None => x00
  end.

Definition byte_value (b : byte) : Z := Z.of_N (Byte.to_N b).

(** [Buffer.from(s, 'hex')]: two hex digits per byte; decoding stops at
    the first pair that is not two hex digits, and a trailing single
    character is dropped. *)
Fixpoint Buffer_from_hex (s : string) : list byte :=
  match s with
  | String h (String l s') =>
      match digit_of 16 h, digit_of 16 l with
      | Some a, Some b => byte_of (16 * a + b) :: Buffer_from_hex s'
      | _, _ => []
      end
  | _ => []
  end.

Definition hex_char (d : Z) : ascii :=
  ascii_of_N (Z.to_N (if d <? 10 then 48 + d else 87 + d)).

Definition hex_of_byte (b : byte) : string :=
  String (hex_char (byte_value b / 16))
    (String (hex_char (byte_value b mod 16)) EmptyString).

(** [buf.toString('hex')] *)
Fixpoint Buffer_toString_hex (bs : list byte) : string :=
  match bs with
  | [] => EmptyString
  | b :: bs' => hex_of_byte b ++ Buffer_toString_hex bs'
  end.

(** A JavaScript string seen as its UTF-16 code units. *)
Definition text : Type := list Z.

Definition REPLACEMENT : Z := 0xFFFD.

(** The UTF-8 decoder of [buf.toString('utf8')]: it never fails, an
    ill-formed sequence becomes U+FFFD and the byte that broke it is read
    again as the start of a new sequence. *)
Record decoder : Type := {
  code_point : Z;
  bytes_seen : Z;
  bytes_needed : Z;
  lower : Z;
  upper : Z
}.

Definition idle : decoder :=
  {| code_point := 0; bytes_seen := 0; bytes_needed := 0;
     lower := 0x80; upper := 0xBF |}.

Definition utf16 (cp : Z) : text :=
  if cp <? 0x10000 then [cp]
  else [0xD800 + Z.shiftr (cp - 0x10000) 10;
        0xDC00 + Z.land (cp - 0x10000) 0x3FF].

Definition lead (b : Z) : decoder * text :=
  if b <=? 0x7F then (idle, [b])
  else if (0xC2 <=? b) && (b <=? 0xDF) then
    ({| code_point := Z.land b 0x1F; bytes_seen := 0; bytes_needed := 1;
        lower := 0x80; upper := 0xBF |}, [])
  else if (0xE0 <=? b) && (b <=? 0xEF) then
    ({| code_point := Z.land b 0xF; bytes_seen := 0; bytes_needed := 2;
        lower := if b =? 0xE0 then 0xA0 else 0x80;
        upper := if b =? 0xED then 0x9F else 0xBF |}, [])
  else if (0xF0 <=? b) && (b <=? 0xF4) then
    ({| code_point := Z.land b 0x7; bytes_seen := 0; bytes_needed := 3;
        lower := if b =? 0xF0 then 0x90 else 0x80;
        upper := if b =? 0xF4 then 0x8F else 0xBF |}, [])
  else (idle, [REPLACEMENT]).

Definition step (d : decoder) (b : Z) : decoder * text :=
  if bytes_needed d =? 0 then lead b
  else if (lower d <=? b) && (b <=? upper d) then
    let cp := Z.lor (Z.shiftl (code_point d) 6) (Z.land b 0x3F) in
    if bytes_seen d + 1 =? bytes_needed d then (idle, utf16 cp)
    else ({| code_point := cp; bytes_seen := bytes_seen d + 1;
             bytes_needed := bytes_needed d;
             lower := 0x80; upper := 0xBF |}, [])
  else let (d', out) := lead b in (d', REPLACEMENT :: out).

Fixpoint decode (d : decoder) (bs : list byte) : text :=
  match bs with
  | [] => if bytes_needed d =? 0 then [] else [REPLACEMENT]
  | b :: bs' => let (d', out) := step d (byte_value b) in (out ++ decode d' bs')%list
  end.

(** [buf.toString('utf8')] *)
Definition Buffer_toString_utf8 (bs : list byte) : text := decode idle bs.

(** [t.replace(/\0/g, '')] *)
Definition remove_nul (t : text) : text := filter (fun u => negb (u =? 0)) t.

Definition is_control (u : Z) : bool := ((0 <=? u) && (u <=? 0x1F)) || (u =? 0x7F).

(** [t.replace(/[\x00-\x1F\x7F]/g, '')] *)
Definition remove_controls (t : text) : text := filter (fun u => negb (is_control u)) t.

(** The code units of a string of ASCII characters. *)
Fixpoint ascii_text (s : string) : text :=
  match s with
  | EmptyString => []
  | String c s' => code c :: ascii_text s'
  end.

End Js.

(** ** The collaborators: Discord guild, node, address book, console *)

Record Role : Type := { role_id : Z; role_name : string }.

Record User : Type := { username : string; discriminator : string }.

(** A guild member as the program sees it: [member.id], [member.user] and
    the identifiers of the roles it holds. *)
Record GuildMember : Type := {
  member_id : string;
  user : User;
  member_roles : list Z
}.

(** [response.data] of the node's JSON answer: the message of its [error]
    object when there is one, and its [result] field. *)
Record rpc_body : Type := { body_error : option string; body_result : value }.

Inductive http_outcome : Type :=
| Rejected (reason : string)
| Responded (data : rpc_body).

(** A row of the table [users]. *)
Record Row : Type := { discord_user_id : string; wallet_address : string }.

Inductive DbAnswer : Type :=
| DbError (reason : string)
| DbRows (rows : list Row).

(** The requests the program sends, in the order it sends them. *)
Inductive Call : Type :=
| MembersFetch (id : string)
| MembersFetchAll
| RolesRemove (member : string) (role : Z)
| RolesCreate (name : string)
| RolesAdd (member : string) (role : Z)
| EthCall (to data : string).

(** The lines written with [console.log] and [console.error]. *)
Inductive ConsoleLine : Type :=
| GuildNotFound
| DatabaseError (reason : string)
| NoRegisteredUsers
| DailyUpdate (tag balance : string) (symbol : Js.text)
| UpdateError (reason : string)
| UpdateFunctionError (reason : string).

(** Everything outside the program that it reads or changes.  [faults]
    is the fate of the coming Discord requests, one entry per request,
    [true] for a request that is rejected; once the list is used up every
    request is served. *)
Record World : Type := {
  guild_cached : bool;
  guild_members : list GuildMember;
  guild_roles : list Role;
  next_snowflake : Z;
  node : string -> string -> http_outcome;
  users_table : DbAnswer;
  faults : list bool;
  calls : list Call;
  console : list ConsoleLine
}.

Definition set_members (ms : list GuildMember) (w : World) : World :=
  {| guild_cached := guild_cached w; guild_members := ms;
     guild_roles := guild_roles w; next_snowflake := next_snowflake w;
     node := node w; users_table := users_table w; faults := faults w;
     calls := calls w; console := console w |}.

Definition set_roles (rs : list Role) (next : Z) (w : World) : World :=
  {| guild_cached := guild_cached w; guild_members := guild_members w;
     guild_roles := rs; next_snowflake := next;
     node := node w; users_table := users_table w; faults := faults w;
     calls := calls w; console := console w |}.

Definition record_call (c : Call) (fs : list bool) (w : World) : World :=
  {| guild_cached := guild_cached w; guild_members := guild_members w;
     guild_roles := guild_roles w; next_snowflake := next_snowflake w;
     node := node w; users_table := users_table w; faults := fs;
     calls := (calls w ++ [c])%list; console := console w |}.

Definition write_line (l : ConsoleLine) (w : World) : World :=
  {| guild_cached := guild_cached w; guild_members := guild_members w;
     guild_roles := guild_roles w; next_snowflake := next_snowflake w;
     node := node w; users_table := users_table w; faults := faults w;
     calls := calls w; console := (console w ++ [l])%list |}.

(** ** Computations that act on the world and may throw *)

Definition M (A : Type) : Type := World -> outcome A * World.

Definition ret {A} (a : A) : M A := fun w => (Returned a, w).

Definition throw {A} (e : exn) : M A := fun w => (Thrown e, w).

Definition bind {A B} (m : M A) (k : A -> M B) : M B :=
  fun w =>
    match m w with
    | (Returned a, w') => k a w'
    | (Thrown e, w') => (Thrown e, w')
    end.

(** A pure computation that may throw. *)
Definition lift {A} (o : outcome A) : M A := fun w => (o, w).

(** [try { m } catch (error) { handler(error) }] *)
Definition try_catch {A} (m : M A) (handler : exn -> M A) : M A :=
  fun w =>
    match m w with
    | (Returned a, w') => (Returned a, w')
    | (Thrown e, w') => handler e w'
    end.

Declare Scope M_scope.
Delimit Scope M_scope with M.
Notation "x <- c ;; k" := (bind c (fun x => k))
  (at level 61, c at next level, right associativity) : M_scope.
Notation "c ;;; k" := (bind c (fun _ => k))
  (at level 61, right associativity) : M_scope.
#[local] Open Scope M_scope.

(** [for (const x of xs) { await body(x) }] *)
Fixpoint for_of {A} (xs : list A) (body : A -> M unit) : M unit :=
  match xs with
  | [] => ret tt
  | x :: xs' => body x ;;; for_of xs' body
  end.

Definition console_write (l : ConsoleLine) : M unit :=
  fun w => (Returned tt, write_line l w).

Module Discord.

(** One request to Discord: it is recorded, and rejected when the next
    entry of [faults] says so. *)
Definition request (c : Call) : M unit :=
  fun w =>
    match faults w with
    | true :: fs => (Thrown (DiscordAPIError "request rejected"), record_call c fs w)
    | false :: fs => (Returned tt, record_call c fs w)
    | [] => (Returned tt, record_call c [] w)
    end.

Definition find_member (id : string) (ms : list GuildMember) : option GuildMember :=
  find (fun m => String.eqb (member_id m) id) ms.

(** [guild.members.fetch(id)] *)
Definition members_fetch (id : string) : M GuildMember :=
  request (MembersFetch id) ;;;
  fun w =>
    match find_member id (guild_members w) with
    | Some m => (Returned m, w)
    | None => (Thrown (DiscordAPIError "Unknown Member"), w)
    end.

(** [guild.members.fetch()] *)
Definition members_fetch_all : M (list GuildMember) :=
  request MembersFetchAll ;;;
  fun w => (Returned (guild_members w), w).

Definition find_role (id : Z) (rs : list Role) : option Role :=
  find (fun r => role_id r =? id) rs.

(** The roles of the guild behind a list of role identifiers; an
    identifier the guild does not know is skipped. *)
Definition resolve_roles (rs : list Role) (ids : list Z) : list Role :=
  flat_map (fun id => match find_role id rs with
                      | Some r => [r]
                      | None => []
                      end) ids.

(** [member.roles.cache]; the [@everyone] role, which the program never
    touches, is left out. *)
Definition roles_cache (member : GuildMember) : M (list Role) :=
  fun w => (Returned (resolve_roles (guild_roles w) (member_roles member)), w).

Definition update_member (id : string) (f : list Z -> list Z)
    (ms : list GuildMember) : list GuildMember :=
  map (fun m => if String.eqb (member_id m) id
                then {| member_id := member_id m; user := user m;
                        member_roles := f (member_roles m) |}
                else m) ms.

(** [member.roles.remove(role)] *)
Definition roles_remove (member : GuildMember) (role : Role) : M unit :=
  request (RolesRemove (member_id member) (role_id role)) ;;;
  fun w =>
    (Returned tt,
     set_members (update_member (member_id member)
                    (filter (fun id => negb (id =? role_id role)))
                    (guild_members w)) w).

(** [ids] with [id] added, unless it is there already. *)
Definition with_role (id : Z) (ids : list Z) : list Z :=
  if existsb (Z.eqb id) ids then ids else (ids ++ [id])%list.

(** [member.roles.add(role)] *)
Definition roles_add (member : GuildMember) (role : Role) : M unit :=
  request (RolesAdd (member_id member) (role_id role)) ;;;
  fun w =>
    (Returned tt,
     set_members (update_member (member_id member) (with_role (role_id role))
                    (guild_members w)) w).

(** [guild.roles.cache.find(r => r.name === name)] *)
Definition roles_find_by_name (name : string) : M (option Role) :=
  fun w => (Returned (find (fun r => String.eqb (role_name r) name) (guild_roles w)), w).

(** [guild.roles.create({ name, ... })]: the new role receives an
    identifier no role of the guild has. *)
Definition roles_create (name : string) : M Role :=
  request (RolesCreate name) ;;;
  fun w =>
    let r := {| role_id := next_snowflake w; role_name := name |} in
    (Returned r, set_roles (guild_roles w ++ [r])%list (next_snowflake w + 1) w).

(** [user.tag] *)
Definition tag (u : User) : string :=
  if String.eqb (discriminator u) "0" then username u
  else username u ++ "#" ++ discriminator u.

End Discord.

(** [axios.post(RPC_URL, payload)] for an [eth_call] of [data] on [to]. *)
Definition axios_post (to data : string) : M rpc_body :=
  fun w =>
    let w' := record_call (EthCall to data) (faults w) w in
    match node w to data with
    | Rejected reason => (Thrown (Error reason), w')
    | Responded body => (Returned body, w')
    end.

(** ** The program *)

Definition BALANCE_OF_SIGNATURE : string := "balanceOf(address)".
Definition DECIMALS_SIGNATURE : string := "decimals()".
Definition SYMBOL_SIGNATURE : string := "symbol()".

Record Threshold : Type := { roleName : string; max : Js.number }.

Definition roleThresholds : list Threshold :=
  [ {| roleName := "zklHolder"; max := Js.Finite 5000 |};
    {| roleName := "zkLDolphin 🐬"; max := Js.Finite 10000 |};
    {| roleName := "zklShark 🦈"; max := Js.Finite 50000 |};
    {| roleName := "zklWhale 🐋"; max := Js.Finite 100000 |};
    {| roleName := "zklHumpback 🐳"; max := Js.PosInfinity |} ].

Definition roleNames : list string := map roleName roleThresholds.

(** [names.includes(name)] *)
Definition includes (names : list string) (name : string) : bool :=
  existsb (String.eqb name) names.

(** What [getTokenBalance] returns. *)
Record TokenBalance : Type := { balance : string; symbol : Js.text }.

(** What [assignRoleByBalance] returns. *)
Record Assignment : Type := {
  assigned_roleName : string;
  assigned_balance : Js.number;
  assigned_symbol : Js.text
}.

Definition decodeHexToDecimal (hexValue : value) : outcome string :=
  obind (Js.BigInt hexValue) (fun n => Returned (Js.BigInt_toString n)).

Definition decodeHexToString (hexValue : value) : outcome Js.text :=
  match hexValue with
  | VString s =>
      let hex := if Js.startsWith s "0x" then Js.slice 2 s else s in
      let buf := Js.Buffer_from_hex hex in
      Returned (Js.remove_controls (Js.remove_nul (Js.Buffer_toString_utf8 buf)))
  | VUndefined =>
      Thrown (TypeError "Cannot read properties of undefined (reading 'startsWith')")
  | VNull =>
      Thrown (TypeError "Cannot read properties of null (reading 'startsWith')")
  end.

(** [roleThresholds.find(th => balance < th.max).roleName], the tier
    resolution inside [assignRoleByBalance]. *)
Definition thresholdRoleName (balance : Js.number) : outcome string :=
  match find (fun th => Js.lt balance (max th)) roleThresholds with
  | Some th => Returned (roleName th)
  | None => Thrown (TypeError "Cannot read properties of undefined (reading 'roleName')")
  end.

Definition assignRoleByBalance (member : GuildMember) (balance : Js.number)
    (symbol : Js.text) : M Assignment :=
  cache <- Discord.roles_cache member ;;
  let rolesToRemove := filter (fun r => includes roleNames (role_name r)) cache in
  for_of rolesToRemove (fun roleObj => Discord.roles_remove member roleObj) ;;;
  roleName <- lift (thresholdRoleName balance) ;;
  found <- Discord.roles_find_by_name roleName ;;
  role <- match found with
          | Some r => ret r
          | None => Discord.roles_create roleName
          end ;;
  Discord.roles_add member role ;;;
  ret {| assigned_roleName := roleName; assigned_balance := balance;
         assigned_symbol := symbol |}.

Section Program.

(** [abi.simpleEncode] of ethereumjs-abi and [String.prototype.toLowerCase]
    are taken as given. *)
Variable simpleEncode : string -> list string -> outcome (list byte).
Variable toLowerCase : string -> string.

Definition encodeFunctionCall (signature : string) (params : list string)
    : outcome string :=
  obind (simpleEncode signature params)
        (fun encoded => Returned ("0x" ++ Js.Buffer_toString_hex encoded)).

Definition rpcCall (contractAddress data : string) : M value :=
  try_catch
    (response <- axios_post contractAddress data ;;
     match body_error response with
     | Some reason => throw (Error reason)
     | None => ret (body_result response)
     end)
    (fun error => throw (Error ("RPC request error: " ++ message error))).

Definition getTokenBalance (userAddr tokenAddr : string) : M TokenBalance :=
  try_catch
    (balanceData <- lift (encodeFunctionCall BALANCE_OF_SIGNATURE [userAddr]) ;;
     hexBalance <- rpcCall tokenAddr balanceData ;;
     decimalsData <- lift (encodeFunctionCall DECIMALS_SIGNATURE []) ;;
     hexDecimals <- rpcCall tokenAddr decimalsData ;;
     symbolData <- lift (encodeFunctionCall SYMBOL_SIGNATURE []) ;;
     hexSymbol <- rpcCall tokenAddr symbolData ;;
     balance <- lift (decodeHexToDecimal hexBalance) ;;
     decimals <- lift (decodeHexToDecimal hexDecimals) ;;
     symbol <- lift (decodeHexToString hexSymbol) ;;
     raw <- lift (Js.BigInt hexBalance) ;;
     exponent <- lift (Js.BigInt (VString decimals)) ;;
     scale <- lift (Js.BigInt_pow 10 exponent) ;;
     quotient <- lift (Js.BigInt_div raw scale) ;;
     ret {| balance := Js.BigInt_toString quotient; symbol := symbol |})
    (fun error =>
       throw (Error ("Token information retrieval error: " ++ message error))).

Definition same_name (name : string) (m : GuildMember) : bool :=
  String.eqb (toLowerCase (username (user m))) (toLowerCase name).

Definition resolveUserId (input : string) : M (option string) :=
  match Js.match_mention input with
  | Some id => ret (Some id)
  | None =>
      if Js.test_digits input then
        try_catch (Discord.members_fetch input ;;; ret (Some input))
                  (fun _ => ret None)
      else
        let parts := Js.split "#" input in
        match nth_error parts 0 with
        | None | Some EmptyString => ret None
        | Some name =>
            members <- Discord.members_fetch_all ;;
            match nth_error parts 1 with
            | None | Some EmptyString =>
                let member := find (same_name name) members in
                ret (option_map member_id member)
            | Some discriminator' =>
                let member :=
                  find (fun m => same_name name m
                                 && String.eqb (discriminator (user m)) discriminator')
                       members in
                ret (option_map member_id member)
            end
        end
  end.

Definition tokenContractAddress : string :=
  "0xC967dabf591B1f4B86CFc74996EAD065867aF19E".

(** The body of the loop of [updateAllUserRoles] for one row. *)
Definition updateRow (row : Row) : M unit :=
  try_catch
    (member <- Discord.members_fetch (discord_user_id row) ;;
     token <- getTokenBalance (wallet_address row) tokenContractAddress ;;
     let numericBalance := Js.parseFloat (balance token) in
     assignRoleByBalance member numericBalance (symbol token) ;;;
     console_write (DailyUpdate (Discord.tag (user member)) (balance token)
                                (symbol token)))
    (fun error => console_write (UpdateError (message error))).

Definition updateAllUserRoles : M unit :=
  try_catch
    (fun w =>
       if negb (guild_cached w) then console_write GuildNotFound w
       else
         match users_table w with
         | DbError reason => console_write (DatabaseError reason) w
         | DbRows [] => console_write NoRegisteredUsers w
         | DbRows rows => for_of rows updateRow w
         end)
    (fun error => console_write (UpdateFunctionError (message error))).

End Program.

(** ** Observations and reference definitions used by the statements *)

(** The roles an identity holds in a world, as [member.roles.cache] would
    show them after a fresh fetch. *)
Definition held_roles (w : World) (id : string) : list Role :=
  match Discord.find_member id (guild_members w) with
  | Some m => Discord.resolve_roles (guild_roles w) (member_roles m)
  | None => []
  end.

Definition on_ladder (r : Role) : bool := includes roleNames (role_name r).

(** The held roles whose name is a label of the ladder. *)
Definition held_ladder_roles (w : World) (id : string) : list Role :=
  filter on_ladder (held_roles w id).

Fixpoint distinct (ids : list Z) : bool :=
  match ids with
  | [] => true
  | i :: r => negb (existsb (Z.eqb i) r) && distinct r
  end.

(** A guild is coherent when its roles have distinct identifiers, all
    below the next identifier Discord will hand out, and members hold
    roles of the guild only. *)
Definition coherent (w : World) : bool :=
  distinct (map role_id (guild_roles w))
  && forallb (fun r => role_id r <? next_snowflake w) (guild_roles w)
  && forallb (fun m => forallb (fun id => existsb (fun r => role_id r =? id)
                                            (guild_roles w))
                               (member_roles m))
             (guild_members w).

(** The identifiers of the ladder roles among the roles behind [ids]. *)
Definition held_ladder_ids (rs : list Role) (ids : list Z) : list Z :=
  map role_id (filter on_ladder (Discord.resolve_roles rs ids)).

(** What is left of [ids] once those are removed. *)
Definition after_removal (rs : list Role) (ids : list Z) : list Z :=
  filter (fun i => negb (existsb (Z.eqb i) (held_ladder_ids rs ids))) ids.

(** The identifiers of the members fetched one by one, in order. *)
Definition fetched (cs : list Call) : list string :=
  flat_map (fun c => match c with MembersFetch id => [id] | _ => [] end) cs.

(** A console line that reports on one holder of the batch. *)
Definition is_report (l : ConsoleLine) : bool :=
  match l with
  | DailyUpdate _ _ _ | UpdateError _ => true
  | _ => false
  end.

(** A computation that writes nothing on the console and fetches no
    member, whatever its outcome. *)
Definition quiet {A} (m : M A) : Prop :=
  forall w, console (snd (m w)) = console w
            /\ fetched (calls (snd (m w))) = fetched (calls w).

(** The roles removed from a member, in order. *)
Definition removed (cs : list Call) : list Z :=
  flat_map (fun c => match c with RolesRemove _ r => [r] | _ => [] end) cs.

(** Reference definition, after the specification of the reconciler:
    [currentRoles ∩ ladderLabelSet \ {targetLabel}]. *)
Definition rolesToRemove_spec (currentRoles : list Role) (targetLabel : string)
    : list Role :=
  filter (fun r => on_ladder r && negb (String.eqb (role_name r) targetLabel))
         currentRoles.

(** Reference definition: the byte sequences that are well-formed UTF-8
    (Unicode, table 3-7). *)
Definition between (lo hi b : Z) : bool := (lo <=? b) && (b <=? hi).

Fixpoint well_formed_utf8 (bs : list Z) : bool :=
  match bs with
  | [] => true
  | b0 :: r0 =>
      if b0 <=? 0x7F then well_formed_utf8 r0
      else
        match r0 with
        | [] => false
        | b1 :: r1 =>
            if between 0xC2 0xDF b0 && between 0x80 0xBF b1 then well_formed_utf8 r1
            else
              match r1 with
              | [] => false
              | b2 :: r2 =>
                  if between 0xE0 0xEF b0
                     && between (if b0 =? 0xE0 then 0xA0 else 0x80)
                                (if b0 =? 0xED then 0x9F else 0xBF) b1
                     && between 0x80 0xBF b2
                  then well_formed_utf8 r2
                  else
                    match r2 with
                    | [] => false
                    | b3 :: r3 =>
                        if between 0xF0 0xF4 b0
                           && between (if b0 =? 0xF0 then 0x90 else 0x80)
                                      (if b0 =? 0xF4 then 0x8F else 0xBF) b1
                           && between 0x80 0xBF b2 && between 0x80 0xBF b3
                        then well_formed_utf8 r3
                        else false
                    end
              end
        end
  end.

(** Reference definition: the bytes written by a well-formed hex string,
    two hex digits (of either case) per byte. *)
Fixpoint hex_bytes (s : string) : option (list byte) :=
  match s with
  | EmptyString => Some []
  | String _ EmptyString => None
  | String h (String l s') =>
      match Js.digit_of 16 h, Js.digit_of 16 l, hex_bytes s' with
      | Some a, Some b, Some bs => Some (Js.byte_of (16 * a + b) :: bs)
      | _, _, _ => None
      end
  end.

(** [n] zero bytes in hex. *)
Fixpoint zero_padding (n : nat) : string :=
  match n with
  | O => EmptyString
  | S n' => String "0" (String "0" (zero_padding n'))
  end.

(** The next Discord request is served. *)
Definition served (w : World) : bool :=
  match faults w with
  | true :: _ => false
  | _ => true
  end.

(** Reference definition: a member matches a [name] or
    [name#discriminator] input when its user name equals the name up to
    letter case and, if a discriminator is given, its discriminator is
    that one. *)
Definition matches_input (toLowerCase : string -> string) (input : string)
    (m : GuildMember) : bool :=
  match Js.split "#" input with
  | name :: rest =>
      Js.nonempty name
      && same_name toLowerCase name m
      && match rest with
         | d :: _ => if Js.nonempty d then String.eqb (discriminator (user m)) d else true
         | [] => true
         end
  | [] => false
  end.

(** Every character of the string is a visible ASCII character, from
    [!] to [~]. *)
Fixpoint plain (s : string) : bool :=
  match s with
  | EmptyString => true
  | String c s' => (33 <=? Js.code c) && (Js.code c <=? 126) && plain s'
  end.

(** The node answers the query [data] on [to] with a result and no error
    object. *)
Definition answered (w : World) (to data : string) : bool :=
  match node w to data with
  | Responded {| body_error := None; body_result := _ |} => true
  | _ => false
  end.

(** The query [data] on [to] fails for [reason]: the request is rejected,
    or the answer carries an error object with that message. *)
Definition refused (w : World) (to data reason : string) : Prop :=
  node w to data = Rejected reason
  \/ exists v, node w to data
               = Responded {| body_error := Some reason; body_result := v |}.

(** Reference definition: the number of queries the oracle sends when it
    stops at the first query that is not answered. *)
Definition queries_sent (w : World) (to balanceData decimalsData : string) : nat :=
  if answered w to balanceData then
    if answered w to decimalsData then 3 else 2
  else 1.

(** ** One attempt for a holder *)

(** Reference definition, after the loop body of the batch driver: an
    attempt for the holder of [row], begun in [w], fetches the member,
    asks the oracle for the balance of the wallet and reconciles the
    member; it reports the daily update when the three steps succeed and
    the message of the first error otherwise, and leaves the world [w'],
    the report not yet written. *)
Inductive attempt (simpleEncode : string -> list string -> outcome (list byte))
    (row : Row) (w : World) : ConsoleLine -> World -> Prop :=
| attempt_reconciled (member : GuildMember) (token : TokenBalance)
    (result : Assignment) (w1 w2 w3 : World) :
    Discord.members_fetch (discord_user_id row) w = (Returned member, w1) ->
    getTokenBalance simpleEncode (wallet_address row) tokenContractAddress w1
    = (Returned token, w2) ->
    assignRoleByBalance member (Js.parseFloat (balance token)) (symbol token) w2
    = (Returned result, w3) ->
    attempt simpleEncode row w
      (DailyUpdate (Discord.tag (user member)) (balance token) (symbol token)) w3
| attempt_not_fetched (e : exn) (w1 : World) :
    Discord.members_fetch (discord_user_id row) w = (Thrown e, w1) ->
    attempt simpleEncode row w (UpdateError (message e)) w1
| attempt_no_balance (member : GuildMember) (e : exn) (w1 w2 : World) :
    Discord.members_fetch (discord_user_id row) w = (Returned member, w1) ->
    getTokenBalance simpleEncode (wallet_address row) tokenContractAddress w1
    = (Thrown e, w2) ->
    attempt simpleEncode row w (UpdateError (message e)) w2
| attempt_not_reconciled (member : GuildMember) (token : TokenBalance) (e : exn)
    (w1 w2 w3 : World) :
    Discord.members_fetch (discord_user_id row) w = (Returned member, w1) ->
    getTokenBalance simpleEncode (wallet_address row) tokenContractAddress w1
    = (Returned token, w2) ->
    assignRoleByBalance member (Js.parseFloat (balance token)) (symbol token) w2
    = (Thrown e, w3) ->
    attempt simpleEncode row w (UpdateError (message e)) w3.

(** One attempt per row, in the order of the rows, each begun in the world
    the one before has left, its report written. *)
Inductive attempts (simpleEncode : string -> list string -> outcome (list byte))
    : list Row -> World -> list ConsoleLine -> World -> Prop :=
| attempts_nil (w : World) : attempts simpleEncode [] w [] w
| attempts_cons (row : Row) (rows : list Row) (w w1 w' : World)
    (line : ConsoleLine) (lines : list ConsoleLine) :
    attempt simpleEncode row w line w1 ->
    attempts simpleEncode rows (write_line line w1) lines w' ->
    attempts simpleEncode (row :: rows) w (line :: lines) w'.

(** A computation whose final world is related by [R] to the one it
    starts in, whatever its outcome. *)
Definition within {A} (R : World -> World -> Prop) (m : M A) : Prop :=
  forall w, R w (snd (m w)).

(** The identifiers and the users of the members of the guild. *)
Definition people (w : World) : list (string * User) :=
  map (fun m => (member_id m, user m)) (guild_members w).

(** What no step of the program undoes: requests that are all served stay
    so, the node and the members of the guild stay the same, and the roles
    of the guild are only added to. *)
Definition settled (w w' : World) : Prop :=
  (faults w = [] -> faults w' = [])
  /\ node w' = node w
  /\ people w' = people w
  /\ exists extra, guild_roles w' = (guild_roles w ++ extra)%list.

(** ** Instances used by the examples *)

Definition ascii_lower (c : ascii) : ascii :=
  if (65 <=? Js.code c) && (Js.code c <=? 90)
  then ascii_of_N (Z.to_N (Js.code c + 32)) else c.

(** [toLowerCase] on strings of ASCII characters. *)
Fixpoint asciiToLowerCase (s : string) : string :=
  match s with
  | EmptyString => EmptyString
  | String c s' => String (ascii_lower c) (asciiToLowerCase s')
  end.

(** A 32-byte big-endian word. *)
Definition word32 (z : Z) : list byte :=
  map (fun i => Js.byte_of (Z.land (Z.shiftr z (8 * (31 - Z.of_nat i))) 0xFF))
      (seq 0 32).

(** [abi.simpleEncode] on the three signatures of the program: the
    4-byte selector (tabulated) followed by the address as one word. *)
Definition erc20Encode (signature : string) (params : list string)
    : outcome (list byte) :=
  if String.eqb signature BALANCE_OF_SIGNATURE then
    match params with
    | [a] =>
        match Js.StringToBigInt a with
        | Some z => Returned ([x70; xa0; x82; x31] ++ word32 z)%list
        | None => Thrown (Error "Invalid address")
        end
    | _ => Thrown (Error "Argument count mismatch")
    end
  else if String.eqb signature DECIMALS_SIGNATURE then Returned [x31; x3c; xe5; x67]
  else if String.eqb signature SYMBOL_SIGNATURE then Returned [x95; xd8; x9b; x41]
  else Thrown (Error "Unsupported signature").

(** A node serving one token: 18 decimals, symbol ZKL padded with zero
    bytes, and a balance per holder given by [balances]; a holder mapped
    to [None] has its balance query answered with an error object. *)
Definition token_node (balances : list (string * option string))
    (to data : string) : http_outcome :=
  if String.eqb data "0x313ce567" then
    Responded {| body_error := None; body_result := VString "0x12" |}
  else if String.eqb data "0x95d89b41" then
    Responded {| body_error := None;
                 body_result := VString "0x5a4b4c0000000000000000000000000000" |}
  else
    match find (fun p => match encodeFunctionCall erc20Encode BALANCE_OF_SIGNATURE [fst p] with
                         | Returned d => String.eqb d data
                         | Thrown _ => false
                         end) balances with
    | Some (_, Some hex) => Responded {| body_error := None; body_result := VString hex |}
    | Some (_, None) =>
        Responded {| body_error := Some "execution reverted"; body_result := VUndefined |}
    | None => Rejected "connect ECONNREFUSED"
    end.

(** A world with an empty guild, no registered holder and the given node. *)
Definition empty_world (n : string -> string -> http_outcome) : World :=
  {| guild_cached := true; guild_members := []; guild_roles := [];
     next_snowflake := 1; node := n; users_table := DbRows [];
     faults := []; calls := []; console := [] |}.

(** A node whose answers carry neither [error] nor [result]. *)
Definition silent_node (to data : string) : http_outcome :=
  Responded {| body_error := None; body_result := VUndefined |}.

Definition holder1 : string := "0x1111111111111111111111111111111111111111".
Definition holder2 : string := "0x2222222222222222222222222222222222222222".
Definition holder3 : string := "0x3333333333333333333333333333333333333333".

(** A guild of three members, two of them named bob, with three holders
    registered; the node serves balances of 5000 and 100000 tokens to the
    first and the third and answers the second with an error object. *)
Definition sample_world : World :=
  {| guild_cached := true;
     guild_members :=
       [ {| member_id := "101";
            user := {| username := "ann"; discriminator := "0" |};
            member_roles := [1; 3] |};
         {| member_id := "102";
            user := {| username := "bob"; discriminator := "0001" |};
            member_roles := [] |};
         {| member_id := "103";
            user := {| username := "bob"; discriminator := "0002" |};
            member_roles := [2] |} ];
     guild_roles :=
       [ {| role_id := 1; role_name := "zklHolder" |};
         {| role_id := 2; role_name := "zklShark 🦈" |};
         {| role_id := 3; role_name := "moderator" |} ];
     next_snowflake := 4;
     node := token_node [ (holder1, Some "0x10f0cf064dd59200000");
                          (holder2, None);
                          (holder3, Some "0x152d02c7e14af6800000") ];
     users_table :=
       DbRows [ {| discord_user_id := "101"; wallet_address := holder1 |};
                {| discord_user_id := "102"; wallet_address := holder2 |};
                {| discord_user_id := "103"; wallet_address := holder3 |} ];
     faults := []; calls := []; console := [] |}.

(** The first member of the sample guild, as fetched. *)
Definition ann : GuildMember :=
  {| member_id := "101";
     user := {| username := "ann"; discriminator := "0" |};
     member_roles := [1; 3] |}.

(** A world whose node reports a raw balance of
    123456789012345678901234567890 for the first holder, more than 64 bits
    can hold. *)
Definition large_balance_world : World :=
  empty_world (token_node [ (holder1, Some "0x18ee90ff6c373e0ee4e3f0ad2") ]).

(** The sample world after ann has been reconciled with a balance of 7500,
    and ann as fetched again in that world. *)
Definition ann_reconciled : World :=
  snd (assignRoleByBalance ann (Js.Finite 7500) [] sample_world).

Definition ann_refetched : GuildMember :=
  {| member_id := "101";
     user := {| username := "ann"; discriminator := "0" |};
     member_roles := [3; 4] |}.

(** The sample world where the second Discord request to come is rejected. *)
Definition flaky_world : World :=
  {| guild_cached := guild_cached sample_world;
     guild_members := guild_members sample_world;
     guild_roles := guild_roles sample_world;
     next_snowflake := next_snowflake sample_world;
     node := node sample_world;
     users_table := users_table sample_world;
     faults := [false; true];
     calls := [];
     console := [] |}.

(** A computation that leaves a coherent guild coherent, whatever its
    outcome. *)
Definition steady {A} (m : M A) : Prop :=
  forall w, coherent w = true -> coherent (snd (m w)) = true.

(** A computation that leaves the roles of the member [id] as they are,
    whatever its outcome. *)
Definition spares {A} (id : string) (m : M A) : Prop :=
  forall w, Discord.find_member id (guild_members (snd (m w)))
            = Discord.find_member id (guild_members w).

(** The sample world with the first and the third holder registered only. *)
Definition two_holders_world : World :=
  {| guild_cached := guild_cached sample_world;
     guild_members := guild_members sample_world;
     guild_roles := guild_roles sample_world;
     next_snowflake := next_snowflake sample_world;
     node := node sample_world;
     users_table :=
       DbRows [ {| discord_user_id := "101"; wallet_address := holder1 |};
                {| discord_user_id := "103"; wallet_address := holder3 |} ];
     faults := [];
     calls := [];
     console := [] |}.

(** Reference definition: the label of the tier an integer balance falls
    in, by the bounds of the ladder. *)
Definition integer_tier (n : Z) : string :=
  if n <? 5000 then "zklHolder"
  else if n <? 10000 then "zkLDolphin 🐬"
  else if n <? 50000 then "zklShark 🦈"
  else if n <? 100000 then "zklWhale 🐋"
  else "zklHumpback 🐳".

(** ** The command handler *)

(** [s.split(/ +/)]: the pieces between the runs of spaces, at least one;
    [gap] tells that the character before was a space of the same run. *)
Fixpoint split_spaces (gap : bool) (s : string) : list string :=
  match s with
  | EmptyString => [EmptyString]
  | String c s' =>
      if Ascii.eqb c " " then
        if gap then split_spaces true s'
        else EmptyString :: split_spaces true s'
      else
        match split_spaces false s' with
        | piece :: rest => String c piece :: rest
        | [] => [String c EmptyString]
        end
  end.

(** The apostrophe and the double quote, the class of the pattern that
    the handler erases from its arguments. *)
Definition is_quote (c : ascii) : bool := (Js.code c =? 39) || (Js.code c =? 34).

(** [s.replace(pattern, '')] for that pattern, which is global: every
    quote of [s] is removed. *)
Fixpoint remove_quotes (s : string) : string :=
  match s with
  | EmptyString => EmptyString
  | String c s' => if is_quote c then remove_quotes s' else String c (remove_quotes s')
  end.

Definition is_hex_digit (c : ascii) : bool :=
  ((97 <=? Js.code c) && (Js.code c <=? 102))
  || ((65 <=? Js.code c) && (Js.code c <=? 70))
  || ((48 <=? Js.code c) && (Js.code c <=? 57)).

Fixpoint all_hex (s : string) : bool :=
  match s with
  | EmptyString => true
  | String c s' => is_hex_digit c && all_hex s'
  end.

(** [/^0x[a-fA-F0-9]{40}$/.test(address)] *)
Definition isValidWalletAddress (address : string) : bool :=
  Js.startsWith address "0x"
  && Nat.eqb (String.length (Js.slice 2 address)) 40
  && all_hex (Js.slice 2 address).

(** What the handler reads of a message sent in the guild:
    [message.author.bot], [message.content] and
    [message.member.permissions.has(PermissionsBitField.Flags.ManageRoles)]. *)
Record Message : Type := {
  author_bot : bool;
  content : string;
  manages_roles : bool
}.

(** The texts the handler passes to [message.reply].  The replies are
    taken to be delivered: a reply that Discord rejects, whose error would
    leave the listener uncaught, is outside this model. *)
Inductive Reply : Type :=
| NoPermission
| RegisterUsage
| CheckbalanceUsage
| UserNotFound
| InvalidWalletAddress
| DatabaseErrorOccurred
| Registered (discordUserId : string)
| NoRegisteredWallet
| RoleAssigned (tag roleName balance : string) (sanitizedSymbol : Js.text)
| BalanceRetrievalError.

(** What the handler writes, a reply to the message or a line of
    [console.error]: the message of a database error alone (in
    [!register]), the same after ['Database error:'] (in [!checkbalance]),
    and the error caught around the balance check after ['Error:']. *)
Inductive Output : Type :=
| Replied (text : Reply)
| LoggedMessage (reason : string)
| LoggedDatabaseError (reason : string)
| LoggedError (error : exn).

Definition is_reply (o : Output) : bool :=
  match o with
  | Replied _ => true
  | _ => false
  end.

Definition set_users (t : DbAnswer) (w : World) : World :=
  {| guild_cached := guild_cached w; guild_members := guild_members w;
     guild_roles := guild_roles w; next_snowflake := next_snowflake w;
     node := node w; users_table := t; faults := faults w;
     calls := calls w; console := console w |}.

(** [INSERT OR REPLACE INTO users (discord_user_id, wallet_address)
    VALUES (?, ?)], [discord_user_id] being the primary key of the table:
    the row of that key, if any, is deleted and the new row is added. *)
Definition insert_or_replace (id wallet : string) (rows : list Row) : list Row :=
  (filter (fun r => negb (String.eqb (discord_user_id r) id)) rows
   ++ [ {| discord_user_id := id; wallet_address := wallet |} ])%list.

(** [SELECT wallet_address FROM users WHERE discord_user_id = ?], as
    [db.get] answers it: the first row found, if any. *)
Definition select_wallet (id : string) (rows : list Row) : option Row :=
  find (fun r => String.eqb (discord_user_id r) id) rows.

Section Commands.

(** [abi.simpleEncode], [String.prototype.toLowerCase] and
    [String.prototype.trim] are taken as given, and so is
    [client.users.fetch], the lookup of a user in Discord's own directory,
    which reaches beyond the guild: it answers with the user of the
    identifier asked for, or throws. *)
Variable simpleEncode : string -> list string -> outcome (list byte).
Variable toLowerCase : string -> string.
Variable trim : string -> string.
Variable users_fetch : string -> outcome User.

Definition isModerator (message : Message) : bool := manages_roles message.

(** The branch [command === 'register']; the handler's writes are
    returned in the order they are made.  A database that answers with
    an error, [DbError], does so to every statement, [db.run] and [db.get]
    as well as [db.all]. *)
Definition register (message : Message) (args : list string) : M (list Output) :=
  if negb (isModerator message) then ret [Replied NoPermission]
  else
    match args with
    | arg0 :: arg1 :: _ =>
        let userInput := remove_quotes arg0 in
        let walletAddress := remove_quotes arg1 in
        discordUserId <- resolveUserId toLowerCase userInput ;;
        match discordUserId with
        | None | Some EmptyString => ret [Replied UserNotFound]
        | Some discordUserId =>
            if negb (isValidWalletAddress walletAddress) then
              ret [Replied InvalidWalletAddress]
            else
              fun w =>
                match users_table w with
                | DbError reason =>
                    (Returned [LoggedMessage reason; Replied DatabaseErrorOccurred], w)
                | DbRows rows =>
                    (Returned [Replied (Registered discordUserId)],
                     set_users
                       (DbRows (insert_or_replace discordUserId walletAddress rows)) w)
                end
        end
    | _ => ret [Replied RegisterUsage]
    end.

(** The branch [command === 'checkbalance']. *)
Definition checkbalance (message : Message) (args : list string) : M (list Output) :=
  if negb (isModerator message) then ret [Replied NoPermission]
  else
    match args with
    | [] => ret [Replied CheckbalanceUsage]
    | arg0 :: _ =>
        let userInput := remove_quotes arg0 in
        discordUserId <- resolveUserId toLowerCase userInput ;;
        match discordUserId with
        | None | Some EmptyString => ret [Replied UserNotFound]
        | Some discordUserId =>
            fun w =>
              match users_table w with
              | DbError reason =>
                  (Returned [LoggedDatabaseError reason; Replied DatabaseErrorOccurred], w)
              | DbRows rows =>
                  match select_wallet discordUserId rows with
                  | None => (Returned [Replied NoRegisteredWallet], w)
                  | Some row =>
                      let walletAddress := wallet_address row in
                      try_catch
                        (token <- getTokenBalance simpleEncode walletAddress
                                    tokenContractAddress ;;
                         let numericBalance := Js.parseFloat (balance token) in
                         user <- lift (users_fetch discordUserId) ;;
                         member <- Discord.members_fetch discordUserId ;;
                         result <- assignRoleByBalance member numericBalance
                                     (symbol token) ;;
                         let sanitizedSymbol := Js.remove_controls (symbol token) in
                         ret [Replied (RoleAssigned (Discord.tag user)
                                         (assigned_roleName result) (balance token)
                                         sanitizedSymbol)])
                        (fun error =>
                           ret [LoggedError error; Replied BalanceRetrievalError]) w
                  end
              end
        end
    end.

(** The listener of [messageCreate]. *)
Definition messageCreate (message : Message) : M (list Output) :=
  if author_bot message then ret []
  else if negb (Js.startsWith (content message) "!") then ret []
  else
    match split_spaces false (trim (Js.slice 1 (content message))) with
    | [] =>
        throw (TypeError "Cannot read properties of undefined (reading 'toLowerCase')")
    | first :: args =>
        let command := toLowerCase first in
        if String.eqb command "register" then register message args
        else if String.eqb command "checkbalance" then checkbalance message args
        else ret []
    end.

End Commands.

(** [trim] on strings whose only white space is the ASCII one. *)
Definition is_space (c : ascii) : bool :=
  ((9 <=? Js.code c) && (Js.code c <=? 13)) || (Js.code c =? 32).

Fixpoint trim_start (s : string) : string :=
  match s with
  | String c s' => if is_space c then trim_start s' else s
  | EmptyString => EmptyString
  end.

Fixpoint trim_end (s : string) : string :=
  match s with
  | EmptyString => EmptyString
  | String c s' =>
      match trim_end s' with
      | EmptyString => if is_space c then EmptyString else String c EmptyString
      | rest => String c rest
      end
  end.

Definition asciiTrim (s : string) : string := trim_end (trim_start s).

(** A directory that knows the members of the sample guild and nobody
    else. *)
Definition sample_directory (id : string) : outcome User :=
  match Discord.find_member id (guild_members sample_world) with
  | Some m => Returned (user m)
  | None => Thrown (DiscordAPIError "Unknown User")
  end.

Definition moderator_says (text : string) : Message :=
  {| author_bot := false; content := text; manages_roles := true |}.

(** A computation that leaves the table of the registered holders as it
    finds it. *)
Definition keeps_table {A} (m : M A) : Prop :=
  forall w, users_table (snd (m w)) = users_table w.

(** The identifiers of the rows are pairwise different, as the primary key
    of the table requires. *)
Definition unique_keys (rows : list Row) : Prop := NoDup (map discord_user_id rows).

(** * Properties *)

(** ** Tier resolution *)

Lemma Qltb_lt (a b : Q) : Js.Qltb a b = true <-> (a < b)%Q.
Proof.
  unfold Js.Qltb. rewrite negb_true_iff. split; intro H.
  - apply Qnot_le_lt. intro L. apply Qle_bool_iff in L. congruence.
  - destruct (Qle_bool b a) eqn:E; [|reflexivity].
    apply Qle_bool_iff in E. exfalso. exact (Qlt_not_le _ _ H E).
Qed.

Lemma Qltb_dec (a b : Q) :
  Js.Qltb a b = if Qlt_le_dec a b then true else false.
Proof.
  destruct (Qlt_le_dec a b) as [L|G].
  - now apply Qltb_lt.
  - destruct (Js.Qltb a b) eqn:E; [|reflexivity].
    apply Qltb_lt in E. exfalso. exact (Qlt_not_le _ _ E G).
Qed.

Lemma ladder_names : roleNames =
  ["zklHolder"; "zkLDolphin 🐬"; "zklShark 🦈"; "zklWhale 🐋"; "zklHumpback 🐳"].
Proof. reflexivity. Qed.

(** Whatever tier resolution returns is a label of the ladder. *)
Lemma thresholdRoleName_on_ladder (balance : Js.number) (name : string) :
  thresholdRoleName balance = Returned name -> includes roleNames name = true.
Proof.
  unfold thresholdRoleName.
  destruct (find _ roleThresholds) as [th|] eqn:F; [|discriminate].
  intros [= <-]. apply find_some in F. destruct F as [I _].
  unfold includes. apply existsb_exists. exists (roleName th). split.
  - unfold roleNames. now apply in_map.
  - apply String.eqb_refl.
Qed.

(** C3. For every finite balance (so for every non-negative one) tier
    resolution returns the label of the first entry of the ladder, taken in
    its ascending order of bounds, whose bound is strictly greater than the
    balance, that is the first label below 5000, the second from 5000 to
    below 10000, and so on; a balance equal to a bound falls in the next
    tier: 4999 and 0 resolve to the first label, 5000 and 9999 to the
    second, 10000 to the third and 100000 to the last. *)
Theorem tier_resolution_first_exceeding_bound (q : Q) :
  (exists before th after,
      roleThresholds = (before ++ th :: after)%list
      /\ thresholdRoleName (Js.Finite q) = Returned (roleName th)
      /\ Js.lt (Js.Finite q) (max th) = true
      /\ forall t, In t before -> Js.lt (Js.Finite q) (max t) = false)
  /\ thresholdRoleName (Js.Finite q)
     = Returned (if Qlt_le_dec q 5000 then "zklHolder"
                 else if Qlt_le_dec q 10000 then "zkLDolphin 🐬"
                 else if Qlt_le_dec q 50000 then "zklShark 🦈"
                 else if Qlt_le_dec q 100000 then "zklWhale 🐋"
                 else "zklHumpback 🐳")
  /\ StronglySorted (fun a b => Js.lt (max a) (max b) = true) roleThresholds
  /\ thresholdRoleName (Js.Finite 4999) = Returned "zklHolder"
  /\ thresholdRoleName (Js.Finite 5000) = Returned "zkLDolphin 🐬"
  /\ thresholdRoleName (Js.Finite 9999) = Returned "zkLDolphin 🐬"
  /\ thresholdRoleName (Js.Finite 10000) = Returned "zklShark 🦈"
  /\ thresholdRoleName (Js.Finite 100000) = Returned "zklHumpback 🐳"
  /\ thresholdRoleName (Js.Finite 0) = Returned "zklHolder".
Proof.
  split; [|split; [|split; [|repeat split; reflexivity]]].
  2:{ unfold thresholdRoleName, roleThresholds. cbn [find max Js.lt].
      rewrite !Qltb_dec.
      destruct (Qlt_le_dec q 5000); [reflexivity|].
      destruct (Qlt_le_dec q 10000); [reflexivity|].
      destruct (Qlt_le_dec q 50000); [reflexivity|].
      destruct (Qlt_le_dec q 100000); reflexivity. }
  - unfold thresholdRoleName, roleThresholds.
    cbn [find max Js.lt].
    destruct (Js.Qltb q 5000) eqn:E1.
    { exists [], {| roleName := "zklHolder"; max := Js.Finite 5000 |}.
      eexists. repeat split; cbn [max Js.lt]; auto. intros t []. }
    destruct (Js.Qltb q 10000) eqn:E2.
    { exists [ {| roleName := "zklHolder"; max := Js.Finite 5000 |} ],
             {| roleName := "zkLDolphin 🐬"; max := Js.Finite 10000 |}.
      eexists. repeat split; cbn [max Js.lt]; auto.
      intros t [<-|[]]; exact E1. }
    destruct (Js.Qltb q 50000) eqn:E3.
    { exists [ {| roleName := "zklHolder"; max := Js.Finite 5000 |};
               {| roleName := "zkLDolphin 🐬"; max := Js.Finite 10000 |} ],
             {| roleName := "zklShark 🦈"; max := Js.Finite 50000 |}.
      eexists. repeat split; cbn [max Js.lt]; auto.
      intros t [<-|[<-|[]]]; assumption. }
    destruct (Js.Qltb q 100000) eqn:E4.
    { exists [ {| roleName := "zklHolder"; max := Js.Finite 5000 |};
               {| roleName := "zkLDolphin 🐬"; max := Js.Finite 10000 |};
               {| roleName := "zklShark 🦈"; max := Js.Finite 50000 |} ],
             {| roleName := "zklWhale 🐋"; max := Js.Finite 100000 |}.
      eexists. repeat split; cbn [max Js.lt]; auto.
      intros t [<-|[<-|[<-|[]]]]; assumption. }
    exists [ {| roleName := "zklHolder"; max := Js.Finite 5000 |};
             {| roleName := "zkLDolphin 🐬"; max := Js.Finite 10000 |};
             {| roleName := "zklShark 🦈"; max := Js.Finite 50000 |};
             {| roleName := "zklWhale 🐋"; max := Js.Finite 100000 |} ],
           {| roleName := "zklHumpback 🐳"; max := Js.PosInfinity |}.
    exists []. repeat split; cbn [max Js.lt]; auto.
    intros t [<-|[<-|[<-|[<-|[]]]]]; assumption.
  - unfold roleThresholds.
    repeat (apply SSorted_cons; [|repeat constructor]).
    apply SSorted_nil.
Qed.

(** ** Decimal strings of BigInts *)

Lemma digits_value_app (radix : Z) (s1 s2 : string) : forall acc,
  Js.digits_value radix (s1 ++ s2) acc =
  match Js.digits_value radix s1 acc with
  | Some v => Js.digits_value radix s2 v
  | None => None
  end.
Proof.
  induction s1 as [|c s1 IH]; intro acc; cbn [append Js.digits_value].
  - reflexivity.
  - destruct (Js.digit_of radix c); [apply IH | reflexivity].
Qed.

Lemma digit_char_cases (d : Z) : 0 <= d < 10 ->
  Js.digit_of 10 (Js.digit_char d) = Some d /\ Js.is_digit (Js.digit_char d) = true.
Proof.
  intro H.
  assert (C : d = 0 \/ d = 1 \/ d = 2 \/ d = 3 \/ d = 4 \/ d = 5 \/ d = 6
              \/ d = 7 \/ d = 8 \/ d = 9) by lia.
  repeat (destruct C as [-> | C]; [split; reflexivity|]).
  subst d. split; reflexivity.
Qed.

Lemma all_digits_app (s1 s2 : string) :
  Js.all_digits (s1 ++ s2) = Js.all_digits s1 && Js.all_digits s2.
Proof.
  induction s1 as [|c s1 IH]; cbn [append Js.all_digits]; [reflexivity|].
  now rewrite IH, andb_assoc.
Qed.

Lemma nonempty_app_r (s1 s2 : string) :
  Js.nonempty s2 = true -> Js.nonempty (s1 ++ s2) = true.
Proof. destruct s1; cbn; auto. Qed.

Lemma decimal_digits_spec (fuel : nat) : forall n,
  0 <= n < 2 ^ Z.of_nat (S fuel) ->
  Js.digits_value 10 (Js.decimal_digits (S fuel) n) 0 = Some n
  /\ Js.all_digits (Js.decimal_digits (S fuel) n) = true
  /\ Js.nonempty (Js.decimal_digits (S fuel) n) = true.
Proof.
  induction fuel as [|f IH]; intros n H.
  - change (2 ^ Z.of_nat 1) with 2 in H.
    assert (C : n = 0 \/ n = 1) by lia.
    destruct C as [-> | ->]; repeat split; reflexivity.
  - remember (S f) as g eqn:G.
    cbn [Js.decimal_digits].
    assert (D : 0 <= n mod 10 < 10) by (apply Z.mod_pos_bound; lia).
    destruct (digit_char_cases _ D) as [V A].
    destruct (n <? 10) eqn:L.
    + apply Z.ltb_lt in L. rewrite Z.mod_small in * by lia.
      cbn [append Js.digits_value Js.all_digits Js.nonempty].
      rewrite V, A. repeat split.
    + apply Z.ltb_ge in L.
      assert (B : 0 <= n / 10 < 2 ^ Z.of_nat g).
      { split; [apply Z.div_pos; lia|].
        apply Z.div_lt_upper_bound; [lia|].
        replace (Z.of_nat (S g)) with (Z.of_nat g + 1) in H by lia.
        rewrite Z.pow_add_r, Z.pow_1_r in H by lia. lia. }
      destruct (IH _ B) as (V' & A' & _).
      rewrite digits_value_app, V', all_digits_app, A'.
      cbn [Js.digits_value Js.all_digits]. rewrite V, A.
      repeat split.
      * f_equal. rewrite (Z.div_mod n 10) at 3 by lia. lia.
      * now apply nonempty_app_r.
Qed.

Lemma digits_fuel_enough (n : Z) : 0 <= n -> n < 2 ^ Z.of_nat (Js.digits_fuel n).
Proof.
  intro H. unfold Js.digits_fuel.
  destruct (Z.eq_dec n 0) as [-> | N]; [reflexivity|].
  rewrite Nat2Z.inj_succ, Z2Nat.id by apply Z.log2_nonneg.
  apply Z.log2_spec. lia.
Qed.

(** A string of visible ASCII characters has no white space to trim. *)
Lemma plain_head (c : ascii) :
  (33 <=? Js.code c) && (Js.code c <=? 126) = true ->
  Js.white1 (Js.code c) = false
  /\ (forall b, Js.white2 (Js.code c) b = false)
  /\ (forall b d, Js.white3 (Js.code c) b d = false).
Proof.
  intro H. apply andb_prop in H. destruct H as [L U].
  apply Z.leb_le in L. apply Z.leb_le in U.
  unfold Js.white1, Js.white2, Js.white3.
  assert (E : forall k, 126 < k \/ k < 33 -> (Js.code c =? k) = false)
    by (intros k K; apply Z.eqb_neq; lia).
  repeat split; intros; rewrite ?E by lia; cbn [andb orb];
    try reflexivity.
  destruct (9 <=? Js.code c); [|reflexivity].
  cbn [andb]. assert (G : (Js.code c <=? 13) = false) by (apply Z.leb_gt; lia).
  now rewrite G.
Qed.

Lemma trimStart_plain (c : ascii) (s : string) :
  (33 <=? Js.code c) && (Js.code c <=? 126) = true ->
  Js.trimStart (String c s) = String c s.
Proof.
  intro H. destruct (plain_head c H) as (W1 & W2 & W3).
  cbn [Js.trimStart]. rewrite W1.
  destruct s as [|b s]; [reflexivity|]. rewrite W2.
  destruct s as [|d s]; [reflexivity|]. now rewrite W3.
Qed.

Lemma blank_plain (c : ascii) (s : string) :
  (33 <=? Js.code c) && (Js.code c <=? 126) = true ->
  Js.blank (String c s) = false.
Proof.
  intro H. destruct (plain_head c H) as (W1 & W2 & W3).
  cbn [Js.blank]. rewrite W1.
  destruct s as [|b s]; [reflexivity|]. rewrite W2.
  destruct s as [|d s]; [reflexivity|]. now rewrite W3.
Qed.

Lemma trim_plain (s : string) : plain s = true -> Js.trim s = s.
Proof.
  unfold Js.trim. intro H.
  assert (S : Js.trimStart s = s).
  { destruct s as [|c s]; [reflexivity|]. cbn [plain] in H.
    apply andb_prop in H. destruct H as [H _]. now apply trimStart_plain. }
  rewrite S. clear S. induction s as [|c s IH]; [reflexivity|].
  cbn [plain] in H. apply andb_prop in H. destruct H as [Hc Hs].
  cbn [Js.trimEnd]. rewrite (blank_plain c s Hc). now rewrite (IH Hs).
Qed.

Lemma StringToBigInt_plain (s : string) :
  plain s = true -> Js.StringToBigInt s = Js.StrIntegerLiteral s.
Proof. intro H. unfold Js.StringToBigInt. now rewrite trim_plain. Qed.

Lemma all_digits_plain (s : string) : Js.all_digits s = true -> plain s = true.
Proof.
  induction s as [|c s IH]; [reflexivity|].
  cbn [Js.all_digits plain]. intro H. apply andb_prop in H. destruct H as [C S].
  rewrite (IH S). unfold Js.is_digit in C.
  apply andb_prop in C. destruct C as [L U].
  apply Z.leb_le in L. apply Z.leb_le in U.
  assert (A : (33 <=? Js.code c) = true) by (apply Z.leb_le; lia).
  assert (B : (Js.code c <=? 126) = true) by (apply Z.leb_le; lia).
  now rewrite A, B.
Qed.

(** A non-empty string of decimal digits is read as a decimal literal. *)
Lemma StringToBigInt_decimal (s : string) :
  Js.nonempty s = true -> Js.all_digits s = true ->
  Js.StringToBigInt s = Js.literal 10 s.
Proof.
  intros N D. rewrite (StringToBigInt_plain s (all_digits_plain s D)).
  revert N D.
  destruct s as [|c s]; [discriminate|]. intros _.
  cbn [Js.all_digits]. intro H. apply andb_prop in H. destruct H as [C S].
  destruct c as [[|] [|] [|] [|] [|] [|] [|] [|]];
    try discriminate C; try reflexivity.
  destruct s as [|c' s]; [reflexivity|].
  cbn [Js.all_digits] in S. apply andb_prop in S. destruct S as [C' _].
  destruct c' as [[|] [|] [|] [|] [|] [|] [|] [|]];
    try discriminate C'; reflexivity.
Qed.

(** Reading back what [toString(10)] wrote gives the same BigInt. *)
Lemma BigInt_toString_StringToBigInt (n : Z) : 0 <= n ->
  Js.StringToBigInt (Js.BigInt_toString n) = Some n.
Proof.
  intro H. unfold Js.BigInt_toString.
  destruct (n <? 0) eqn:L; [apply Z.ltb_lt in L; lia|].
  pose proof (digits_fuel_enough n H) as F. unfold Js.digits_fuel in *.
  destruct (decimal_digits_spec _ n (conj H F)) as (V & A & N).
  rewrite StringToBigInt_decimal by assumption.
  unfold Js.literal. now rewrite N.
Qed.

(** ** The RPC client and the balance oracle *)

Lemma rpcCall_result (to data : string) (w : World) (v : value) :
  node w to data = Responded {| body_error := None; body_result := v |} ->
  rpcCall to data w = (Returned v, record_call (EthCall to data) (faults w) w).
Proof.
  intro H. unfold rpcCall, try_catch, bind, axios_post. now rewrite H.
Qed.

Lemma rpcCall_error (to data reason : string) (w : World) (v : value) :
  node w to data = Responded {| body_error := Some reason; body_result := v |} ->
  rpcCall to data w =
  (Thrown (Error ("RPC request error: " ++ reason)),
   record_call (EthCall to data) (faults w) w).
Proof.
  intro H. unfold rpcCall, try_catch, bind, axios_post. now rewrite H.
Qed.

Lemma rpcCall_rejected (to data reason : string) (w : World) :
  node w to data = Rejected reason ->
  rpcCall to data w =
  (Thrown (Error ("RPC request error: " ++ reason)),
   record_call (EthCall to data) (faults w) w).
Proof.
  intro H. unfold rpcCall, try_catch, bind, axios_post. now rewrite H.
Qed.

(** C2, the claim fails in its example: with the raw balance
    123456789012345678901234567890 and 18 decimals the oracle returns
    "123456789012", not "123". *)
Lemma large_balance_example_is_not_123 :
  fst (getTokenBalance erc20Encode holder1 tokenContractAddress large_balance_world)
  = Returned {| balance := "123456789012"; symbol := Js.ascii_text "ZKL" |}
  /\ Js.StringToBigInt "0x18ee90ff6c373e0ee4e3f0ad2" = Some 123456789012345678901234567890
  /\ Js.StringToBigInt "0x12" = Some 18
  /\ "123456789012" <> "123".
Proof. vm_compute. repeat split. discriminate. Qed.

Section Oracle.

Variable simpleEncode : string -> list string -> outcome (list byte).

(** C2, amended. When the node answers the balance query with a raw result
    that reads as the unsigned integer [b] and the decimals query with one
    that reads as [d], the balance returned by the oracle is the decimal
    writing of [floor (b / 10^d)], computed on unbounded integers; read
    back, that string is exactly [floor (b / 10^d)].  For
    [b = 123456789012345678901234567890], which 64 bits cannot hold, and
    [d = 18] this is 123456789012. *)
Theorem normalized_balance_is_floor
    (userAddr tokenAddr balanceData decimalsData symbolData : string)
    (hexBalance hexDecimals hexSymbol : string) (b d : Z) (w : World) :
  encodeFunctionCall simpleEncode BALANCE_OF_SIGNATURE [userAddr] = Returned balanceData ->
  encodeFunctionCall simpleEncode DECIMALS_SIGNATURE [] = Returned decimalsData ->
  encodeFunctionCall simpleEncode SYMBOL_SIGNATURE [] = Returned symbolData ->
  node w tokenAddr balanceData =
    Responded {| body_error := None; body_result := VString hexBalance |} ->
  node w tokenAddr decimalsData =
    Responded {| body_error := None; body_result := VString hexDecimals |} ->
  node w tokenAddr symbolData =
    Responded {| body_error := None; body_result := VString hexSymbol |} ->
  Js.StringToBigInt hexBalance = Some b -> 0 <= b ->
  Js.StringToBigInt hexDecimals = Some d -> 0 <= d ->
  exists token,
    fst (getTokenBalance simpleEncode userAddr tokenAddr w) = Returned token
    /\ balance token = Js.BigInt_toString (b / 10 ^ d)
    /\ Js.StringToBigInt (balance token) = Some (b / 10 ^ d)
    /\ decodeHexToString (VString hexSymbol) = Returned (symbol token)
    /\ Js.BigInt_toString (123456789012345678901234567890 / 10 ^ 18) = "123456789012".
Proof.
  intros Eb Ed Es Nb Nd Ns Pb Hb Pd Hd.
  assert (Q : 0 <= b / 10 ^ d) by (apply Z.div_pos; [assumption|apply Z.pow_pos_nonneg; lia]).
  eexists. split; [|split; [|split; [|split; [|vm_compute; reflexivity]]]].
  - unfold getTokenBalance, try_catch, bind, lift.
    rewrite Eb. erewrite rpcCall_result by exact Nb.
    rewrite Ed. erewrite rpcCall_result by exact Nd.
    rewrite Es. erewrite rpcCall_result by exact Ns.
    unfold decodeHexToDecimal. cbn [Js.BigInt obind decodeHexToString].
    rewrite Pb, Pd. cbn [obind]. rewrite (BigInt_toString_StringToBigInt d Hd).
    unfold Js.BigInt_pow, Js.BigInt_div.
    destruct (d <? 0) eqn:L; [apply Z.ltb_lt in L; lia|].
    destruct (10 ^ d =? 0) eqn:Z0.
    { apply Z.eqb_eq in Z0. pose proof (Z.pow_pos_nonneg 10 d). lia. }
    cbn [fst ret]. reflexivity.
  - cbn [balance]. rewrite Z.quot_div_nonneg; [reflexivity|assumption|].
    apply Z.pow_pos_nonneg; lia.
  - cbn [balance]. rewrite Z.quot_div_nonneg; [|assumption|apply Z.pow_pos_nonneg; lia].
    now apply BigInt_toString_StringToBigInt.
  - reflexivity.
Qed.

End Oracle.

(** ** The text decoder *)

Lemma remove_controls_remove_nul (t : Js.text) :
  Js.remove_controls (Js.remove_nul t) = Js.remove_controls t.
Proof.
  unfold Js.remove_controls, Js.remove_nul.
  induction t as [|u t IH]; [reflexivity|].
  cbn [filter]. destruct (u =? 0) eqn:E; cbn [negb].
  - apply Z.eqb_eq in E. subst u. cbn. exact IH.
  - cbn [filter]. now rewrite IH.
Qed.

Lemma remove_controls_clean (t : Js.text) :
  Forall (fun u => u <> 0 /\ Js.is_control u = false) (Js.remove_controls t).
Proof.
  apply Forall_forall. intros u I. unfold Js.remove_controls in I.
  apply filter_In in I. destruct I as [_ C]. apply negb_true_iff in C.
  split; [|exact C]. intros ->. discriminate C.
Qed.

Lemma digit_of_hex_not_x (c : ascii) (v : Z) :
  Js.digit_of 16 c = Some v -> c <> "x"%char.
Proof. intros H ->. discriminate H. Qed.

Lemma hex_bytes_Buffer_from_hex : forall (n : nat) (s : string) (bs : list byte),
  (String.length s <= n)%nat -> hex_bytes s = Some bs -> Js.Buffer_from_hex s = bs.
Proof.
  induction n as [|n IH]; intros s bs L H.
  - destruct s; [|cbn in L; lia]. cbn in H. now injection H as <-.
  - destruct s as [|h [|l s]]; cbn [hex_bytes] in H.
    + now injection H as <-.
    + discriminate.
    + cbn [Js.Buffer_from_hex].
      destruct (Js.digit_of 16 h); [|discriminate].
      destruct (Js.digit_of 16 l); [|discriminate].
      destruct (hex_bytes s) as [bs'|] eqn:E; [|discriminate].
      injection H as <-. f_equal. apply (IH s bs'); [cbn in L; lia|exact E].
Qed.

Lemma hex_bytes_no_prefix (s : string) (bs : list byte) :
  hex_bytes s = Some bs -> Js.startsWith s "0x" = false.
Proof.
  destruct s as [|h [|l s]]; intro H; [reflexivity|discriminate H|].
  cbn [hex_bytes] in H.
  destruct (Js.digit_of 16 h); [|discriminate].
  destruct (Js.digit_of 16 l) eqn:E; [|discriminate].
  apply digit_of_hex_not_x in E.
  unfold Js.startsWith. cbn [String.prefix].
  destruct (ascii_dec "0" h); [|reflexivity].
  destruct (ascii_dec "x" l); [congruence|reflexivity].
Qed.

Lemma hex_of_byte_bytes (b : byte) : hex_bytes (Js.hex_of_byte b) = Some [b].
Proof. destruct b; reflexivity. Qed.

(** Writing bytes in hex and reading them back is the identity. *)
Lemma Buffer_toString_hex_bytes (bs : list byte) :
  hex_bytes (Js.Buffer_toString_hex bs) = Some bs.
Proof.
  induction bs as [|b bs IH]; [reflexivity|].
  cbn [Js.Buffer_toString_hex].
  pose proof (hex_of_byte_bytes b) as H. unfold Js.hex_of_byte in *.
  cbn [append hex_bytes] in *.
  destruct (Js.digit_of 16 _) as [hi|]; [|discriminate].
  destruct (Js.digit_of 16 _) as [lo|]; [|discriminate].
  rewrite IH. assert (E : Js.byte_of (16 * hi + lo) = b) by congruence.
  now rewrite E.
Qed.

Lemma Buffer_from_hex_padding (n : nat) :
  Js.Buffer_from_hex (zero_padding n) = repeat x00 n.
Proof.
  induction n as [|n IH]; [reflexivity|].
  cbn [zero_padding repeat Js.Buffer_from_hex]. now rewrite IH.
Qed.

Lemma decode_padding (n : nat) :
  Js.remove_controls (Js.decode Js.idle (repeat x00 n)) = [].
Proof.
  induction n as [|n IH]; [reflexivity|].
  cbn [repeat Js.decode]. exact IH.
Qed.

Lemma decode_cons_idle (b : byte) (bs : list byte) :
  Js.decode Js.idle (b :: bs) =
  (snd (Js.lead (Js.byte_value b)) ++ Js.decode (fst (Js.lead (Js.byte_value b))) bs)%list.
Proof.
  cbn [Js.decode]. unfold Js.step. cbn [Js.bytes_needed Js.idle Z.eqb].
  now destruct (Js.lead (Js.byte_value b)).
Qed.

Lemma decode_cons_broken (d : Js.decoder) (b : byte) (bs : list byte) :
  (Js.bytes_needed d =? 0) = false ->
  (Js.lower d <=? Js.byte_value b) && (Js.byte_value b <=? Js.upper d) = false ->
  In Js.REPLACEMENT (Js.decode d (b :: bs)).
Proof.
  intros N R. cbn [Js.decode]. unfold Js.step. rewrite N, R.
  destruct (Js.lead (Js.byte_value b)). left. reflexivity.
Qed.

Lemma decode_nil_pending (d : Js.decoder) :
  (Js.bytes_needed d =? 0) = false -> In Js.REPLACEMENT (Js.decode d []).
Proof. intro N. cbn [Js.decode]. rewrite N. left. reflexivity. Qed.

Lemma decode_cons_continue (d : Js.decoder) (b : byte) (bs : list byte) :
  (Js.bytes_needed d =? 0) = false ->
  (Js.lower d <=? Js.byte_value b) && (Js.byte_value b <=? Js.upper d) = true ->
  Js.decode d (b :: bs) =
  if Js.bytes_seen d + 1 =? Js.bytes_needed d
  then (Js.utf16 (Z.lor (Z.shiftl (Js.code_point d) 6) (Z.land (Js.byte_value b) 0x3F))
          ++ Js.decode Js.idle bs)%list
  else Js.decode {| Js.code_point := Z.lor (Z.shiftl (Js.code_point d) 6) (Z.land (Js.byte_value b) 0x3F);
                    Js.bytes_seen := Js.bytes_seen d + 1;
                    Js.bytes_needed := Js.bytes_needed d;
                    Js.lower := 0x80; Js.upper := 0xBF |} bs.
Proof.
  intros N R. cbn [Js.decode]. unfold Js.step. rewrite N, R.
  destruct (Js.bytes_seen d + 1 =? Js.bytes_needed d); reflexivity.
Qed.

Lemma ill_formed_replaced : forall (n : nat) (bs : list byte),
  (length bs <= n)%nat ->
  well_formed_utf8 (map Js.byte_value bs) = false ->
  In Js.REPLACEMENT (Js.decode Js.idle bs).
Proof.
  induction n as [|n IH]; intros bs L H.
  { destruct bs; [discriminate H|cbn in L; lia]. }
  destruct bs as [|b0 r0]; [discriminate H|].
  cbn [length] in L. rewrite decode_cons_idle.
  cbn [map well_formed_utf8] in H. unfold Js.lead, between in *.
  set (z0 := Js.byte_value b0) in *.
  destruct (z0 <=? 127) eqn:A.
  { cbn [fst snd]. apply in_or_app. right. apply IH; [lia|exact H]. }
  destruct ((194 <=? z0) && (z0 <=? 223)) eqn:B2.
  { cbn [fst snd app].
    destruct r0 as [|b1 r1]; [now apply decode_nil_pending|].
    cbn [map andb] in H. set (z1 := Js.byte_value b1) in *.
    destruct ((128 <=? z1) && (z1 <=? 191)) eqn:C1.
    - rewrite decode_cons_continue by (try reflexivity; exact C1).
      cbn [Js.bytes_seen Js.bytes_needed Z.add Z.eqb Pos.eqb].
      apply in_or_app. right. apply IH; [cbn in L; lia|exact H].
    - apply decode_cons_broken; [reflexivity|exact C1]. }
  destruct ((224 <=? z0) && (z0 <=? 239)) eqn:B3.
  { cbn [fst snd app].
    destruct r0 as [|b1 r1]; [now apply decode_nil_pending|].
    cbn [map andb] in H. set (z1 := Js.byte_value b1) in *.
    destruct (((if z0 =? 224 then 160 else 128) <=? z1)
              && (z1 <=? (if z0 =? 237 then 159 else 191))) eqn:C1.
    - rewrite decode_cons_continue by (try reflexivity; exact C1).
      cbn [Js.bytes_seen Js.bytes_needed Z.add Z.eqb Pos.eqb].
      destruct r1 as [|b2 r2]; [now apply decode_nil_pending|].
      cbn [map andb] in H. set (z2 := Js.byte_value b2) in *.
      destruct ((128 <=? z2) && (z2 <=? 191)) eqn:C2.
      + rewrite decode_cons_continue by (try reflexivity; exact C2).
        cbn [Js.bytes_seen Js.bytes_needed Z.add Z.eqb Pos.eqb Pos.add].
        apply in_or_app. right. apply IH; [cbn in L; lia|exact H].
      + apply decode_cons_broken; [reflexivity|exact C2].
    - apply decode_cons_broken; [reflexivity|exact C1]. }
  destruct ((240 <=? z0) && (z0 <=? 244)) eqn:B4.
  { cbn [fst snd app].
    destruct r0 as [|b1 r1]; [now apply decode_nil_pending|].
    cbn [map andb] in H. set (z1 := Js.byte_value b1) in *.
    destruct (((if z0 =? 240 then 144 else 128) <=? z1)
              && (z1 <=? (if z0 =? 244 then 143 else 191))) eqn:C1.
    - rewrite decode_cons_continue by (try reflexivity; exact C1).
      cbn [Js.bytes_seen Js.bytes_needed Z.add Z.eqb Pos.eqb].
      destruct r1 as [|b2 r2]; [now apply decode_nil_pending|].
      cbn [map andb] in H. set (z2 := Js.byte_value b2) in *.
      destruct ((128 <=? z2) && (z2 <=? 191)) eqn:C2.
      + rewrite decode_cons_continue by (try reflexivity; exact C2).
        cbn [Js.bytes_seen Js.bytes_needed Z.add Z.eqb Pos.eqb Pos.add].
        destruct r2 as [|b3 r3]; [now apply decode_nil_pending|].
        cbn [map andb] in H. set (z3 := Js.byte_value b3) in *.
        destruct ((128 <=? z3) && (z3 <=? 191)) eqn:C3.
        * rewrite decode_cons_continue by (try reflexivity; exact C3).
          cbn [Js.bytes_seen Js.bytes_needed Z.add Z.eqb Pos.eqb Pos.add Pos.succ].
          apply in_or_app. right. apply IH; [cbn in L; lia|exact H].
        * apply decode_cons_broken; [reflexivity|exact C3].
      + apply decode_cons_broken; [reflexivity|exact C2].
    - apply decode_cons_broken; [reflexivity|exact C1]. }
  cbn [fst snd]. left. reflexivity.
Qed.

Lemma decodeHexToString_string (s : string) :
  decodeHexToString (VString s) =
  Returned (Js.remove_controls
              (Js.Buffer_toString_utf8
                 (Js.Buffer_from_hex (if Js.startsWith s "0x" then Js.slice 2 s else s)))).
Proof. cbn [decodeHexToString]. now rewrite remove_controls_remove_nul. Qed.

Lemma startsWith_0x (s : string) : Js.startsWith (String "0" (String "x" s)) "0x" = true.
Proof. unfold Js.startsWith. cbn. now destruct s. Qed.

Lemma decodeHexToString_prefixed (s : string) (bs : list byte) :
  hex_bytes s = Some bs ->
  decodeHexToString (VString ("0x" ++ s))
  = Returned (Js.remove_controls (Js.Buffer_toString_utf8 bs)).
Proof.
  intro H. rewrite decodeHexToString_string. cbn [append]. rewrite startsWith_0x.
  cbn [Js.slice]. now rewrite (hex_bytes_Buffer_from_hex _ s bs (le_n _) H).
Qed.

Lemma decodeHexToString_bare (s : string) (bs : list byte) :
  hex_bytes s = Some bs ->
  decodeHexToString (VString s)
  = Returned (Js.remove_controls (Js.Buffer_toString_utf8 bs)).
Proof.
  intro H. rewrite decodeHexToString_string, (hex_bytes_no_prefix s bs H).
  now rewrite (hex_bytes_Buffer_from_hex _ s bs (le_n _) H).
Qed.

Lemma decodeHexToString_padded_symbol (n : nat) :
  decodeHexToString (VString ("0x5a4b4c" ++ zero_padding n))
  = Returned (Js.ascii_text "ZKL").
Proof.
  rewrite decodeHexToString_string. cbn [append]. rewrite startsWith_0x.
  cbn [Js.slice Js.Buffer_from_hex]. rewrite Buffer_from_hex_padding.
  change (Js.digit_of 16 "5") with (Some 5).
  change (Js.digit_of 16 "a") with (Some 10).
  change (Js.digit_of 16 "4") with (Some 4).
  change (Js.digit_of 16 "b") with (Some 11).
  change (Js.digit_of 16 "c") with (Some 12).
  cbv iota beta.
  change (Js.byte_of (16 * 5 + 10)) with x5a.
  change (Js.byte_of (16 * 4 + 11)) with x4b.
  change (Js.byte_of (16 * 4 + 12)) with x4c.
  unfold Js.Buffer_toString_utf8.
  rewrite !decode_cons_idle.
  change (Js.lead (Js.byte_value x5a)) with (Js.idle, [90]).
  change (Js.lead (Js.byte_value x4b)) with (Js.idle, [75]).
  change (Js.lead (Js.byte_value x4c)) with (Js.idle, [76]).
  cbn [fst snd app].
  change (Js.remove_controls (90 :: 75 :: 76 :: Js.decode Js.idle (repeat x00 n)))
    with (90 :: 75 :: 76 :: Js.remove_controls (Js.decode Js.idle (repeat x00 n))).
  now rewrite decode_padding.
Qed.

(** C8. For every well-formed hex raw result, with or without the [0x]
    prefix, the text decoder returns the UTF-8 decoding of the bytes the
    hex digits write, without its NUL and C0/DEL control characters; so
    [0x5a4b4c] followed by any zero padding decodes to exactly "ZKL". *)
Theorem decodeHexToString_well_formed_hex (s : string) (bs : list byte) :
  hex_bytes s = Some bs ->
  decodeHexToString (VString ("0x" ++ s))
    = Returned (Js.remove_controls (Js.Buffer_toString_utf8 bs))
  /\ decodeHexToString (VString s)
    = Returned (Js.remove_controls (Js.Buffer_toString_utf8 bs))
  /\ Forall (fun u => u <> 0 /\ Js.is_control u = false)
            (Js.remove_controls (Js.Buffer_toString_utf8 bs))
  /\ forall n, decodeHexToString (VString ("0x5a4b4c" ++ zero_padding n))
               = Returned (Js.ascii_text "ZKL").
Proof.
  intro H. split; [|split; [|split]].
  - now apply decodeHexToString_prefixed.
  - now apply decodeHexToString_bare.
  - apply remove_controls_clean.
  - exact decodeHexToString_padded_symbol.
Qed.

(** C6, the claim fails: the bytes of [0xff] are not well-formed UTF-8,
    yet the decoder answers the one-character text U+FFFD, not the empty
    string. *)
Lemma invalid_bytes_decode_to_replacement :
  well_formed_utf8 (map Js.byte_value (Js.Buffer_from_hex "ff")) = false
  /\ decodeHexToString (VString "0xff") = Returned [Js.REPLACEMENT]
  /\ decodeHexToString (VString "0xff") <> Returned [].
Proof. repeat split; try reflexivity. discriminate. Qed.

(** C6, amended. On every string the text decoder returns a text and does
    not raise; for the empty result it returns the empty text; when the
    bytes of a well-formed hex result are not well-formed UTF-8, the text
    it returns contains U+FFFD, so it is not empty. *)
Theorem decodeHexToString_never_raises (s : string) :
  (exists t, decodeHexToString (VString s) = Returned t)
  /\ decodeHexToString (VString "0x") = Returned []
  /\ decodeHexToString (VString "") = Returned []
  /\ forall bs, hex_bytes s = Some bs ->
       well_formed_utf8 (map Js.byte_value bs) = false ->
       exists t, decodeHexToString (VString ("0x" ++ s)) = Returned t
                 /\ In Js.REPLACEMENT t /\ t <> [].
Proof.
  split; [eexists; reflexivity|]. split; [reflexivity|]. split; [reflexivity|].
  intros bs H W.
  eexists. split; [exact (decodeHexToString_prefixed s bs H)|].
  assert (I : In Js.REPLACEMENT (Js.remove_controls (Js.Buffer_toString_utf8 bs))).
  { unfold Js.remove_controls. apply filter_In. split; [|reflexivity].
    exact (ill_formed_replaced _ bs (le_n _) W). }
  split; [exact I|]. intro N. rewrite N in I. exact I.
Qed.

Lemma decodeHexToString_never_raises_witness :
  exists t, decodeHexToString (VString ("0x" ++ "ff")) = Returned t
            /\ In Js.REPLACEMENT t /\ t <> [].
Proof.
  destruct (decodeHexToString_never_raises "ff") as (_ & _ & _ & H).
  apply (H [xff]); reflexivity.
Defined.

Lemma decodeHexToString_well_formed_hex_witness :
  hex_bytes "5a4b4c0000" = Some [x5a; x4b; x4c; x00; x00]
  /\ decodeHexToString (VString ("0x" ++ "5a4b4c0000")) = Returned (Js.ascii_text "ZKL").
Proof.
  split; [reflexivity|].
  exact (proj1 (decodeHexToString_well_formed_hex "5a4b4c0000"
                  [x5a; x4b; x4c; x00; x00] eq_refl)).
Defined.

(** ** Structurally invalid responses *)

Lemma rpcCall_cases (to data : string) (w : World) :
  (exists v, node w to data = Responded {| body_error := None; body_result := v |}
             /\ rpcCall to data w = (Returned v, record_call (EthCall to data) (faults w) w))
  \/ (exists reason, rpcCall to data w =
        (Thrown (Error ("RPC request error: " ++ reason)),
         record_call (EthCall to data) (faults w) w)).
Proof.
  destruct (node w to data) as [reason|[[reason|] v]] eqn:N.
  - right. exists reason. now apply rpcCall_rejected.
  - right. exists reason. now apply (rpcCall_error _ _ _ _ v).
  - left. exists v. split; [reflexivity|]. now apply rpcCall_result.
Qed.

(** C5, the claim fails: on a response with neither [error] nor [result]
    the RPC client returns [undefined]; it does not throw. *)
Lemma missing_result_is_returned :
  node (empty_world silent_node) tokenContractAddress "0x313ce567"
    = Responded {| body_error := None; body_result := VUndefined |}
  /\ fst (rpcCall tokenContractAddress "0x313ce567" (empty_world silent_node))
     = Returned VUndefined
  /\ forall e, fst (rpcCall tokenContractAddress "0x313ce567" (empty_world silent_node))
               <> Thrown e.
Proof. repeat split. discriminate. Qed.

Section MissingResult.

Variable simpleEncode : string -> list string -> outcome (list byte).

(** C5, amended. On a response with neither an error object nor a result
    field the RPC client does not fail: it returns the absent result
    ([undefined]) to its caller.  The failure comes from the balance
    oracle: when the answer to one of its three calls is such a response,
    it fails with a "Token information retrieval error". *)
Theorem rpcCall_returns_missing_result
    (userAddr tokenAddr balanceData decimalsData symbolData data : string)
    (w : World) :
  encodeFunctionCall simpleEncode BALANCE_OF_SIGNATURE [userAddr] = Returned balanceData ->
  encodeFunctionCall simpleEncode DECIMALS_SIGNATURE [] = Returned decimalsData ->
  encodeFunctionCall simpleEncode SYMBOL_SIGNATURE [] = Returned symbolData ->
  In data [balanceData; decimalsData; symbolData] ->
  node w tokenAddr data = Responded {| body_error := None; body_result := VUndefined |} ->
  fst (rpcCall tokenAddr data w) = Returned VUndefined
  /\ exists reason,
       fst (getTokenBalance simpleEncode userAddr tokenAddr w)
       = Thrown (Error ("Token information retrieval error: " ++ reason)).
Proof.
  intros Eb Ed Es I N. split.
  { now rewrite (rpcCall_result _ _ _ _ N). }
  unfold getTokenBalance, try_catch, bind, lift. rewrite Eb.
  destruct (rpcCall_cases tokenAddr balanceData w) as [[v1 [N1 R]]|[r R]];
    rewrite R; [|eexists; reflexivity].
  clear R. rewrite Ed.
  match goal with |- context [rpcCall tokenAddr decimalsData ?w'] =>
    destruct (rpcCall_cases tokenAddr decimalsData w') as [[v2 [N2 R]]|[r R]];
      rewrite R; [|eexists; reflexivity] end.
  clear R. rewrite Es.
  match goal with |- context [rpcCall tokenAddr symbolData ?w'] =>
    destruct (rpcCall_cases tokenAddr symbolData w') as [[v3 [N3 R]]|[r R]];
      rewrite R; [|eexists; reflexivity] end.
  clear R.
  cbn [node record_call] in N2, N3.
  assert (U : v1 = VUndefined \/ v2 = VUndefined \/ v3 = VUndefined).
  { destruct I as [<- | [<- | [<- | []]]]; [left|right; left|right; right]; congruence. }
  destruct (decodeHexToDecimal v1) as [d1|e1] eqn:D1; [|eexists; reflexivity].
  destruct (decodeHexToDecimal v2) as [d2|e2] eqn:D2; [|eexists; reflexivity].
  destruct (decodeHexToString v3) as [t3|e3] eqn:D3; [|eexists; reflexivity].
  exfalso. destruct U as [-> | [-> | ->]]; discriminate.
Qed.

End MissingResult.

(** ** Identity resolution *)

Lemma last_char_snoc (s : string) (c : ascii) :
  Js.last_char (s ++ String c EmptyString) = Some c.
Proof.
  induction s as [|a s IH]; [reflexivity|].
  cbn [append Js.last_char]. rewrite IH.
  destruct s; reflexivity.
Qed.

Lemma drop_last_snoc (s : string) (c : ascii) :
  Js.drop_last (s ++ String c EmptyString) = s.
Proof.
  induction s as [|a s IH]; [reflexivity|].
  cbn [append Js.drop_last]. rewrite IH.
  destruct s; reflexivity.
Qed.

Lemma digits_head (ds : string) :
  Js.test_digits ds = true ->
  exists c r, ds = String c r /\ Js.is_digit c = true.
Proof.
  destruct ds as [|c r]; [discriminate|].
  unfold Js.test_digits. cbn [Js.nonempty Js.all_digits andb].
  intro H. apply andb_prop in H. exists c, r. now split.
Qed.

Lemma digit_not_bang (c : ascii) :
  Js.is_digit c = true -> c <> "!"%char /\ c <> "<"%char.
Proof. intro H. split; intros ->; discriminate H. Qed.

Lemma match_mention_plain (ds : string) :
  Js.test_digits ds = true -> Js.match_mention ("<@" ++ ds ++ ">") = Some ds.
Proof.
  intro H. destruct (digits_head ds H) as (c & r & -> & D).
  destruct (digit_not_bang c D) as [B _].
  unfold Js.match_mention. cbn [append]. change (Js.startsWith _ "<@") with true.
  cbn [Js.slice].
  assert (S : Js.startsWith (String c (r ++ ">")) "!" = false).
  { unfold Js.startsWith. cbn [String.prefix].
    destruct (ascii_dec "!" c); [congruence|reflexivity]. }
  rewrite S.
  change (String c (r ++ ">")) with (String c r ++ ">").
  now rewrite last_char_snoc, drop_last_snoc, H.
Qed.

Lemma match_mention_nick (ds : string) :
  Js.test_digits ds = true -> Js.match_mention ("<@!" ++ ds ++ ">") = Some ds.
Proof.
  intro H. destruct (digits_head ds H) as (c & r & -> & D).
  unfold Js.match_mention. cbn [append].
  change (Js.startsWith _ "<@") with true. cbn [Js.slice].
  change (Js.startsWith (String "!" (String c (r ++ ">"))) "!") with true.
  cbn [Js.slice].
  change (String c (r ++ ">")) with (String c r ++ ">").
  now rewrite last_char_snoc, drop_last_snoc, H.
Qed.

Lemma match_mention_digits (ds : string) :
  Js.test_digits ds = true -> Js.match_mention ds = None.
Proof.
  intro H. destruct (digits_head ds H) as (c & r & -> & D).
  destruct (digit_not_bang c D) as [_ B].
  unfold Js.match_mention, Js.startsWith. cbn [String.prefix].
  destruct (ascii_dec "<" c); [congruence|reflexivity].
Qed.

Lemma find_pointwise {A} (f g : A -> bool) (l : list A) :
  (forall x, f x = g x) -> find f l = find g l.
Proof.
  intro E. induction l as [|x l IH]; [reflexivity|].
  cbn [find]. now rewrite E, IH.
Qed.

Lemma find_all_false {A} (f : A -> bool) (l : list A) :
  (forall x, In x l -> f x = false) -> find f l = None.
Proof.
  induction l as [|x l IH]; intro H; [reflexivity|].
  cbn [find]. rewrite (H x) by now left.
  apply IH. intros y I. apply H. now right.
Qed.

Lemma members_fetch_all_served (w : World) :
  served w = true ->
  Discord.members_fetch_all w =
  (Returned (guild_members w), record_call MembersFetchAll (tl (faults w)) w).
Proof.
  unfold served, Discord.members_fetch_all, bind, Discord.request.
  destruct (faults w) as [|[|] fs]; [reflexivity|discriminate|reflexivity].
Qed.


Section Identity.

Variable toLowerCase : string -> string.

(** C10. An input in mention syntax, [<@digits>] or [<@!digits>], resolves
    to the digits it wraps and sends no request at all, whereas the same
    digits given bare are resolved by fetching the member: the answer is
    the identifier when the fetch succeeds and "not found" when it fails.
    So the mention of somebody who is not a member resolves to that
    identifier, and the bare identifier to "not found". *)
Theorem mention_resolves_without_lookup (ds : string) (w : World) :
  Js.test_digits ds = true ->
  resolveUserId toLowerCase ("<@" ++ ds ++ ">") w = (Returned (Some ds), w)
  /\ resolveUserId toLowerCase ("<@!" ++ ds ++ ">") w = (Returned (Some ds), w)
  /\ calls (snd (resolveUserId toLowerCase ds w)) = (calls w ++ [MembersFetch ds])%list
  /\ fst (resolveUserId toLowerCase ds w)
     = match fst (Discord.members_fetch ds w) with
       | Returned _ => Returned (Some ds)
       | Thrown _ => Returned None
       end
  /\ (Discord.find_member ds (guild_members w) = None ->
      fst (resolveUserId toLowerCase ds w) = Returned None).
Proof.
  intro H. split; [|split].
  - unfold resolveUserId. now rewrite (match_mention_plain ds H).
  - unfold resolveUserId. now rewrite (match_mention_nick ds H).
  - unfold resolveUserId. rewrite (match_mention_digits ds H), H.
    unfold Discord.members_fetch, Discord.request. unfold try_catch, bind, ret.
    destruct (faults w) as [|[|] fs]; cbn [guild_members record_call];
      destruct (Discord.find_member ds (guild_members w));
      (split; [reflexivity|split; [reflexivity|]]);
      intro N; solve [reflexivity | discriminate N].
Qed.

(** C7, amended. For an input that is neither a mention nor a string of
    digits, once the membership listing is fetched, identity resolution
    returns the identifier of the first member of the listing that matches
    the input, and "not found" when no member matches; with several
    matching members it returns the first of them.  It throws only when
    the listing cannot be fetched. *)
Theorem name_lookup_returns_first_match (input : string) (w : World) :
  Js.match_mention input = None ->
  Js.test_digits input = false ->
  (served w = true ->
   fst (resolveUserId toLowerCase input w)
   = Returned (option_map member_id
                 (find (matches_input toLowerCase input) (guild_members w))))
  /\ (served w = true ->
      (forall m, In m (guild_members w) -> matches_input toLowerCase input m = false) ->
      fst (resolveUserId toLowerCase input w) = Returned None)
  /\ (forall e, fst (resolveUserId toLowerCase input w) = Thrown e -> served w = false).
Proof.
  intros Hm Hd.
  assert (G : served w = true ->
              fst (resolveUserId toLowerCase input w)
              = Returned (option_map member_id
                            (find (matches_input toLowerCase input) (guild_members w)))).
  { intro S. unfold resolveUserId, matches_input. rewrite Hm, Hd.
    destruct (Js.split "#" input) as [|name rest]; cbn [nth_error].
    { now rewrite find_all_false. }
    destruct name as [|c name].
    { cbn [Js.nonempty andb]. now rewrite find_all_false. }
    unfold bind. rewrite (members_fetch_all_served w S).
    cbn [Js.nonempty andb].
    destruct rest as [|d rest]; cbn [nth_error].
    - cbn [ret fst]. f_equal. f_equal. apply find_pointwise.
      intro m. now rewrite andb_true_r.
    - destruct d as [|c' d]; cbn [Js.nonempty ret fst].
      + f_equal. f_equal. apply find_pointwise. intro m. now rewrite andb_true_r.
      + reflexivity. }
  split; [exact G|]. split.
  - intros S A. rewrite (G S). now rewrite find_all_false.
  - intros e T. destruct (served w) eqn:S; [|reflexivity].
    rewrite (G eq_refl) in T. discriminate T.
Qed.

End Identity.

(** C7, the claim fails: two members of the sample guild are named bob,
    and the input "bob" resolves to the first of them, not to "not found". *)
Lemma ambiguous_name_resolves_to_first_match :
  map member_id (filter (matches_input asciiToLowerCase "bob")
                        (guild_members sample_world)) = ["102"; "103"]
  /\ fst (resolveUserId asciiToLowerCase "bob" sample_world) = Returned (Some "102")
  /\ fst (resolveUserId asciiToLowerCase "bob" sample_world) <> Returned None.
Proof. repeat split. discriminate. Qed.

(** ** Roles of a guild and of a member *)

Lemma find_role_some (i : Z) (rs : list Role) (r : Role) :
  Discord.find_role i rs = Some r -> role_id r = i /\ In r rs.
Proof.
  unfold Discord.find_role. intro H. apply find_some in H.
  destruct H as [I E]. apply Z.eqb_eq in E. now split.
Qed.

Lemma find_role_known (i : Z) (rs extra : list Role) :
  existsb (fun r => role_id r =? i) rs = true ->
  Discord.find_role i (rs ++ extra) = Discord.find_role i rs.
Proof.
  unfold Discord.find_role. induction rs as [|x rs IH]; [discriminate|].
  cbn [existsb app find]. destruct (role_id x =? i); [reflexivity|].
  cbn [orb]. exact IH.
Qed.


Lemma find_role_new (rs : list Role) (r : Role) :
  (forall x, In x rs -> role_id x <> role_id r) ->
  Discord.find_role (role_id r) (rs ++ [r]) = Some r.
Proof.
  unfold Discord.find_role. induction rs as [|x rs IH]; intro H.
  - cbn [app find]. now rewrite Z.eqb_refl.
  - cbn [app find]. destruct (role_id x =? role_id r) eqn:E.
    + apply Z.eqb_eq in E. exfalso. apply (H x); [now left|exact E].
    + apply IH. intros y I. apply H. now right.
Qed.

Lemma find_role_distinct (rs : list Role) (r : Role) :
  distinct (map role_id rs) = true -> In r rs ->
  Discord.find_role (role_id r) rs = Some r.
Proof.
  unfold Discord.find_role. induction rs as [|x rs IH]; intros D I; [destruct I|].
  cbn [map distinct] in D. apply andb_prop in D. destruct D as [N D].
  cbn [find]. destruct I as [-> | I].
  - now rewrite Z.eqb_refl.
  - destruct (role_id x =? role_id r) eqn:E; [|now apply IH].
    exfalso. apply negb_true_iff in N.
    assert (T : existsb (Z.eqb (role_id x)) (map role_id rs) = true).
    { apply existsb_exists. exists (role_id r). split; [now apply in_map|exact E]. }
    congruence.
Qed.

Lemma resolve_roles_app (rs : list Role) (l1 l2 : list Z) :
  Discord.resolve_roles rs (l1 ++ l2)
  = (Discord.resolve_roles rs l1 ++ Discord.resolve_roles rs l2)%list.
Proof. unfold Discord.resolve_roles. apply flat_map_app. Qed.

Lemma resolve_roles_In (rs : list Role) (ids : list Z) (i : Z) (r : Role) :
  In i ids -> Discord.find_role i rs = Some r -> In r (Discord.resolve_roles rs ids).
Proof.
  intros I F. unfold Discord.resolve_roles. apply in_flat_map.
  exists i. split; [exact I|]. rewrite F. now left.
Qed.

Lemma resolve_roles_known (rs extra : list Role) (ids : list Z) :
  forallb (fun i => existsb (fun r => role_id r =? i) rs) ids = true ->
  Discord.resolve_roles (rs ++ extra) ids = Discord.resolve_roles rs ids.
Proof.
  induction ids as [|i ids IH]; intro H; [reflexivity|].
  cbn [forallb] in H. apply andb_prop in H. destruct H as [K H].
  unfold Discord.resolve_roles in *. cbn [flat_map].
  now rewrite (find_role_known i rs extra K), IH.
Qed.

(** Once the identifiers in [gone] are dropped, no role on the ladder is
    left, provided [gone] has the identifier of every held ladder role. *)
Lemma no_ladder_role_left (rs : list Role) (gone ids : list Z) :
  (forall i r, In i ids -> Discord.find_role i rs = Some r ->
               on_ladder r = true -> existsb (Z.eqb i) gone = true) ->
  filter on_ladder
    (Discord.resolve_roles rs
       (filter (fun i => negb (existsb (Z.eqb i) gone)) ids)) = [].
Proof.
  induction ids as [|i ids IH]; intro H; [reflexivity|].
  assert (H' : forall j r, In j ids -> Discord.find_role j rs = Some r ->
                           on_ladder r = true -> existsb (Z.eqb j) gone = true).
  { intros j r I. apply H. now right. }
  cbn [filter]. destruct (existsb (Z.eqb i) gone) eqn:G; cbn [negb].
  - now apply IH.
  - change (i :: ?l) with ([i] ++ l)%list. rewrite resolve_roles_app, filter_app.
    rewrite (IH H'), app_nil_r.
    unfold Discord.resolve_roles. cbn [flat_map].
    destruct (Discord.find_role i rs) as [r|] eqn:F; [|reflexivity].
    cbn [app filter]. destruct (on_ladder r) eqn:L; [|reflexivity].
    rewrite (H i r (or_introl eq_refl) F L) in G. discriminate G.
Qed.

Lemma ladder_ids_cover (rs : list Role) (ids : list Z) (i : Z) (r : Role) :
  In i ids -> Discord.find_role i rs = Some r -> on_ladder r = true ->
  existsb (Z.eqb i)
    (map role_id (filter on_ladder (Discord.resolve_roles rs ids))) = true.
Proof.
  intros I F L. apply existsb_exists. exists i. split; [|apply Z.eqb_refl].
  destruct (find_role_some _ _ _ F) as [<- _].
  apply in_map, filter_In. split; [|exact L].
  now apply (resolve_roles_In rs ids (role_id r)).
Qed.

Lemma filter_filter {A} (f g : A -> bool) (l : list A) :
  filter f (filter g l) = filter (fun x => g x && f x) l.
Proof.
  induction l as [|x l IH]; [reflexivity|].
  cbn [filter]. destruct (g x); cbn [andb filter]; [|exact IH].
  destruct (f x); now rewrite IH.
Qed.

(** ** The requests of the reconciler *)

Lemma request_returned (c : Call) (w w' : World) (u : unit) :
  Discord.request c w = (Returned u, w') -> w' = record_call c (tl (faults w)) w.
Proof.
  unfold Discord.request. destruct (faults w) as [|[|] fs]; intro H;
    try discriminate H; now injection H as _ <-.
Qed.

Lemma roles_remove_returned (member : GuildMember) (role : Role) (w w' : World) (u : unit) :
  Discord.roles_remove member role w = (Returned u, w') ->
  w' = set_members
         (Discord.update_member (member_id member)
            (filter (fun id => negb (id =? role_id role))) (guild_members w))
         (record_call (RolesRemove (member_id member) (role_id role)) (tl (faults w)) w).
Proof.
  unfold Discord.roles_remove, bind.
  destruct (Discord.request _ w) as [[[]|e] w1] eqn:R; intro H; [|discriminate H].
  apply request_returned in R. subst w1. now injection H as <-.
Qed.

Lemma roles_add_returned (member : GuildMember) (role : Role) (w w' : World) (u : unit) :
  Discord.roles_add member role w = (Returned u, w') ->
  w' = set_members
         (Discord.update_member (member_id member)
            (Discord.with_role (role_id role)) (guild_members w))
         (record_call (RolesAdd (member_id member) (role_id role)) (tl (faults w)) w).
Proof.
  unfold Discord.roles_add, bind.
  destruct (Discord.request _ w) as [[[]|e] w1] eqn:R; intro H; [|discriminate H].
  apply request_returned in R. subst w1. now injection H as <-.
Qed.

Lemma roles_create_returned (name : string) (w w' : World) (role : Role) :
  Discord.roles_create name w = (Returned role, w') ->
  role = {| role_id := next_snowflake w; role_name := name |}
  /\ w' = set_roles (guild_roles w ++ [role])%list (next_snowflake w + 1)
            (record_call (RolesCreate name) (tl (faults w)) w).
Proof.
  unfold Discord.roles_create, bind.
  destruct (Discord.request _ w) as [[[]|e] w1] eqn:R; intro H; [|discriminate H].
  apply request_returned in R. subst w1.
  cbn [guild_roles next_snowflake record_call] in H.
  injection H as <- <-. now split.
Qed.

Lemma find_member_update (id : string) (f : list Z -> list Z) (ms : list GuildMember) :
  Discord.find_member id (Discord.update_member id f ms)
  = option_map (fun m => {| member_id := member_id m; user := user m;
                            member_roles := f (member_roles m) |})
               (Discord.find_member id ms).
Proof.
  unfold Discord.find_member, Discord.update_member.
  induction ms as [|m ms IH]; [reflexivity|].
  cbn [map find]. destruct (String.eqb (member_id m) id) eqn:E.
  - cbn [member_id]. now rewrite E.
  - now rewrite E.
Qed.

Lemma filter_all {A} (l : list A) : filter (fun _ => true) l = l.
Proof. induction l as [|x l IH]; [reflexivity|]. cbn [filter]. now rewrite IH. Qed.

(** The loop that removes roles: when it completes, it has sent one
    request per role, in order, and the member holds what it held minus
    those roles; the roles of the guild are as before. *)
Lemma remove_loop (member : GuildMember) : forall (rs : list Role) (w w' : World) (u : unit),
  for_of rs (Discord.roles_remove member) w = (Returned u, w') ->
  guild_roles w' = guild_roles w
  /\ next_snowflake w' = next_snowflake w
  /\ calls w' = (calls w ++ map (fun r => RolesRemove (member_id member) (role_id r)) rs)%list
  /\ forall m0, Discord.find_member (member_id member) (guild_members w) = Some m0 ->
       exists m1, Discord.find_member (member_id member) (guild_members w') = Some m1
                  /\ member_roles m1
                     = filter (fun i => negb (existsb (Z.eqb i) (map role_id rs)))
                              (member_roles m0).
Proof.
  induction rs as [|r rs IH]; intros w w' u H.
  - cbn [for_of] in H. unfold ret in H. injection H as _ <-.
    repeat split; [now rewrite app_nil_r|].
    intros m0 F. exists m0. split; [exact F|]. cbn [map existsb negb].
    now rewrite filter_all.
  - cbn [for_of] in H. unfold bind in H.
    destruct (Discord.roles_remove member r w) as [[[]|e] w1] eqn:R; [|discriminate H].
    apply roles_remove_returned in R.
    destruct (IH _ _ _ H) as (G & N & C & M). subst w1.
    cbn [guild_roles next_snowflake calls guild_members set_members record_call] in *.
    repeat split; try assumption.
    + rewrite C. cbn [map]. now rewrite <- app_assoc.
    + intros m0 F. rewrite find_member_update, F in M. cbn [option_map] in M.
      destruct (M _ eq_refl) as (m1 & F1 & E1). exists m1. split; [exact F1|].
      rewrite E1. cbn [member_roles map existsb]. rewrite filter_filter.
      apply filter_ext. intro i. now rewrite negb_orb, (Z.eqb_sym i).
Qed.

(** What a completed run of [assignRoleByBalance] went through. *)
Lemma assignRoleByBalance_returned
    (member : GuildMember) (balance : Js.number) (symbol : Js.text)
    (w w' : World) (result : Assignment) :
  assignRoleByBalance member balance symbol w = (Returned result, w') ->
  exists name role w1 w2,
    thresholdRoleName balance = Returned name
    /\ result = {| assigned_roleName := name; assigned_balance := balance;
                   assigned_symbol := symbol |}
    /\ for_of (filter on_ladder
                 (Discord.resolve_roles (guild_roles w) (member_roles member)))
              (Discord.roles_remove member) w = (Returned tt, w1)
    /\ ((find (fun r => String.eqb (role_name r) name) (guild_roles w1) = Some role
         /\ w2 = w1)
        \/ (find (fun r => String.eqb (role_name r) name) (guild_roles w1) = None
            /\ Discord.roles_create name w1 = (Returned role, w2)))
    /\ Discord.roles_add member role w2 = (Returned tt, w').
Proof.
  unfold assignRoleByBalance, Discord.roles_cache, Discord.roles_find_by_name.
  unfold bind at 1 2. fold on_ladder.
  destruct (for_of _ _ w) as [[[]|e] w1] eqn:L; [|discriminate].
  unfold bind at 1, lift.
  destruct (thresholdRoleName balance) as [name|e] eqn:T; [|discriminate].
  unfold bind at 1 2.
  destruct (find _ (guild_roles w1)) as [role|] eqn:F.
  - unfold ret at 1. unfold bind at 1.
    destruct (Discord.roles_add member role w1) as [[[]|e] w3] eqn:A; [|discriminate].
    unfold ret. intro H. injection H as <- <-.
    exists name, role, w1, w1. repeat split; auto.
  - destruct (Discord.roles_create name w1) as [[role|e] w2] eqn:C; [|discriminate].
    unfold bind at 1.
    destruct (Discord.roles_add member role w2) as [[[]|e] w3] eqn:A; [|discriminate].
    unfold ret. intro H. injection H as <- <-.
    exists name, role, w1, w2. repeat split; auto.
Qed.

Lemma after_removal_no_ladder (rs : list Role) (ids : list Z) :
  filter on_ladder (Discord.resolve_roles rs (after_removal rs ids)) = [].
Proof.
  apply no_ladder_role_left. intros i r I F L.
  now apply (ladder_ids_cover rs ids i r).
Qed.

Lemma after_removal_In (rs : list Role) (ids : list Z) (i : Z) :
  In i (after_removal rs ids) ->
  In i ids /\ existsb (Z.eqb i) (held_ladder_ids rs ids) = false.
Proof.
  unfold after_removal. intro H. apply filter_In in H.
  destruct H as [I N]. apply negb_true_iff in N. now split.
Qed.

Lemma named_on_ladder (role : Role) (name : string) :
  role_name role = name -> includes roleNames name = true -> on_ladder role = true.
Proof. intros <- H. exact H. Qed.

(** The target role exists in the guild: after the removals and the
    addition it is the only ladder role held. *)
Lemma ladder_after_found (rs : list Role) (ids : list Z) (role : Role) :
  distinct (map role_id rs) = true -> In role rs -> on_ladder role = true ->
  filter on_ladder
    (Discord.resolve_roles rs (Discord.with_role (role_id role) (after_removal rs ids)))
  = [role].
Proof.
  intros D I L.
  pose proof (find_role_distinct rs role D I) as FR.
  assert (N : existsb (Z.eqb (role_id role)) (after_removal rs ids) = false).
  { destruct (existsb _ (after_removal rs ids)) eqn:E; [|reflexivity].
    apply existsb_exists in E. destruct E as (i & Ii & Ei).
    apply Z.eqb_eq in Ei. subst i.
    apply after_removal_In in Ii. destruct Ii as [Ii Ni].
    unfold held_ladder_ids in Ni.
    now rewrite (ladder_ids_cover rs ids _ role Ii FR L) in Ni. }
  unfold Discord.with_role. rewrite N, resolve_roles_app, filter_app, after_removal_no_ladder.
  unfold Discord.resolve_roles. cbn [flat_map]. rewrite FR.
  cbn [app filter]. now rewrite L.
Qed.

Lemma forallb_filter {A} (p f : A -> bool) (l : list A) :
  forallb p l = true -> forallb p (filter f l) = true.
Proof.
  induction l as [|x l IH]; [reflexivity|].
  cbn [forallb filter]. intro H. apply andb_prop in H. destruct H as [P H].
  destruct (f x); cbn [forallb]; [rewrite P|]; now apply IH.
Qed.

(** The target role is created: it receives a fresh identifier, and after
    the removals and the addition it is the only ladder role held. *)
Lemma ladder_after_created (rs : list Role) (ids : list Z) (next : Z) (name : string) :
  forallb (fun r => role_id r <? next) rs = true ->
  forallb (fun i => existsb (fun r => role_id r =? i) rs) ids = true ->
  includes roleNames name = true ->
  filter on_ladder
    (Discord.resolve_roles (rs ++ [ {| role_id := next; role_name := name |} ])
       (Discord.with_role next (after_removal rs ids)))
  = [ {| role_id := next; role_name := name |} ].
Proof.
  intros B K L.
  assert (Fresh : forall x, In x rs -> role_id x <> next).
  { intros x I. rewrite forallb_forall in B. specialize (B x I).
    apply Z.ltb_lt in B. lia. }
  assert (K1 : forallb (fun i => existsb (fun r => role_id r =? i) rs)
                       (after_removal rs ids) = true)
    by now apply forallb_filter.
  assert (N : existsb (Z.eqb next) (after_removal rs ids) = false).
  { destruct (existsb _ (after_removal rs ids)) eqn:E; [|reflexivity].
    apply existsb_exists in E. destruct E as (i & Ii & Ei).
    apply Z.eqb_eq in Ei. subst i.
    rewrite forallb_forall in K1. specialize (K1 next Ii).
    apply existsb_exists in K1. destruct K1 as (r & Ir & Er).
    apply Z.eqb_eq in Er. exfalso. exact (Fresh r Ir Er). }
  unfold Discord.with_role. rewrite N, resolve_roles_app, filter_app.
  rewrite (resolve_roles_known rs _ _ K1), after_removal_no_ladder.
  unfold Discord.resolve_roles. cbn [flat_map].
  pose proof (find_role_new rs {| role_id := next; role_name := name |} Fresh) as FN.
  cbn [role_id] in FN. rewrite FN.
  cbn [app filter]. unfold on_ladder. cbn [role_name]. now rewrite L.
Qed.

Lemma coherent_member (w : World) (id : string) (m : GuildMember) :
  coherent w = true -> Discord.find_member id (guild_members w) = Some m ->
  distinct (map role_id (guild_roles w)) = true
  /\ forallb (fun r => role_id r <? next_snowflake w) (guild_roles w) = true
  /\ forallb (fun i => existsb (fun r => role_id r =? i) (guild_roles w))
             (member_roles m) = true.
Proof.
  unfold coherent. intros C F.
  apply andb_prop in C. destruct C as [C K].
  apply andb_prop in C. destruct C as [D B].
  repeat split; try assumption.
  apply find_some in F. destruct F as [I _].
  rewrite forallb_forall in K. exact (K m I).
Qed.

(** C1. After a reconciliation that completes without error, run on a
    coherent guild for a member as it was fetched, the member holds
    exactly one role whose name is a label of the ladder, and that label is
    the one tier resolution gives for the balance.  (Coherence is kept by
    every run, see [assignRoleByBalance_coherent] below.) *)
Theorem reconciliation_leaves_one_ladder_role
    (member : GuildMember) (balance : Js.number) (symbol : Js.text)
    (w w' : World) (result : Assignment) :
  coherent w = true ->
  Discord.find_member (member_id member) (guild_members w) = Some member ->
  assignRoleByBalance member balance symbol w = (Returned result, w') ->
  thresholdRoleName balance = Returned (assigned_roleName result)
  /\ map role_name (held_ladder_roles w' (member_id member)) = [assigned_roleName result]
  /\ length (held_ladder_roles w' (member_id member)) = 1%nat.
Proof.
  intros Coh Fm H.
  destruct (assignRoleByBalance_returned _ _ _ _ _ _ H)
    as (name & role & w1 & w2 & T & -> & L & Find & Add).
  destruct (coherent_member w _ member Coh Fm) as (D & B & K).
  destruct (remove_loop member _ _ _ _ L) as (G1 & N1 & _ & M1).
  destruct (M1 member Fm) as (m1 & F1 & E1).
  pose proof (thresholdRoleName_on_ladder _ _ T) as On.
  apply roles_add_returned in Add. subst w'.
  cbn [assigned_roleName]. split; [exact T|].
  assert (R : held_ladder_roles
                (set_members
                   (Discord.update_member (member_id member)
                      (Discord.with_role (role_id role)) (guild_members w2))
                   (record_call (RolesAdd (member_id member) (role_id role))
                      (tl (faults w2)) w2)) (member_id member) = [role]
              /\ role_name role = name).
  { unfold held_ladder_roles, held_roles.
    cbn [guild_members guild_roles set_members record_call].
    rewrite find_member_update.
    destruct Find as [[F ->]|[F C]].
    - apply find_some in F. destruct F as [I E]. apply String.eqb_eq in E.
      rewrite G1 in I. rewrite F1, G1. cbn [option_map member_roles]. rewrite E1.
      split; [|exact E].
      apply (ladder_after_found (guild_roles w) (member_roles member) role D I).
      now apply (named_on_ladder role name).
    - apply roles_create_returned in C. destruct C as [-> ->].
      cbn [guild_members guild_roles set_roles record_call role_id role_name].
      rewrite F1, G1, N1. cbn [option_map member_roles]. rewrite E1.
      split; [|reflexivity].
      now apply (ladder_after_created (guild_roles w) (member_roles member)). }
  destruct R as [R E]. rewrite R. cbn [map length]. now rewrite E.
Qed.

(** ** Coherence is kept *)

Lemma coherent_parts (w : World) :
  coherent w = true <->
  distinct (map role_id (guild_roles w)) = true
  /\ forallb (fun r => role_id r <? next_snowflake w) (guild_roles w) = true
  /\ forallb (fun m => forallb (fun id => existsb (fun r => role_id r =? id)
                                            (guild_roles w))
                               (member_roles m))
             (guild_members w) = true.
Proof.
  unfold coherent. rewrite !andb_true_iff. tauto.
Qed.

Lemma update_member_forallb (P : list Z -> bool) (id : string)
    (f : list Z -> list Z) (ms : list GuildMember) :
  (forall ids, P ids = true -> P (f ids) = true) ->
  forallb (fun m => P (member_roles m)) ms = true ->
  forallb (fun m => P (member_roles m)) (Discord.update_member id f ms) = true.
Proof.
  intros Hf. unfold Discord.update_member.
  induction ms as [|m ms IH]; [reflexivity|].
  cbn [forallb map]. intro H. apply andb_prop in H. destruct H as [Pm H].
  rewrite (IH H), andb_true_r.
  destruct (String.eqb (member_id m) id); [|exact Pm].
  cbn [member_roles]. now apply Hf.
Qed.

Lemma request_coherent (c : Call) (w : World) :
  coherent (snd (Discord.request c w)) = coherent w
  /\ guild_roles (snd (Discord.request c w)) = guild_roles w
  /\ next_snowflake (snd (Discord.request c w)) = next_snowflake w
  /\ guild_members (snd (Discord.request c w)) = guild_members w.
Proof.
  unfold Discord.request. destruct (faults w) as [|[|] fs]; repeat split.
Qed.

Lemma roles_remove_coherent (member : GuildMember) (role : Role) (w : World) :
  coherent w = true ->
  coherent (snd (Discord.roles_remove member role w)) = true
  /\ guild_roles (snd (Discord.roles_remove member role w)) = guild_roles w.
Proof.
  intro C. unfold Discord.roles_remove, bind.
  destruct (request_coherent (RolesRemove (member_id member) (role_id role)) w)
    as (Cr & Gr & Nr & Mr).
  destruct (Discord.request _ w) as [[[]|e] w1]; cbn [snd] in *.
  - split; [|exact Gr]. rewrite <- Cr in C. apply coherent_parts in C.
    destruct C as (D & B & K). apply coherent_parts.
    cbn [guild_roles next_snowflake guild_members set_members].
    repeat split; try assumption.
    apply (update_member_forallb
             (forallb (fun id => existsb (fun r => role_id r =? id) (guild_roles w1))));
      [|exact K].
    intros ids. apply forallb_filter.
  - split; [congruence|exact Gr].
Qed.

Lemma remove_loop_coherent (member : GuildMember) : forall (rs : list Role) (w : World),
  coherent w = true ->
  coherent (snd (for_of rs (Discord.roles_remove member) w)) = true
  /\ guild_roles (snd (for_of rs (Discord.roles_remove member) w)) = guild_roles w.
Proof.
  induction rs as [|r rs IH]; intros w C; [now split|].
  cbn [for_of]. unfold bind.
  destruct (roles_remove_coherent member r w C) as [C1 G1].
  destruct (Discord.roles_remove member r w) as [[[]|e] w1]; cbn [snd] in *.
  - destruct (IH w1 C1) as [C2 G2]. split; [exact C2|congruence].
  - now split.
Qed.

Lemma distinct_snoc (ids : list Z) (i : Z) :
  distinct ids = true -> existsb (Z.eqb i) ids = false ->
  distinct (ids ++ [i]) = true.
Proof.
  induction ids as [|j ids IH]; intros D N; [reflexivity|].
  cbn [distinct existsb app] in *.
  apply andb_prop in D. destruct D as [Dj D].
  apply orb_false_iff in N. destruct N as [Nj N].
  rewrite (IH D N), andb_true_r. rewrite existsb_app. cbn [existsb].
  apply negb_true_iff in Dj. rewrite Dj, orb_false_r. cbn [orb].
  now rewrite Z.eqb_sym, Nj.
Qed.

Lemma existsb_weaken {A} (f : A -> bool) (l extra : list A) :
  existsb f l = true -> existsb f (l ++ extra) = true.
Proof. intro H. rewrite existsb_app, H. reflexivity. Qed.

Lemma roles_create_coherent (name : string) (w : World) :
  coherent w = true ->
  coherent (snd (Discord.roles_create name w)) = true
  /\ forall role, fst (Discord.roles_create name w) = Returned role ->
       existsb (fun r => role_id r =? role_id role)
               (guild_roles (snd (Discord.roles_create name w))) = true.
Proof.
  intro C. unfold Discord.roles_create, bind.
  destruct (request_coherent (RolesCreate name) w) as (Cr & Gr & Nr & Mr).
  destruct (Discord.request _ w) as [[[]|e] w1]; cbn [fst snd] in *.
  2:{ split; [congruence|discriminate]. }
  rewrite <- Cr in C. apply coherent_parts in C. destruct C as (D & B & K).
  assert (Fresh : existsb (Z.eqb (next_snowflake w1)) (map role_id (guild_roles w1)) = false).
  { destruct (existsb _ (map role_id (guild_roles w1))) eqn:E; [|reflexivity].
    apply existsb_exists in E. destruct E as (i & I & E).
    apply Z.eqb_eq in E. subst i. apply in_map_iff in I. destruct I as (r & Er & I).
    rewrite forallb_forall in B. specialize (B r I). apply Z.ltb_lt in B. lia. }
  split.
  - apply coherent_parts. cbn [guild_roles next_snowflake guild_members set_roles].
    split; [|split].
    + rewrite map_app. cbn [map role_id]. now apply distinct_snoc.
    + rewrite forallb_app. cbn [forallb role_id].
      rewrite andb_true_r. apply andb_true_iff. split; [|apply Z.ltb_lt; lia].
      rewrite forallb_forall in *. intros r I. specialize (B r I).
      apply Z.ltb_lt in B. apply Z.ltb_lt. lia.
    + rewrite forallb_forall in *. intros m I. specialize (K m I).
      rewrite forallb_forall in *. intros i Ii. apply existsb_weaken. now apply K.
  - intros role [= <-]. cbn [guild_roles set_roles role_id].
    rewrite existsb_app. cbn [existsb role_id]. now rewrite Z.eqb_refl, orb_true_r.
Qed.

Lemma roles_add_coherent (member : GuildMember) (role : Role) (w : World) :
  coherent w = true ->
  existsb (fun r => role_id r =? role_id role) (guild_roles w) = true ->
  coherent (snd (Discord.roles_add member role w)) = true.
Proof.
  intros C Known. unfold Discord.roles_add, bind.
  destruct (request_coherent (RolesAdd (member_id member) (role_id role)) w)
    as (Cr & Gr & Nr & Mr).
  destruct (Discord.request _ w) as [[[]|e] w1]; cbn [snd] in *; [|congruence].
  rewrite <- Cr in C. apply coherent_parts in C. destruct C as (D & B & K).
  apply coherent_parts. cbn [guild_roles next_snowflake guild_members set_members].
  repeat split; try assumption.
  apply (update_member_forallb
           (forallb (fun id => existsb (fun r => role_id r =? id) (guild_roles w1))));
    [|exact K].
  intros ids H. unfold Discord.with_role.
  destruct (existsb (Z.eqb (role_id role)) ids); [exact H|].
  rewrite forallb_app, H. cbn [forallb]. rewrite Gr, Known. reflexivity.
Qed.

(** A run of the reconciler, completed or not, leaves a coherent guild
    coherent. *)
Lemma assignRoleByBalance_coherent
    (member : GuildMember) (balance : Js.number) (symbol : Js.text) (w : World) :
  coherent w = true ->
  coherent (snd (assignRoleByBalance member balance symbol w)) = true.
Proof.
  intro C. unfold assignRoleByBalance, Discord.roles_cache, Discord.roles_find_by_name.
  unfold bind at 1 2. fold on_ladder.
  destruct (remove_loop_coherent member
              (filter on_ladder
                 (Discord.resolve_roles (guild_roles w) (member_roles member))) w C)
    as [C1 _].
  destruct (for_of _ _ w) as [[[]|e] w1]; cbn [snd] in *; [|exact C1].
  unfold bind at 1, lift.
  destruct (thresholdRoleName balance) as [name|e]; [|exact C1].
  unfold bind at 1 2.
  destruct (find _ (guild_roles w1)) as [role|] eqn:F.
  - unfold ret at 1. unfold bind at 1.
    assert (Known : existsb (fun r => role_id r =? role_id role) (guild_roles w1) = true).
    { apply find_some in F. destruct F as [I _]. apply existsb_exists.
      exists role. split; [exact I|apply Z.eqb_refl]. }
    pose proof (roles_add_coherent member role w1 C1 Known) as C2.
    destruct (Discord.roles_add member role w1) as [[[]|e] w3]; exact C2.
  - destruct (roles_create_coherent name w1 C1) as [C2 Known].
    destruct (Discord.roles_create name w1) as [[role|e] w2]; cbn [fst snd] in *;
      [|exact C2].
    unfold bind at 1.
    pose proof (roles_add_coherent member role w2 C2 (Known role eq_refl)) as C3.
    destruct (Discord.roles_add member role w2) as [[[]|e] w3]; exact C3.
Qed.

(** ** The roles the reconciler removes *)

Lemma removed_app (l1 l2 : list Call) :
  removed (l1 ++ l2) = (removed l1 ++ removed l2)%list.
Proof. unfold removed. apply flat_map_app. Qed.

Lemma removed_removals (id : string) (rs : list Role) :
  removed (map (fun r => RolesRemove id (role_id r)) rs) = map role_id rs.
Proof.
  induction rs as [|r rs IH]; [reflexivity|].
  cbn [map]. change (removed (?c :: ?l)) with (removed [c] ++ removed l)%list.
  now rewrite IH.
Qed.

(** C4, the claim fails: ann holds the role zklHolder and her balance of
    100 resolves to zklHolder; the reference set
    [currentRoles ∩ ladderLabelSet \ {targetLabel}] is empty, yet the
    reconciler removes that role (and then adds it back). *)
Lemma target_role_is_removed_too :
  Discord.find_member "101" (guild_members sample_world) = Some ann
  /\ fst (assignRoleByBalance ann (Js.Finite 100) [] sample_world)
     = Returned {| assigned_roleName := "zklHolder";
                   assigned_balance := Js.Finite 100; assigned_symbol := [] |}
  /\ map role_id (rolesToRemove_spec (held_roles sample_world "101") "zklHolder") = []
  /\ removed (calls (snd (assignRoleByBalance ann (Js.Finite 100) [] sample_world))) = [1]
  /\ calls (snd (assignRoleByBalance ann (Js.Finite 100) [] sample_world))
     = [RolesRemove "101" 1; RolesAdd "101" 1].
Proof. repeat split. Qed.

(** C4, amended. In a reconciliation that completes, the roles removed
    are exactly the held roles whose name is a label of the ladder, in the
    order of the member's roles: the intersection of the held roles with
    the ladder's label set, a held role named as the target label included;
    that role is removed and the last request adds the target role. *)
Theorem reconciler_removes_every_ladder_role
    (member : GuildMember) (balance : Js.number) (symbol : Js.text)
    (w w' : World) (result : Assignment) :
  assignRoleByBalance member balance symbol w = (Returned result, w') ->
  exists issued role,
    calls w' = (calls w ++ issued)%list
    /\ removed issued
       = map role_id
           (filter on_ladder
              (Discord.resolve_roles (guild_roles w) (member_roles member)))
    /\ (forall r,
          In r (Discord.resolve_roles (guild_roles w) (member_roles member)) ->
          role_name r = assigned_roleName result ->
          In (role_id r) (removed issued))
    /\ role_name role = assigned_roleName result
    /\ last issued (RolesAdd (member_id member) (role_id role))
       = RolesAdd (member_id member) (role_id role)
    /\ In (RolesAdd (member_id member) (role_id role)) issued.
Proof.
  intro H.
  destruct (assignRoleByBalance_returned _ _ _ _ _ _ H)
    as (name & role & w1 & w2 & T & -> & L & Find & Add).
  destruct (remove_loop member _ _ _ _ L) as (_ & _ & C1 & _).
  pose proof (thresholdRoleName_on_ladder _ _ T) as On.
  apply roles_add_returned in Add. subst w'.
  set (rs := filter on_ladder
               (Discord.resolve_roles (guild_roles w) (member_roles member))) in *.
  set (removals := map (fun r => RolesRemove (member_id member) (role_id r)) rs) in *.
  assert (S : exists middle,
             calls w2 = (calls w ++ removals ++ middle)%list
             /\ removed middle = [] /\ role_name role = name).
  { destruct Find as [[F ->]|[F C]].
    - exists []. rewrite app_nil_r. repeat split; [exact C1|].
      apply find_some in F. now apply String.eqb_eq.
    - apply roles_create_returned in C. destruct C as [-> ->].
      exists [RolesCreate name]. cbn [calls set_roles record_call].
      rewrite C1, <- app_assoc. repeat split. }
  destruct S as (middle & C2 & Rm & E).
  exists (removals ++ middle ++ [RolesAdd (member_id member) (role_id role)])%list, role.
  cbn [calls set_members record_call assigned_roleName].
  assert (Rem : removed (removals ++ middle
                           ++ [RolesAdd (member_id member) (role_id role)])%list
                = map role_id rs).
  { rewrite !removed_app, Rm. unfold removals. rewrite removed_removals.
    cbn [removed flat_map app]. now rewrite app_nil_r. }
  split; [|split; [|split; [|split; [|split]]]].
  - rewrite C2. now rewrite <- !app_assoc.
  - exact Rem.
  - intros r I N. rewrite Rem. apply in_map. unfold rs. apply filter_In.
    split; [exact I|]. now apply (named_on_ladder r name).
  - exact E.
  - rewrite !app_assoc. apply last_last.
  - apply in_or_app. right. apply in_or_app. right. now left.
Qed.

(** ** The batch driver *)

Lemma fetched_app (l1 l2 : list Call) :
  fetched (l1 ++ l2) = (fetched l1 ++ fetched l2)%list.
Proof. unfold fetched. apply flat_map_app. Qed.

Lemma quiet_ret {A} (a : A) : quiet (ret a).
Proof. intro w. now split. Qed.

Lemma quiet_throw {A} (e : exn) : quiet (@throw A e).
Proof. intro w. now split. Qed.

Lemma quiet_lift {A} (o : outcome A) : quiet (lift o).
Proof. intro w. now split. Qed.

Lemma quiet_bind {A B} (m : M A) (k : A -> M B) :
  quiet m -> (forall a, quiet (k a)) -> quiet (bind m k).
Proof.
  intros Qm Qk w. unfold bind. specialize (Qm w).
  destruct (m w) as [[a|e] w1]; cbn [snd] in *; [|exact Qm].
  destruct (Qk a w1) as [C F]. destruct Qm as [C1 F1]. split; congruence.
Qed.

Lemma quiet_try_catch {A} (m : M A) (h : exn -> M A) :
  quiet m -> (forall e, quiet (h e)) -> quiet (try_catch m h).
Proof.
  intros Qm Qh w. unfold try_catch. specialize (Qm w).
  destruct (m w) as [[a|e] w1]; cbn [snd] in *; [exact Qm|].
  destruct (Qh e w1) as [C F]. destruct Qm as [C1 F1]. split; congruence.
Qed.

Lemma quiet_for_of {A} (body : A -> M unit) (xs : list A) :
  (forall x, quiet (body x)) -> quiet (for_of xs body).
Proof.
  intro Qb. induction xs as [|x xs IH]; cbn [for_of].
  - apply quiet_ret.
  - apply quiet_bind; [apply Qb|intros _; exact IH].
Qed.

Lemma quiet_request (c : Call) : fetched [c] = [] -> quiet (Discord.request c).
Proof.
  intros N w. unfold Discord.request.
  destruct (faults w) as [|[|] fs]; cbn [snd console calls record_call];
    rewrite fetched_app, N, app_nil_r; now split.
Qed.

Lemma quiet_rpcCall (to data : string) : quiet (rpcCall to data).
Proof.
  unfold rpcCall. apply quiet_try_catch; [|intro; apply quiet_throw].
  apply quiet_bind.
  - intro w. unfold axios_post.
    destruct (node w to data); cbn [snd console calls record_call];
      rewrite fetched_app, app_nil_r; now split.
  - intros [[reason|] v]; cbn [body_error]; [apply quiet_throw|apply quiet_ret].
Qed.

Lemma quiet_assignRoleByBalance (member : GuildMember) (balance : Js.number)
    (symbol : Js.text) : quiet (assignRoleByBalance member balance symbol).
Proof.
  unfold assignRoleByBalance.
  apply quiet_bind; [intro w; now split|]. intro cache.
  apply quiet_bind.
  { apply quiet_for_of. intro r. unfold Discord.roles_remove.
    apply quiet_bind; [now apply quiet_request|]. intros _ w. now split. }
  intros _. apply quiet_bind; [apply quiet_lift|]. intro name.
  apply quiet_bind; [intro w; now split|]. intro found.
  apply quiet_bind.
  { destruct found; [apply quiet_ret|]. unfold Discord.roles_create.
    apply quiet_bind; [now apply quiet_request|]. intros _ w. now split. }
  intro role. apply quiet_bind; [|intros _; apply quiet_ret].
  unfold Discord.roles_add.
  apply quiet_bind; [now apply quiet_request|]. intros _ w. now split.
Qed.

Section Batch.

Variable simpleEncode : string -> list string -> outcome (list byte).

Lemma quiet_getTokenBalance (userAddr tokenAddr : string) :
  quiet (getTokenBalance simpleEncode userAddr tokenAddr).
Proof.
  unfold getTokenBalance.
  apply quiet_try_catch; [|intro; apply quiet_throw].
  repeat (apply quiet_bind;
          [first [apply quiet_lift | apply quiet_rpcCall]|intro]).
  apply quiet_ret.
Qed.

Lemma members_fetch_effect (id : string) (w : World) :
  console (snd (Discord.members_fetch id w)) = console w
  /\ fetched (calls (snd (Discord.members_fetch id w))) = (fetched (calls w) ++ [id])%list.
Proof.
  unfold Discord.members_fetch, Discord.request. unfold bind.
  destruct (faults w) as [|[|] fs]; cbn [guild_members record_call];
    try destruct (Discord.find_member id (guild_members w));
    cbn [snd console calls record_call]; rewrite fetched_app; now split.
Qed.

(** One turn of the loop never throws: it fetches the holder's member and
    leaves exactly one line on the console, the daily update when the
    holder was reconciled and the error otherwise. *)
Lemma updateRow_reports (row : Row) (w : World) :
  exists line w',
    updateRow simpleEncode row w = (Returned tt, w')
    /\ console w' = (console w ++ [line])%list
    /\ is_report line = true
    /\ fetched (calls w') = (fetched (calls w) ++ [discord_user_id row])%list.
Proof.
  unfold updateRow, try_catch. unfold bind at 1.
  destruct (members_fetch_effect (discord_user_id row) w) as [C1 F1].
  destruct (Discord.members_fetch (discord_user_id row) w) as [[member|e] w1];
    cbn [snd] in C1, F1.
  2:{ eexists. eexists. split; [reflexivity|].
      cbn [console calls write_line]. rewrite C1, F1. repeat split. }
  unfold bind at 1.
  destruct (quiet_getTokenBalance (wallet_address row) tokenContractAddress w1) as [C2 F2].
  destruct (getTokenBalance simpleEncode (wallet_address row) tokenContractAddress w1)
    as [[token|e] w2]; cbn [snd] in C2, F2.
  2:{ eexists. eexists. split; [reflexivity|].
      cbn [console calls write_line]. rewrite C2, F2, C1, F1. repeat split. }
  unfold bind at 1.
  destruct (quiet_assignRoleByBalance member (Js.parseFloat (balance token))
              (symbol token) w2) as [C3 F3].
  destruct (assignRoleByBalance member (Js.parseFloat (balance token)) (symbol token) w2)
    as [[r|e] w3]; cbn [snd] in C3, F3.
  2:{ eexists. eexists. split; [reflexivity|].
      cbn [console calls write_line]. rewrite C3, F3, C2, F2, C1, F1. repeat split. }
  eexists. eexists. split; [reflexivity|].
  cbn [console calls write_line]. rewrite C3, F3, C2, F2, C1, F1. repeat split.
Qed.

Lemma batch_loop : forall (rows : list Row) (w : World),
  exists lines w',
    for_of rows (updateRow simpleEncode) w = (Returned tt, w')
    /\ console w' = (console w ++ lines)%list
    /\ length lines = length rows
    /\ forallb is_report lines = true
    /\ fetched (calls w') = (fetched (calls w) ++ map discord_user_id rows)%list.
Proof.
  induction rows as [|row rows IH]; intro w.
  - exists [], w. cbn [for_of ret map]. now rewrite !app_nil_r.
  - destruct (updateRow_reports row w) as (line & w1 & R & C & P & F).
    destruct (IH w1) as (lines & w2 & R' & C' & Len & P' & F').
    exists (line :: lines), w2. cbn [for_of]. unfold bind. rewrite R.
    split; [exact R'|]. split; [|split; [|split]].
    + rewrite C', C. now rewrite <- app_assoc.
    + cbn [length]. now rewrite Len.
    + cbn [forallb]. now rewrite P, P'.
    + rewrite F', F. cbn [map]. now rewrite <- app_assoc.
Qed.

End Batch.

(** Three holders, the node answering the balance query of the second
    with an error object: the first and the third are reconciled and the
    error of the second is reported between their two daily updates. *)
Example batch_isolation_example :
  fst (updateAllUserRoles erc20Encode sample_world) = Returned tt
  /\ console (snd (updateAllUserRoles erc20Encode sample_world))
     = [ DailyUpdate "ann" "5000" (Js.ascii_text "ZKL");
         UpdateError "Token information retrieval error: RPC request error: execution reverted";
         DailyUpdate "bob#0002" "100000" (Js.ascii_text "ZKL") ]
  /\ map role_name (held_ladder_roles (snd (updateAllUserRoles erc20Encode sample_world)) "101")
     = ["zkLDolphin 🐬"]
  /\ map role_name (held_ladder_roles (snd (updateAllUserRoles erc20Encode sample_world)) "102")
     = []
  /\ map role_name (held_ladder_roles (snd (updateAllUserRoles erc20Encode sample_world)) "103")
     = ["zklHumpback 🐳"].
Proof. vm_compute. repeat split. Qed.

(** ** Narrowing the balance to a number *)

Lemma Qltb_inject_Z (z k : Z) : Js.Qltb (inject_Z z) (inject_Z k) = (z <? k).
Proof.
  unfold Js.Qltb, Qle_bool, inject_Z. cbn [Qnum Qden].
  rewrite !Z.mul_1_r. symmetry. apply Z.ltb_antisym.
Qed.

Lemma tier_of_integer (z : Z) :
  thresholdRoleName (Js.Finite (inject_Z z))
  = Returned (if z <? 5000 then "zklHolder"
              else if z <? 10000 then "zkLDolphin 🐬"
              else if z <? 50000 then "zklShark 🦈"
              else if z <? 100000 then "zklWhale 🐋"
              else "zklHumpback 🐳").
Proof.
  unfold thresholdRoleName, roleThresholds. cbn [find max Js.lt].
  change (Js.Qltb (inject_Z z) 5000) with (Js.Qltb (inject_Z z) (inject_Z 5000)).
  change (Js.Qltb (inject_Z z) 10000) with (Js.Qltb (inject_Z z) (inject_Z 10000)).
  change (Js.Qltb (inject_Z z) 50000) with (Js.Qltb (inject_Z z) (inject_Z 50000)).
  change (Js.Qltb (inject_Z z) 100000) with (Js.Qltb (inject_Z z) (inject_Z 100000)).
  rewrite !Qltb_inject_Z.
  destruct (z <? 5000); [reflexivity|].
  destruct (z <? 10000); [reflexivity|].
  destruct (z <? 50000); [reflexivity|].
  destruct (z <? 100000); reflexivity.
Qed.

Lemma parseFloat_decimal (s : string) :
  Js.nonempty s = true -> Js.all_digits s = true ->
  Js.parseFloat s = match Js.literal 10 s with
                    | Some z => Js.binary64_of_Z z
                    | None => Js.NaN
                    end.
Proof.
  destruct s as [|c s]; [discriminate|]. intros _.
  cbn [Js.all_digits]. intro H. apply andb_prop in H. destruct H as [C _].
  destruct c as [[|] [|] [|] [|] [|] [|] [|] [|]];
    try discriminate C; reflexivity.
Qed.

Lemma parseFloat_BigInt_toString (n : Z) : 0 <= n ->
  Js.parseFloat (Js.BigInt_toString n) = Js.binary64_of_Z n.
Proof.
  intro H. unfold Js.BigInt_toString.
  destruct (n <? 0) eqn:L; [apply Z.ltb_lt in L; lia|].
  pose proof (digits_fuel_enough n H) as F. unfold Js.digits_fuel in *.
  destruct (decimal_digits_spec _ n (conj H F)) as (V & A & N).
  rewrite parseFloat_decimal by assumption.
  unfold Js.literal. now rewrite N, V.
Qed.

Lemma binary64_exact (n : Z) : 0 <= n < 2 ^ 53 ->
  Js.binary64_of_Z n = Js.Finite (inject_Z n).
Proof.
  intros [H0 H1]. unfold Js.binary64_of_Z.
  rewrite (Z.abs_eq n H0).
  assert (E : (Z.log2 n - 52 <=? 0) = true).
  { apply Z.leb_le. destruct (Z.eq_dec n 0) as [->|N]; [cbn; lia|].
    assert (Z.log2 n < 53) by (apply Z.log2_lt_pow2; lia). lia. }
  rewrite E.
  assert (B : (2 ^ 1024 <=? n) = false).
  { apply Z.leb_gt. apply Z.lt_trans with (2 ^ 53); [exact H1|].
    apply Z.pow_lt_mono_r; lia. }
  rewrite B. f_equal. f_equal.
  destruct (Z.eq_dec n 0) as [->|N]; [reflexivity|].
  rewrite Z.sgn_pos by lia. lia.
Qed.

Lemma binary64_large (n : Z) : 2 ^ 53 <= n < 2 ^ 1023 ->
  exists m, Js.binary64_of_Z n = Js.Finite (inject_Z m) /\ 2 ^ 53 <= m.
Proof.
  intros [H0 H1].
  assert (P53 : 0 < 2 ^ 53) by (apply Z.pow_pos_nonneg; lia).
  assert (Hn : 0 < n) by lia.
  unfold Js.binary64_of_Z. rewrite (Z.abs_eq n) by lia.
  pose proof (Z.log2_spec n Hn) as [S0 S1].
  assert (L0 : 53 <= Z.log2 n) by (apply Z.log2_le_pow2; lia).
  assert (L1 : Z.log2 n < 1023) by (apply Z.log2_lt_pow2; lia).
  set (e := Z.log2 n - 52) in *.
  assert (E : (e <=? 0) = false) by (apply Z.leb_gt; lia).
  rewrite E.
  assert (Pe : 2 <= 2 ^ e).
  { change 2 with (2 ^ 1) at 1. apply Z.pow_le_mono_r; lia. }
  assert (S0' : 2 ^ 52 * 2 ^ e <= n).
  { rewrite <- Z.pow_add_r by lia. replace (52 + e) with (Z.log2 n) by lia. exact S0. }
  assert (S1' : n < 2 ^ 53 * 2 ^ e).
  { rewrite <- Z.pow_add_r by lia. replace (53 + e) with (Z.succ (Z.log2 n)) by lia.
    exact S1. }
  rewrite !Z.shiftr_div_pow2 by lia.
  set (q := n / 2 ^ e) in *.
  assert (Q0 : 2 ^ 52 <= q).
  { apply Z.div_le_lower_bound; lia. }
  assert (Q1 : q < 2 ^ 53).
  { apply Z.div_lt_upper_bound; lia. }
  set (q' := if n - Z.shiftl q e <? Z.shiftl 1 (e - 1) then q
             else if Z.shiftl 1 (e - 1) <? n - Z.shiftl q e then q + 1
             else if Z.even q then q else q + 1).
  assert (Q' : q <= q' <= q + 1).
  { unfold q'. destruct (_ <? _); [lia|]. destruct (_ <? _); [lia|].
    destruct (Z.even q); lia. }
  rewrite Z.shiftl_mul_pow2 by lia.
  set (m := q' * 2 ^ e).
  assert (M0 : 2 ^ 53 <= m).
  { unfold m. change (2 ^ 53) with (2 ^ 52 * 2). nia. }
  assert (M1 : m < 2 ^ 1024).
  { unfold m. apply Z.le_lt_trans with (2 ^ 53 * 2 ^ e); [nia|].
    rewrite <- Z.pow_add_r by lia. apply Z.pow_lt_mono_r; lia. }
  assert (B : (2 ^ 1024 <=? m) = false) by (apply Z.leb_gt; exact M1).
  rewrite B. exists m. split; [|exact M0].
  rewrite Z.sgn_pos by lia. now rewrite Z.mul_1_l.
Qed.

(** The drivers pass [parseFloat] of the oracle's decimal string to the
    reconciler: for a balance below 2^1023 (any [uint256] is) the number
    so obtained falls in the same tier as the exact integer. *)
Lemma rounding_keeps_tier (n : Z) : 0 <= n < 2 ^ 1023 ->
  thresholdRoleName (Js.parseFloat (Js.BigInt_toString n))
  = thresholdRoleName (Js.Finite (inject_Z n)).
Proof.
  intros [H0 H1]. rewrite parseFloat_BigInt_toString by exact H0.
  destruct (Z.lt_ge_cases n (2 ^ 53)) as [S|L].
  - now rewrite binary64_exact.
  - destruct (binary64_large n (conj L H1)) as (m & -> & M).
    rewrite !tier_of_integer.
    assert (P : 100000 < 2 ^ 53) by reflexivity.
    assert (Fm : (m <? 5000) = false /\ (m <? 10000) = false
                 /\ (m <? 50000) = false /\ (m <? 100000) = false)
      by (repeat split; apply Z.ltb_ge; lia).
    assert (Fn : (n <? 5000) = false /\ (n <? 10000) = false
                 /\ (n <? 50000) = false /\ (n <? 100000) = false)
      by (repeat split; apply Z.ltb_ge; lia).
    destruct Fm as (-> & -> & -> & ->). destruct Fn as (-> & -> & -> & ->).
    reflexivity.
Qed.

(** ** The statements at concrete inputs *)

Lemma normalized_balance_is_floor_witness :
  exists token,
    fst (getTokenBalance erc20Encode holder1 tokenContractAddress large_balance_world)
    = Returned token
    /\ balance token = "123456789012"
    /\ Js.StringToBigInt (balance token) = Some 123456789012.
Proof.
  destruct (normalized_balance_is_floor erc20Encode holder1 tokenContractAddress
              "0x70a082310000000000000000000000001111111111111111111111111111111111111111"
              "0x313ce567" "0x95d89b41"
              "0x18ee90ff6c373e0ee4e3f0ad2" "0x12" "0x5a4b4c0000000000000000000000000000"
              123456789012345678901234567890 18 large_balance_world
              ltac:(vm_compute; reflexivity) ltac:(vm_compute; reflexivity)
              ltac:(vm_compute; reflexivity) ltac:(vm_compute; reflexivity)
              ltac:(vm_compute; reflexivity) ltac:(vm_compute; reflexivity)
              ltac:(vm_compute; reflexivity) ltac:(discriminate)
              ltac:(vm_compute; reflexivity) ltac:(discriminate))
    as (token & R & B & P & _).
  exists token. split; [exact R|]. split.
  - rewrite B. vm_compute. reflexivity.
  - rewrite P. vm_compute. reflexivity.
Defined.

Lemma reconciliation_leaves_one_ladder_role_witness :
  coherent sample_world = true
  /\ thresholdRoleName (Js.Finite 7500) = Returned "zkLDolphin 🐬"
  /\ map role_name
       (held_ladder_roles (snd (assignRoleByBalance ann (Js.Finite 7500) [] sample_world))
          "101") = ["zkLDolphin 🐬"].
Proof.
  split; [reflexivity|].
  destruct (reconciliation_leaves_one_ladder_role ann (Js.Finite 7500) [] sample_world
              (snd (assignRoleByBalance ann (Js.Finite 7500) [] sample_world))
              {| assigned_roleName := "zkLDolphin 🐬";
                 assigned_balance := Js.Finite 7500; assigned_symbol := [] |}
              eq_refl eq_refl eq_refl) as (T & H & _).
  split; [exact T|exact H].
Defined.

Lemma reconciler_removes_every_ladder_role_witness :
  exists issued role,
    calls (snd (assignRoleByBalance ann (Js.Finite 100) [] sample_world))
    = (calls sample_world ++ issued)%list
    /\ removed issued = [1]
    /\ (forall r,
          In r (Discord.resolve_roles (guild_roles sample_world) (member_roles ann)) ->
          role_name r = "zklHolder" -> In (role_id r) (removed issued))
    /\ role_name role = "zklHolder"
    /\ last issued (RolesAdd "101" (role_id role)) = RolesAdd "101" (role_id role)
    /\ In (RolesAdd "101" (role_id role)) issued.
Proof.
  exact (reconciler_removes_every_ladder_role ann (Js.Finite 100) [] sample_world
           (snd (assignRoleByBalance ann (Js.Finite 100) [] sample_world))
           {| assigned_roleName := "zklHolder";
              assigned_balance := Js.Finite 100; assigned_symbol := [] |}
           eq_refl).
Defined.

Lemma rpcCall_returns_missing_result_witness :
  fst (rpcCall tokenContractAddress "0x313ce567" (empty_world silent_node))
  = Returned VUndefined
  /\ exists reason,
       fst (getTokenBalance erc20Encode holder1 tokenContractAddress
              (empty_world silent_node))
       = Thrown (Error ("Token information retrieval error: " ++ reason)).
Proof.
  apply (rpcCall_returns_missing_result erc20Encode holder1 tokenContractAddress
           "0x70a082310000000000000000000000001111111111111111111111111111111111111111"
           "0x313ce567" "0x95d89b41" "0x313ce567" (empty_world silent_node));
    try reflexivity.
  right. left. reflexivity.
Defined.

Lemma name_lookup_returns_first_match_witness :
  fst (resolveUserId asciiToLowerCase "BOB" sample_world) = Returned (Some "102")
  /\ fst (resolveUserId asciiToLowerCase "bob#0002" sample_world) = Returned (Some "103")
  /\ fst (resolveUserId asciiToLowerCase "carol" sample_world) = Returned None.
Proof.
  split; [|split].
  - exact (proj1 (name_lookup_returns_first_match asciiToLowerCase "BOB" sample_world
                    eq_refl eq_refl) eq_refl).
  - exact (proj1 (name_lookup_returns_first_match asciiToLowerCase "bob#0002" sample_world
                    eq_refl eq_refl) eq_refl).
  - apply (proj1 (proj2 (name_lookup_returns_first_match asciiToLowerCase "carol"
                           sample_world eq_refl eq_refl)) eq_refl).
    intros m [<- | [<- | [<- | []]]]; reflexivity.
Defined.

Lemma mention_resolves_without_lookup_witness :
  Discord.find_member "999" (guild_members sample_world) = None
  /\ resolveUserId asciiToLowerCase "<@999>" sample_world
     = (Returned (Some "999"), sample_world)
  /\ resolveUserId asciiToLowerCase "<@!999>" sample_world
     = (Returned (Some "999"), sample_world)
  /\ fst (resolveUserId asciiToLowerCase "999" sample_world) = Returned None.
Proof.
  destruct (mention_resolves_without_lookup asciiToLowerCase "999" sample_world eq_refl)
    as (P & N & _ & _ & B).
  split; [reflexivity|]. split; [exact P|]. split; [exact N|].
  apply B. reflexivity.
Defined.

(** * Further properties of the program *)

(** ** Decoding and encoding *)

Lemma BigInt_toString_reads_back (n : Z) :
  Js.StringToBigInt (Js.BigInt_toString n) = Some n.
Proof.
  destruct (Z.lt_ge_cases n 0) as [L|G].
  - unfold Js.BigInt_toString.
    assert (E : (n <? 0) = true) by now apply Z.ltb_lt.
    rewrite E.
    assert (P : 0 <= - n) by lia.
    pose proof (digits_fuel_enough (- n) P) as F. unfold Js.digits_fuel in *.
    destruct (decimal_digits_spec _ (- n) (conj P F)) as (V & A & N).
    rewrite StringToBigInt_plain
      by (cbn [plain]; now rewrite (all_digits_plain _ A)).
    change (Js.StrIntegerLiteral (String "-" ?ds))
      with (option_map Z.opp (Js.literal 10 ds)).
    unfold Js.literal. rewrite N, V. cbn [option_map]. f_equal. lia.
  - now apply BigInt_toString_StringToBigInt.
Qed.

(** X1. On a string, [decodeHexToDecimal] returns exactly when the string
    reads as an integer, the white space around the literal set aside;
    what it returns is the decimal writing of that integer, which reads
    back as the same integer and which the function leaves as it is.  On
    a string that does not read as an integer it throws the [SyntaxError]
    of [BigInt], and on [undefined] and [null] a [TypeError]. *)
Theorem decodeHexToDecimal_keeps_value :
  (forall s d, decodeHexToDecimal (VString s) = Returned d ->
     exists n, Js.StringToBigInt s = Some n
               /\ d = Js.BigInt_toString n
               /\ Js.StringToBigInt d = Some n
               /\ decodeHexToDecimal (VString d) = Returned d)
  /\ (forall s n, Js.StringToBigInt s = Some n ->
        decodeHexToDecimal (VString s) = Returned (Js.BigInt_toString n))
  /\ (forall s, Js.StringToBigInt s = None ->
        decodeHexToDecimal (VString s)
        = Thrown (SyntaxError ("Cannot convert " ++ s ++ " to a BigInt")))
  /\ decodeHexToDecimal VUndefined
     = Thrown (TypeError "Cannot convert undefined to a BigInt")
  /\ decodeHexToDecimal VNull = Thrown (TypeError "Cannot convert null to a BigInt").
Proof.
  assert (Reads : forall s n, Js.StringToBigInt s = Some n ->
            decodeHexToDecimal (VString s) = Returned (Js.BigInt_toString n)).
  { intros s n P. unfold decodeHexToDecimal. cbn [Js.BigInt]. now rewrite P. }
  split; [|split; [exact Reads|split; [|split; reflexivity]]].
  - intros s d H. unfold decodeHexToDecimal in H. cbn [Js.BigInt] in H.
    destruct (Js.StringToBigInt s) as [n|] eqn:P; cbn [obind] in H;
      [|discriminate H].
    injection H as <-. exists n.
    pose proof (BigInt_toString_reads_back n) as B.
    repeat split; [exact B|]. now apply Reads.
  - intros s P. unfold decodeHexToDecimal. cbn [Js.BigInt]. now rewrite P.
Qed.

Lemma decodeHexToDecimal_keeps_value_witness :
  decodeHexToDecimal (VString "0x10f0cf064dd59200000")
  = Returned "5000000000000000000000"
  /\ decodeHexToDecimal (VString " 0x10 ") = Returned "16"
  /\ decodeHexToDecimal (VString "0x")
     = Thrown (SyntaxError ("Cannot convert " ++ "0x" ++ " to a BigInt")).
Proof.
  destruct decodeHexToDecimal_keeps_value as (_ & R & T & _). split; [|split].
  - pose proof (R "0x10f0cf064dd59200000" 5000000000000000000000
                  ltac:(vm_compute; reflexivity)) as H.
    rewrite H. vm_compute. reflexivity.
  - pose proof (R " 0x10 " 16 ltac:(vm_compute; reflexivity)) as H.
    rewrite H. vm_compute. reflexivity.
  - exact (T "0x" eq_refl).
Defined.

Lemma Buffer_toString_hex_length (bs : list byte) :
  String.length (Js.Buffer_toString_hex bs) = (2 * List.length bs)%nat.
Proof.
  induction bs as [|b bs IH]; [reflexivity|].
  cbn [Js.Buffer_toString_hex Js.hex_of_byte append String.length List.length].
  rewrite IH. lia.
Qed.

Section Encoding.

Variable simpleEncode : string -> list string -> outcome (list byte).

(** X2. The call data built by [encodeFunctionCall] is [0x] followed by
    two hex digits per encoded byte, and reading those digits gives the
    encoded bytes back; a failure of the encoder is passed on as it is. *)
Theorem encodeFunctionCall_hex_round_trip (signature : string) (params : list string) :
  (forall encoded, simpleEncode signature params = Returned encoded ->
     exists hex,
       encodeFunctionCall simpleEncode signature params = Returned ("0x" ++ hex)
       /\ hex_bytes hex = Some encoded
       /\ Js.Buffer_from_hex hex = encoded
       /\ String.length hex = (2 * List.length encoded)%nat)
  /\ (forall e, simpleEncode signature params = Thrown e ->
        encodeFunctionCall simpleEncode signature params = Thrown e).
Proof.
  split.
  - intros encoded E. exists (Js.Buffer_toString_hex encoded).
    unfold encodeFunctionCall. rewrite E. cbn [obind].
    pose proof (Buffer_toString_hex_bytes encoded) as H.
    repeat split; [exact H| |apply Buffer_toString_hex_length].
    exact (hex_bytes_Buffer_from_hex _ _ _ (le_n _) H).
  - intros e E. unfold encodeFunctionCall. now rewrite E.
Qed.

End Encoding.

Lemma encodeFunctionCall_hex_round_trip_witness :
  exists hex,
    encodeFunctionCall erc20Encode SYMBOL_SIGNATURE [] = Returned ("0x" ++ hex)
    /\ hex_bytes hex = Some [x95; xd8; x9b; x41]
    /\ Js.Buffer_from_hex hex = [x95; xd8; x9b; x41]
    /\ String.length hex = (2 * List.length [x95; xd8; x9b; x41])%nat.
Proof.
  exact (proj1 (encodeFunctionCall_hex_round_trip erc20Encode SYMBOL_SIGNATURE [])
           [x95; xd8; x9b; x41] eq_refl).
Defined.

(** ** The RPC client *)

(** X3. Whatever the node does, [rpcCall] sends exactly one request and
    changes nothing else; it returns the [result] field of an answer
    without error object, and every failure, a rejected request or an
    error object, is an [Error] whose message is "RPC request error: "
    followed by the reason. *)
Theorem rpcCall_one_request (to data : string) (w : World) :
  snd (rpcCall to data w) = record_call (EthCall to data) (faults w) w
  /\ (forall v, fst (rpcCall to data w) = Returned v ->
        node w to data = Responded {| body_error := None; body_result := v |})
  /\ (forall e, fst (rpcCall to data w) = Thrown e ->
        exists reason,
          e = Error ("RPC request error: " ++ reason)
          /\ (node w to data = Rejected reason
              \/ exists v, node w to data
                           = Responded {| body_error := Some reason; body_result := v |})).
Proof.
  unfold rpcCall, try_catch, bind, axios_post, throw, ret.
  destruct (node w to data) as [reason|[[reason|] v]]; cbn [fst snd body_error body_result message].
  - split; [reflexivity|]. split; [discriminate|].
    intros e [= <-]. exists reason. split; [reflexivity|now left].
  - split; [reflexivity|]. split; [discriminate|].
    intros e [= <-]. exists reason. split; [reflexivity|]. right. now exists v.
  - split; [reflexivity|]. split; [|discriminate].
    now intros v' [= <-].
Qed.

Lemma rpcCall_one_request_witness :
  exists reason,
    Error "RPC request error: execution reverted" = Error ("RPC request error: " ++ reason)
    /\ (node sample_world tokenContractAddress
          "0x70a082310000000000000000000000002222222222222222222222222222222222222222"
        = Rejected reason
        \/ exists v, node sample_world tokenContractAddress
                       "0x70a082310000000000000000000000002222222222222222222222222222222222222222"
                     = Responded {| body_error := Some reason; body_result := v |}).
Proof.
  exact (proj2 (proj2 (rpcCall_one_request tokenContractAddress
           "0x70a082310000000000000000000000002222222222222222222222222222222222222222"
           sample_world))
           (Error "RPC request error: execution reverted")
           ltac:(vm_compute; reflexivity)).
Defined.

(** ** The balance oracle *)

Section OracleRequests.

Variable simpleEncode : string -> list string -> outcome (list byte).

(** X4. With the three calls encoded, [getTokenBalance] sends the balance,
    decimals and symbol queries in that order to the token contract and
    stops at the first one that fails: it sends one query when the balance
    query is not answered, two when the decimals query is not, three
    otherwise, and changes nothing else.  It returns only when all three
    are answered, and whatever fails, it throws an [Error] whose message
    starts with "Token information retrieval error: "; when a query fails,
    the message goes on with "RPC request error: " and the reason. *)
Theorem getTokenBalance_requests
    (userAddr tokenAddr balanceData decimalsData symbolData : string) (w : World) :
  encodeFunctionCall simpleEncode BALANCE_OF_SIGNATURE [userAddr] = Returned balanceData ->
  encodeFunctionCall simpleEncode DECIMALS_SIGNATURE [] = Returned decimalsData ->
  encodeFunctionCall simpleEncode SYMBOL_SIGNATURE [] = Returned symbolData ->
  snd (getTokenBalance simpleEncode userAddr tokenAddr w)
  = fold_left (fun w' c => record_call c (faults w') w')
      (firstn (queries_sent w tokenAddr balanceData decimalsData)
         [EthCall tokenAddr balanceData; EthCall tokenAddr decimalsData;
          EthCall tokenAddr symbolData]) w
  /\ (forall token,
        fst (getTokenBalance simpleEncode userAddr tokenAddr w) = Returned token ->
        answered w tokenAddr balanceData = true
        /\ answered w tokenAddr decimalsData = true
        /\ answered w tokenAddr symbolData = true)
  /\ (forall e,
        fst (getTokenBalance simpleEncode userAddr tokenAddr w) = Thrown e ->
        exists reason, e = Error ("Token information retrieval error: " ++ reason))
  /\ (forall reason,
        refused w tokenAddr balanceData reason ->
        getTokenBalance simpleEncode userAddr tokenAddr w
        = (Thrown (Error ("Token information retrieval error: RPC request error: "
                          ++ reason)),
           record_call (EthCall tokenAddr balanceData) (faults w) w))
  /\ (forall reason,
        answered w tokenAddr balanceData = true ->
        refused w tokenAddr decimalsData reason ->
        getTokenBalance simpleEncode userAddr tokenAddr w
        = (Thrown (Error ("Token information retrieval error: RPC request error: "
                          ++ reason)),
           record_call (EthCall tokenAddr decimalsData) (faults w)
             (record_call (EthCall tokenAddr balanceData) (faults w) w)))
  /\ (forall reason,
        answered w tokenAddr balanceData = true ->
        answered w tokenAddr decimalsData = true ->
        refused w tokenAddr symbolData reason ->
        getTokenBalance simpleEncode userAddr tokenAddr w
        = (Thrown (Error ("Token information retrieval error: RPC request error: "
                          ++ reason)),
           record_call (EthCall tokenAddr symbolData) (faults w)
             (record_call (EthCall tokenAddr decimalsData) (faults w)
                (record_call (EthCall tokenAddr balanceData) (faults w) w)))).
Proof.
  intros Eb Ed Es.
  assert (Refused : forall to data reason w0,
            refused w0 to data reason ->
            rpcCall to data w0
            = (Thrown (Error ("RPC request error: " ++ reason)),
               record_call (EthCall to data) (faults w0) w0)).
  { intros to data reason w0 [F|[v F]];
      [now apply rpcCall_rejected|now apply (rpcCall_error _ _ _ _ v)]. }
  assert (NotAnswered : forall to data reason,
            refused w to data reason -> answered w to data = false).
  { intros to data reason [F|[v F]]; unfold answered; now rewrite F. }
  assert (Answer : forall to data,
            answered w to data = true ->
            exists v, node w to data
                      = Responded {| body_error := None; body_result := v |}).
  { intros to data. unfold answered.
    destruct (node w to data) as [r|[[r|] v]]; try discriminate. now exists v. }
  assert (Decide : forall to data,
            answered w to data = true \/ exists reason, refused w to data reason).
  { intros to data. unfold answered, refused.
    destruct (node w to data) as [r|[[r|] v]]; eauto. }
  set (w1 := record_call (EthCall tokenAddr balanceData) (faults w) w).
  set (w2 := record_call (EthCall tokenAddr decimalsData) (faults w1) w1).
  set (w3 := record_call (EthCall tokenAddr symbolData) (faults w2) w2).
  (* the balance query fails *)
  assert (Fail1 : forall reason,
            refused w tokenAddr balanceData reason ->
            getTokenBalance simpleEncode userAddr tokenAddr w
            = (Thrown (Error ("Token information retrieval error: RPC request error: "
                              ++ reason)), w1)).
  { intros reason F. unfold getTokenBalance, try_catch, bind, lift. rewrite Eb.
    now rewrite (Refused _ _ _ _ F). }
  (* the decimals query fails *)
  assert (Fail2 : forall reason,
            answered w tokenAddr balanceData = true ->
            refused w tokenAddr decimalsData reason ->
            getTokenBalance simpleEncode userAddr tokenAddr w
            = (Thrown (Error ("Token information retrieval error: RPC request error: "
                              ++ reason)), w2)).
  { intros reason A F. destruct (Answer _ _ A) as (v1 & N1).
    unfold getTokenBalance, try_catch, bind, lift. rewrite Eb.
    rewrite (rpcCall_result _ _ _ _ N1). fold w1. rewrite Ed.
    now rewrite (Refused tokenAddr decimalsData reason w1 F). }
  (* the symbol query fails *)
  assert (Fail3 : forall reason,
            answered w tokenAddr balanceData = true ->
            answered w tokenAddr decimalsData = true ->
            refused w tokenAddr symbolData reason ->
            getTokenBalance simpleEncode userAddr tokenAddr w
            = (Thrown (Error ("Token information retrieval error: RPC request error: "
                              ++ reason)), w3)).
  { intros reason A1 A2 F.
    destruct (Answer _ _ A1) as (v1 & N1). destruct (Answer _ _ A2) as (v2 & N2).
    unfold getTokenBalance, try_catch, bind, lift. rewrite Eb.
    rewrite (rpcCall_result _ _ _ _ N1). fold w1. rewrite Ed.
    rewrite (rpcCall_result tokenAddr decimalsData w1 v2 N2). fold w2. rewrite Es.
    now rewrite (Refused tokenAddr symbolData reason w2 F). }
  (* the three queries are answered *)
  assert (Sent3 : answered w tokenAddr balanceData = true ->
                  answered w tokenAddr decimalsData = true ->
                  answered w tokenAddr symbolData = true ->
                  snd (getTokenBalance simpleEncode userAddr tokenAddr w) = w3
                  /\ forall e,
                       fst (getTokenBalance simpleEncode userAddr tokenAddr w) = Thrown e ->
                       exists reason,
                         e = Error ("Token information retrieval error: " ++ reason)).
  { intros A1 A2 A3.
    destruct (Answer _ _ A1) as (v1 & N1). destruct (Answer _ _ A2) as (v2 & N2).
    destruct (Answer _ _ A3) as (v3 & N3).
    unfold getTokenBalance, try_catch, bind, lift. rewrite Eb.
    rewrite (rpcCall_result _ _ _ _ N1). fold w1. rewrite Ed.
    rewrite (rpcCall_result tokenAddr decimalsData w1 v2 N2). fold w2. rewrite Es.
    rewrite (rpcCall_result tokenAddr symbolData w2 v3 N3). fold w3.
    destruct (decodeHexToDecimal v1) as [d1|e1];
      [|split; [reflexivity|intros e [= <-]; eexists; reflexivity]].
    destruct (decodeHexToDecimal v2) as [d2|e2];
      [|split; [reflexivity|intros e [= <-]; eexists; reflexivity]].
    destruct (decodeHexToString v3) as [t3|e3];
      [|split; [reflexivity|intros e [= <-]; eexists; reflexivity]].
    destruct (Js.BigInt v1) as [b|e4];
      [|split; [reflexivity|intros e [= <-]; eexists; reflexivity]].
    destruct (Js.BigInt (VString d2)) as [x|e5];
      [|split; [reflexivity|intros e [= <-]; eexists; reflexivity]].
    destruct (Js.BigInt_pow 10 x) as [p|e6];
      [|split; [reflexivity|intros e [= <-]; eexists; reflexivity]].
    destruct (Js.BigInt_div b p) as [q|e7];
      (split; [reflexivity|]); [discriminate|intros e [= <-]; eexists; reflexivity]. }
  split; [|split; [|split; [|split; [exact Fail1|split; [exact Fail2|exact Fail3]]]]].
  - unfold queries_sent.
    destruct (Decide tokenAddr balanceData) as [A1|[r F1]].
    2: { rewrite (NotAnswered _ _ _ F1), (Fail1 r F1). reflexivity. }
    rewrite A1.
    destruct (Decide tokenAddr decimalsData) as [A2|[r F2]].
    2: { rewrite (NotAnswered _ _ _ F2), (Fail2 r A1 F2). reflexivity. }
    rewrite A2.
    destruct (Decide tokenAddr symbolData) as [A3|[r F3]].
    2: { rewrite (Fail3 r A1 A2 F3). reflexivity. }
    now destruct (Sent3 A1 A2 A3) as [-> _].
  - intros token R.
    destruct (Decide tokenAddr balanceData) as [A1|[r F1]];
      [|rewrite (Fail1 r F1) in R; discriminate R].
    destruct (Decide tokenAddr decimalsData) as [A2|[r F2]];
      [|rewrite (Fail2 r A1 F2) in R; discriminate R].
    destruct (Decide tokenAddr symbolData) as [A3|[r F3]];
      [|rewrite (Fail3 r A1 A2 F3) in R; discriminate R].
    now repeat split.
  - intros e T.
    destruct (Decide tokenAddr balanceData) as [A1|[r F1]];
      [|rewrite (Fail1 r F1) in T; injection T as <-; eexists; reflexivity].
    destruct (Decide tokenAddr decimalsData) as [A2|[r F2]];
      [|rewrite (Fail2 r A1 F2) in T; injection T as <-; eexists; reflexivity].
    destruct (Decide tokenAddr symbolData) as [A3|[r F3]];
      [|rewrite (Fail3 r A1 A2 F3) in T; injection T as <-; eexists; reflexivity].
    now apply (proj2 (Sent3 A1 A2 A3)).
Qed.

End OracleRequests.

Lemma getTokenBalance_requests_witness :
  queries_sent sample_world tokenContractAddress
    "0x70a082310000000000000000000000002222222222222222222222222222222222222222"
    "0x313ce567" = 1%nat
  /\ snd (getTokenBalance erc20Encode holder2 tokenContractAddress sample_world)
     = fold_left (fun w' c => record_call c (faults w') w')
         (firstn
            (queries_sent sample_world tokenContractAddress
               "0x70a082310000000000000000000000002222222222222222222222222222222222222222"
               "0x313ce567")
            [EthCall tokenContractAddress
               "0x70a082310000000000000000000000002222222222222222222222222222222222222222";
             EthCall tokenContractAddress "0x313ce567";
             EthCall tokenContractAddress "0x95d89b41"]) sample_world.
Proof.
  split; [vm_compute; reflexivity|].
  apply (getTokenBalance_requests erc20Encode holder2 tokenContractAddress
           "0x70a082310000000000000000000000002222222222222222222222222222222222222222"
           "0x313ce567" "0x95d89b41" sample_world);
    vm_compute; reflexivity.
Defined.

(** ** The reconciler: what it changes and what it leaves *)

Lemma find_member_update_other (id id' : string) (f : list Z -> list Z)
    (ms : list GuildMember) :
  id' <> id ->
  Discord.find_member id' (Discord.update_member id f ms) = Discord.find_member id' ms.
Proof.
  intro N. unfold Discord.find_member, Discord.update_member.
  induction ms as [|m ms IH]; [reflexivity|].
  cbn [map find]. destruct (String.eqb (member_id m) id) eqn:E.
  - cbn [member_id]. apply String.eqb_eq in E.
    assert (F : String.eqb (member_id m) id' = false).
    { apply String.eqb_neq. congruence. }
    now rewrite F.
  - now rewrite IH.
Qed.

Lemma roles_remove_cases (member : GuildMember) (role : Role) (w : World) :
  Discord.roles_remove member role w
  = (Returned tt,
     set_members
       (Discord.update_member (member_id member)
          (filter (fun id => negb (id =? role_id role))) (guild_members w))
       (record_call (RolesRemove (member_id member) (role_id role)) (tl (faults w)) w))
  \/ (exists e,
        Discord.roles_remove member role w
        = (Thrown e,
           record_call (RolesRemove (member_id member) (role_id role)) (tl (faults w)) w)).
Proof.
  unfold Discord.roles_remove, bind, Discord.request.
  destruct (faults w) as [|[|] fs]; cbn [tl];
    [left; reflexivity|right; eexists; reflexivity|left; reflexivity].
Qed.

(** The loop that removes roles, completed or not: it has removed some
    of the roles it was given, all of them when it completes, from that
    member only, and the roles of the guild are as before. *)
Lemma remove_loop_any (member : GuildMember) : forall (rs : list Role) (w : World),
  exists done,
    incl done (map role_id rs)
    /\ (forall u, fst (for_of rs (Discord.roles_remove member) w) = Returned u ->
          done = map role_id rs)
    /\ guild_roles (snd (for_of rs (Discord.roles_remove member) w)) = guild_roles w
    /\ next_snowflake (snd (for_of rs (Discord.roles_remove member) w)) = next_snowflake w
    /\ (forall id', id' <> member_id member ->
          Discord.find_member id'
            (guild_members (snd (for_of rs (Discord.roles_remove member) w)))
          = Discord.find_member id' (guild_members w))
    /\ (forall m0, Discord.find_member (member_id member) (guild_members w) = Some m0 ->
          exists m1,
            Discord.find_member (member_id member)
              (guild_members (snd (for_of rs (Discord.roles_remove member) w)))
            = Some m1
            /\ member_roles m1
               = filter (fun i => negb (existsb (Z.eqb i) done)) (member_roles m0)).
Proof.
  induction rs as [|r rs IH]; intro w.
  - exists []. cbn [for_of ret fst snd map]. repeat split; try reflexivity.
    + apply incl_refl.
    + intros m0 F. exists m0. split; [exact F|]. cbn [existsb negb].
      now rewrite filter_all.
  - cbn [for_of]. unfold bind.
    destruct (roles_remove_cases member r w) as [R|[e R]]; rewrite R; clear R.
    + match goal with |- context [for_of rs _ ?w1] =>
        destruct (IH w1) as (done & I & A & G & N & O & M) end.
      cbn [guild_roles next_snowflake guild_members set_members record_call] in *.
      exists (role_id r :: done). cbn [map]. split; [|split; [|split; [|split; [|split]]]].
      * intros i [<-|Ii]; [now left|right; now apply I].
      * intros u H. now rewrite (A u H).
      * exact G.
      * exact N.
      * intros id' D. rewrite (O id' D). now apply find_member_update_other.
      * intros m0 F. rewrite find_member_update, F in M. cbn [option_map] in M.
        destruct (M _ eq_refl) as (m1 & F1 & E1). exists m1. split; [exact F1|].
        rewrite E1. cbn [member_roles existsb]. rewrite filter_filter.
        apply filter_ext. intro i. now rewrite negb_orb, (Z.eqb_sym i).
    + exists []. cbn [fst snd guild_roles next_snowflake guild_members record_call].
      repeat split; try reflexivity.
      * intros i [].
      * discriminate.
      * intros m0 F. exists m0. split; [exact F|]. cbn [existsb negb].
        now rewrite filter_all.
Qed.

Lemma held_ladder_ids_spec (rs : list Role) (ids : list Z) (i : Z) :
  In i ids ->
  existsb (Z.eqb i) (held_ladder_ids rs ids) = true
  <-> exists r, Discord.find_role i rs = Some r /\ on_ladder r = true.
Proof.
  intro Ii. split.
  - intro H. apply existsb_exists in H. destruct H as (j & Ij & E).
    apply Z.eqb_eq in E. subst j. unfold held_ladder_ids in Ij.
    apply in_map_iff in Ij. destruct Ij as (r & Er & Ir).
    apply filter_In in Ir. destruct Ir as [Ir L].
    unfold Discord.resolve_roles in Ir. apply in_flat_map in Ir.
    destruct Ir as (j & Ij & Irj).
    destruct (Discord.find_role j rs) as [r'|] eqn:F; [|destruct Irj].
    destruct Irj as [<-|[]]. destruct (find_role_some _ _ _ F) as [E _].
    exists r'. split; [congruence|exact L].
  - intros (r & F & L). now apply (ladder_ids_cover rs ids i r).
Qed.

(** The roles left after the removals are the roles held before that are
    not on the ladder, in the same order. *)
Lemma resolve_after_removal (rs : list Role) (ids : list Z) :
  Discord.resolve_roles rs (after_removal rs ids)
  = filter (fun r => negb (on_ladder r)) (Discord.resolve_roles rs ids).
Proof.
  unfold after_removal.
  assert (G : forall i, In i ids ->
                existsb (Z.eqb i) (held_ladder_ids rs ids) = true
                <-> exists r, Discord.find_role i rs = Some r /\ on_ladder r = true)
    by (intros i I; now apply held_ladder_ids_spec).
  revert G. generalize (held_ladder_ids rs ids) as gone. intros gone.
  induction ids as [|i ids IH]; intro G; [reflexivity|].
  assert (G' : forall j, In j ids ->
                 existsb (Z.eqb j) gone = true
                 <-> exists r, Discord.find_role j rs = Some r /\ on_ladder r = true)
    by (intros j I; apply G; now right).
  specialize (IH G'). specialize (G i (or_introl eq_refl)).
  change (Discord.resolve_roles rs (i :: ids))
    with ((match Discord.find_role i rs with Some r => [r] | None => [] end)
          ++ Discord.resolve_roles rs ids)%list.
  rewrite filter_app, <- IH. cbn [filter].
  destruct (existsb (Z.eqb i) gone) eqn:E; cbn [negb].
  - destruct (proj1 G eq_refl) as (r & F & L). rewrite F. cbn [filter].
    now rewrite L.
  - change (Discord.resolve_roles rs (i :: ?l))
      with ((match Discord.find_role i rs with Some r => [r] | None => [] end)
            ++ Discord.resolve_roles rs l)%list.
    f_equal. destruct (Discord.find_role i rs) as [r|] eqn:F; [|reflexivity].
    cbn [filter]. destruct (on_ladder r) eqn:L; [|reflexivity].
    assert (T : false = true) by (apply G; now exists r). discriminate T.
Qed.

Lemma target_absent_found (rs : list Role) (ids : list Z) (role : Role) :
  distinct (map role_id rs) = true -> In role rs -> on_ladder role = true ->
  existsb (Z.eqb (role_id role)) (after_removal rs ids) = false.
Proof.
  intros D I L.
  pose proof (find_role_distinct rs role D I) as FR.
  destruct (existsb _ (after_removal rs ids)) eqn:E; [|reflexivity].
  apply existsb_exists in E. destruct E as (i & Ii & Ei).
  apply Z.eqb_eq in Ei. subst i.
  apply after_removal_In in Ii. destruct Ii as [Ii Ni].
  unfold held_ladder_ids in Ni.
  now rewrite (ladder_ids_cover rs ids _ role Ii FR L) in Ni.
Qed.

Lemma target_absent_created (rs : list Role) (ids : list Z) (next : Z) :
  forallb (fun r => role_id r <? next) rs = true ->
  forallb (fun i => existsb (fun r => role_id r =? i) rs) ids = true ->
  existsb (Z.eqb next) (after_removal rs ids) = false.
Proof.
  intros B K.
  assert (K1 : forallb (fun i => existsb (fun r => role_id r =? i) rs)
                       (after_removal rs ids) = true)
    by now apply forallb_filter.
  destruct (existsb _ (after_removal rs ids)) eqn:E; [|reflexivity].
  apply existsb_exists in E. destruct E as (i & Ii & Ei).
  apply Z.eqb_eq in Ei. subst i.
  rewrite forallb_forall in K1. specialize (K1 next Ii).
  apply existsb_exists in K1. destruct K1 as (r & Ir & Er).
  apply Z.eqb_eq in Er. rewrite forallb_forall in B. specialize (B r Ir).
  apply Z.ltb_lt in B. lia.
Qed.

Lemma find_app_new {A} (f : A -> bool) (l : list A) (x : A) :
  find f l = None -> f x = true -> find f (l ++ [x]) = Some x.
Proof.
  induction l as [|y l IH]; cbn [app find]; intros N T.
  - now rewrite T.
  - destruct (f y); [discriminate N|now apply IH].
Qed.

(** What a completed run leaves: the target role is the first role of
    the guild with the target name, the member holds its former roles that
    are not on the ladder, in order, followed by the target role, and
    nobody else's roles have changed. *)
Lemma completed_run_roles
    (member : GuildMember) (balance : Js.number) (symbol : Js.text)
    (w w' : World) (result : Assignment) :
  coherent w = true ->
  Discord.find_member (member_id member) (guild_members w) = Some member ->
  assignRoleByBalance member balance symbol w = (Returned result, w') ->
  exists role,
    thresholdRoleName balance = Returned (assigned_roleName result)
    /\ role_name role = assigned_roleName result
    /\ on_ladder role = true
    /\ find (fun r => String.eqb (role_name r) (assigned_roleName result)) (guild_roles w')
       = Some role
    /\ held_roles w' (member_id member)
       = (filter (fun r => negb (on_ladder r)) (held_roles w (member_id member))
          ++ [role])%list
    /\ (forall id', id' <> member_id member ->
          Discord.find_member id' (guild_members w')
          = Discord.find_member id' (guild_members w)).
Proof.
  intros Coh Fm H.
  destruct (assignRoleByBalance_returned _ _ _ _ _ _ H)
    as (name & role & w1 & w2 & T & -> & L & Find & Add).
  destruct (coherent_member w _ member Coh Fm) as (D & B & K).
  destruct (remove_loop member _ _ _ _ L) as (G1 & N1 & _ & M1).
  destruct (M1 member Fm) as (m1 & F1 & E1).
  destruct (remove_loop_any member
              (filter on_ladder
                 (Discord.resolve_roles (guild_roles w) (member_roles member))) w)
    as (_ & _ & _ & _ & _ & O1 & _).
  rewrite L in O1. cbn [snd] in O1.
  pose proof (thresholdRoleName_on_ladder _ _ T) as On.
  apply roles_add_returned in Add. subst w'.
  cbn [assigned_roleName]. exists role.
  change (filter (fun i => negb (existsb (Z.eqb i)
                                   (map role_id
                                      (filter on_ladder
                                         (Discord.resolve_roles (guild_roles w)
                                            (member_roles member))))))
                 (member_roles member))
    with (after_removal (guild_roles w) (member_roles member)) in E1.
  unfold held_roles.
  cbn [guild_members guild_roles set_members record_call].
  rewrite find_member_update, Fm.
  destruct Find as [[F ->]|[F C]].
  - pose proof F as F'. apply find_some in F'. destruct F' as [I E].
    apply String.eqb_eq in E. rewrite G1 in I.
    assert (Lr : on_ladder role = true) by now apply (named_on_ladder role name).
    rewrite F1, G1. cbn [option_map member_roles]. rewrite E1.
    split; [exact T|]. split; [exact E|]. split; [exact Lr|].
    split; [now rewrite <- G1|]. split.
    + unfold Discord.with_role.
      rewrite (target_absent_found _ _ _ D I Lr), resolve_roles_app.
      rewrite resolve_after_removal. f_equal.
      unfold Discord.resolve_roles. cbn [flat_map].
      now rewrite (find_role_distinct _ _ D I).
    + intros id' Ne. rewrite find_member_update_other by exact Ne. now apply O1.
  - apply roles_create_returned in C. destruct C as [-> ->].
    cbn [guild_members guild_roles set_roles record_call role_id role_name].
    rewrite F1, G1, N1. cbn [option_map member_roles]. rewrite E1.
    assert (Fresh : forall x, In x (guild_roles w) -> role_id x <> next_snowflake w).
    { intros x I. rewrite forallb_forall in B. specialize (B x I).
      apply Z.ltb_lt in B. lia. }
    split; [exact T|]. split; [reflexivity|]. split; [exact On|]. split; [|split].
    + apply find_app_new; [now rewrite <- G1|]. cbn [role_name]. apply String.eqb_refl.
    + unfold Discord.with_role.
      rewrite (target_absent_created _ _ _ B K), resolve_roles_app.
      assert (K1 : forallb (fun i => existsb (fun r => role_id r =? i) (guild_roles w))
                           (after_removal (guild_roles w) (member_roles member)) = true)
        by now apply forallb_filter.
      rewrite (resolve_roles_known (guild_roles w) _ _ K1).
      rewrite resolve_after_removal. f_equal.
      unfold Discord.resolve_roles. cbn [flat_map].
      pose proof (find_role_new (guild_roles w)
                    {| role_id := next_snowflake w; role_name := name |} Fresh) as FN.
      cbn [role_id] in FN. now rewrite FN.
    + intros id' Ne. rewrite find_member_update_other by exact Ne. now apply O1.
Qed.

(** X5. A reconciliation that completes, on a coherent guild and for a
    member as fetched, leaves the member with the roles it held that are
    not on the ladder, in their order, followed by the target role, which
    is the first role of the guild bearing the resolved name; the roles of
    every other member are untouched. *)
Theorem completed_reconciliation_roles
    (member : GuildMember) (balance : Js.number) (symbol : Js.text)
    (w w' : World) (result : Assignment) :
  coherent w = true ->
  Discord.find_member (member_id member) (guild_members w) = Some member ->
  assignRoleByBalance member balance symbol w = (Returned result, w') ->
  exists role,
    find (fun r => String.eqb (role_name r) (assigned_roleName result)) (guild_roles w')
    = Some role
    /\ held_roles w' (member_id member)
       = (filter (fun r => negb (on_ladder r)) (held_roles w (member_id member))
          ++ [role])%list
    /\ (forall id', id' <> member_id member ->
          Discord.find_member id' (guild_members w')
          = Discord.find_member id' (guild_members w)).
Proof.
  intros Coh Fm H.
  destruct (completed_run_roles _ _ _ _ _ _ Coh Fm H) as (role & _ & _ & _ & F & R & O).
  exists role. repeat split; assumption.
Qed.

Lemma completed_reconciliation_roles_witness :
  exists role,
    find (fun r => String.eqb (role_name r) "zkLDolphin 🐬")
         (guild_roles (snd (assignRoleByBalance ann (Js.Finite 7500) [] sample_world)))
    = Some role
    /\ held_roles (snd (assignRoleByBalance ann (Js.Finite 7500) [] sample_world)) "101"
       = (filter (fun r => negb (on_ladder r)) (held_roles sample_world "101")
          ++ [role])%list
    /\ (forall id', id' <> "101" ->
          Discord.find_member id'
            (guild_members (snd (assignRoleByBalance ann (Js.Finite 7500) [] sample_world)))
          = Discord.find_member id' (guild_members sample_world)).
Proof.
  exact (completed_reconciliation_roles ann (Js.Finite 7500) [] sample_world
           (snd (assignRoleByBalance ann (Js.Finite 7500) [] sample_world))
           {| assigned_roleName := "zkLDolphin 🐬";
              assigned_balance := Js.Finite 7500; assigned_symbol := [] |}
           eq_refl eq_refl eq_refl).
Defined.

Lemma roles_add_cases (member : GuildMember) (role : Role) (w : World) :
  Discord.roles_add member role w
  = (Returned tt,
     set_members
       (Discord.update_member (member_id member)
          (Discord.with_role (role_id role)) (guild_members w))
       (record_call (RolesAdd (member_id member) (role_id role)) (tl (faults w)) w))
  \/ (exists e,
        Discord.roles_add member role w
        = (Thrown e,
           record_call (RolesAdd (member_id member) (role_id role)) (tl (faults w)) w)).
Proof.
  unfold Discord.roles_add, bind, Discord.request.
  destruct (faults w) as [|[|] fs]; cbn [tl];
    [left; reflexivity|right; eexists; reflexivity|left; reflexivity].
Qed.

Lemma roles_create_cases (name : string) (w : World) :
  Discord.roles_create name w
  = (Returned {| role_id := next_snowflake w; role_name := name |},
     set_roles (guild_roles w ++ [ {| role_id := next_snowflake w; role_name := name |} ])%list
       (next_snowflake w + 1)
       (record_call (RolesCreate name) (tl (faults w)) w))
  \/ (exists e,
        Discord.roles_create name w
        = (Thrown e, record_call (RolesCreate name) (tl (faults w)) w)).
Proof.
  unfold Discord.roles_create, bind, Discord.request.
  destruct (faults w) as [|[|] fs]; cbn [tl];
    [left; reflexivity|right; eexists; reflexivity|left; reflexivity].
Qed.

(** X6. A reconciliation that fails grants nothing: whatever the member
    held, afterwards it holds the same roles less some of the ladder roles
    of the fetched member, and the roles of every other member are
    untouched. *)
Theorem failed_reconciliation_grants_nothing
    (member m0 : GuildMember) (balance : Js.number) (symbol : Js.text)
    (w w' : World) (e : exn) :
  assignRoleByBalance member balance symbol w = (Thrown e, w') ->
  Discord.find_member (member_id member) (guild_members w) = Some m0 ->
  exists m1 done,
    Discord.find_member (member_id member) (guild_members w') = Some m1
    /\ incl done (held_ladder_ids (guild_roles w) (member_roles member))
    /\ member_roles m1
       = filter (fun i => negb (existsb (Z.eqb i) done)) (member_roles m0)
    /\ (forall id', id' <> member_id member ->
          Discord.find_member id' (guild_members w')
          = Discord.find_member id' (guild_members w)).
Proof.
  intros H Fm.
  unfold assignRoleByBalance, Discord.roles_cache, Discord.roles_find_by_name in H.
  unfold bind at 1 2 in H. fold on_ladder in H.
  destruct (remove_loop_any member
              (filter on_ladder
                 (Discord.resolve_roles (guild_roles w) (member_roles member))) w)
    as (done & I & _ & _ & _ & O & M).
  destruct (M m0 Fm) as (m1 & F1 & E1).
  assert (Goal : forall w2, guild_members w2
                            = guild_members
                                (snd (for_of
                                        (filter on_ladder
                                           (Discord.resolve_roles (guild_roles w)
                                              (member_roles member)))
                                        (Discord.roles_remove member) w)) ->
            exists m1 done,
              Discord.find_member (member_id member) (guild_members w2) = Some m1
              /\ incl done (held_ladder_ids (guild_roles w) (member_roles member))
              /\ member_roles m1
                 = filter (fun i => negb (existsb (Z.eqb i) done)) (member_roles m0)
              /\ (forall id', id' <> member_id member ->
                    Discord.find_member id' (guild_members w2)
                    = Discord.find_member id' (guild_members w))).
  { intros w2 E. exists m1, done. rewrite E. repeat split; assumption. }
  clear done I O M m1 F1 E1.
  destruct (for_of _ _ w) as [[[]|e1] w1]; cbn [snd] in Goal.
  2:{ injection H as _ <-. now apply Goal. }
  unfold bind at 1, lift in H.
  destruct (thresholdRoleName balance) as [name|e2].
  2:{ injection H as _ <-. now apply Goal. }
  unfold bind at 1 2 in H.
  destruct (find _ (guild_roles w1)) as [role|].
  - unfold ret at 1 in H. unfold bind at 1 in H.
    destruct (roles_add_cases member role w1) as [R|[e3 R]]; rewrite R in H.
    + discriminate H.
    + injection H as _ <-. now apply Goal.
  - destruct (roles_create_cases name w1) as [R|[e3 R]]; rewrite R in H.
    + unfold bind at 1 in H.
      match type of H with context [Discord.roles_add member ?r ?w2] =>
        destruct (roles_add_cases member r w2) as [R'|[e4 R']]; rewrite R' in H end.
      * discriminate H.
      * injection H as _ <-. now apply Goal.
    + injection H as _ <-. now apply Goal.
Qed.

Lemma find_member_id (id : string) (ms : list GuildMember) (m : GuildMember) :
  Discord.find_member id ms = Some m -> member_id m = id.
Proof.
  unfold Discord.find_member. intro H. apply find_some in H.
  destruct H as [_ E]. now apply String.eqb_eq.
Qed.

Lemma filter_twice {A} (f : A -> bool) (l : list A) :
  filter f (filter f l) = filter f l.
Proof.
  rewrite filter_filter. apply filter_ext. intro x. now destruct (f x).
Qed.

(** X7. Reconciling twice with the same balance changes nothing the
    second time: when both runs complete, the second for the member as
    fetched again, the member holds after the second run exactly the roles
    it held after the first, the same label is assigned and no role is
    created. *)
Theorem reconciliation_idempotent
    (member member1 : GuildMember) (balance : Js.number) (symbol symbol1 : Js.text)
    (w w1 w2 : World) (r1 r2 : Assignment) :
  coherent w = true ->
  Discord.find_member (member_id member) (guild_members w) = Some member ->
  assignRoleByBalance member balance symbol w = (Returned r1, w1) ->
  Discord.find_member (member_id member) (guild_members w1) = Some member1 ->
  assignRoleByBalance member1 balance symbol1 w1 = (Returned r2, w2) ->
  held_roles w2 (member_id member) = held_roles w1 (member_id member)
  /\ assigned_roleName r2 = assigned_roleName r1
  /\ guild_roles w2 = guild_roles w1.
Proof.
  intros Coh Fm H1 Fm1 H2.
  pose proof (find_member_id _ _ _ Fm1) as Id. rewrite <- Id in Fm1.
  assert (Coh1 : coherent w1 = true).
  { pose proof (assignRoleByBalance_coherent member balance symbol w Coh) as C.
    now rewrite H1 in C. }
  destruct (completed_run_roles _ _ _ _ _ _ Coh Fm H1)
    as (role1 & T1 & E1 & L1 & F1 & R1 & _).
  destruct (completed_run_roles _ _ _ _ _ _ Coh1 Fm1 H2)
    as (role2 & T2 & E2 & L2 & F2 & R2 & _).
  assert (N : assigned_roleName r2 = assigned_roleName r1) by congruence.
  destruct (assignRoleByBalance_returned _ _ _ _ _ _ H2)
    as (name & role & wa & wb & T & -> & L & Find & Add).
  cbn [assigned_roleName] in *.
  destruct (remove_loop member1 _ _ _ _ L) as (Ga & _ & _ & _).
  assert (Same : guild_roles w2 = guild_roles w1).
  { apply roles_add_returned in Add. subst w2.
    cbn [guild_roles set_members record_call].
    destruct Find as [[_ ->]|[Fn _]]; [exact Ga|].
    rewrite Ga, N, F1 in Fn. discriminate Fn. }
  split; [|split; [exact N|exact Same]].
  rewrite Id in R2. rewrite R2, R1.
  rewrite filter_app, filter_twice. cbn [filter]. rewrite L1. cbn [negb].
  rewrite app_nil_r. f_equal. f_equal.
  rewrite Same, N, F1 in F2. congruence.
Qed.

Lemma reconciliation_idempotent_witness :
  held_roles (snd (assignRoleByBalance ann_refetched (Js.Finite 7500) [] ann_reconciled))
             (member_id ann)
  = held_roles ann_reconciled (member_id ann).
Proof.
  exact (proj1 (reconciliation_idempotent ann ann_refetched
           (Js.Finite 7500) [] [] sample_world ann_reconciled
           (snd (assignRoleByBalance ann_refetched (Js.Finite 7500) [] ann_reconciled))
           {| assigned_roleName := "zkLDolphin 🐬";
              assigned_balance := Js.Finite 7500; assigned_symbol := [] |}
           {| assigned_roleName := "zkLDolphin 🐬";
              assigned_balance := Js.Finite 7500; assigned_symbol := [] |}
           ltac:(vm_compute; reflexivity) ltac:(vm_compute; reflexivity)
           ltac:(vm_compute; reflexivity) ltac:(vm_compute; reflexivity)
           ltac:(vm_compute; reflexivity))).
Defined.

Lemma failed_reconciliation_grants_nothing_witness :
  exists m1 done,
    Discord.find_member (member_id ann)
      (guild_members (snd (assignRoleByBalance ann (Js.Finite 7500) [] flaky_world)))
    = Some m1
    /\ incl done (held_ladder_ids (guild_roles flaky_world) (member_roles ann))
    /\ member_roles m1
       = filter (fun i => negb (existsb (Z.eqb i) done)) (member_roles ann)
    /\ (forall id', id' <> member_id ann ->
          Discord.find_member id'
            (guild_members (snd (assignRoleByBalance ann (Js.Finite 7500) [] flaky_world)))
          = Discord.find_member id' (guild_members flaky_world)).
Proof.
  exact (failed_reconciliation_grants_nothing ann ann (Js.Finite 7500) [] flaky_world
           (snd (assignRoleByBalance ann (Js.Finite 7500) [] flaky_world))
           (DiscordAPIError "request rejected")
           ltac:(vm_compute; reflexivity) ltac:(vm_compute; reflexivity)).
Defined.

(** ** Balances that resolve to no tier *)

Lemma thresholdRoleName_fails_iff (balance : Js.number) :
  (exists e, thresholdRoleName balance = Thrown e)
  <-> balance = Js.NaN \/ balance = Js.PosInfinity.
Proof.
  split.
  - intros [e H]. destruct balance as [q| | |]; [| now right | | now left].
    + exfalso. unfold thresholdRoleName, roleThresholds in H. cbn [find max Js.lt] in H.
      destruct (Js.Qltb q 5000); [discriminate H|].
      destruct (Js.Qltb q 10000); [discriminate H|].
      destruct (Js.Qltb q 50000); [discriminate H|].
      destruct (Js.Qltb q 100000); discriminate H.
    + discriminate H.
  - intros [-> | ->]; eexists; reflexivity.
Qed.

Lemma remove_loop_served (member : GuildMember) : forall (rs : list Role) (w : World),
  faults w = [] ->
  exists w', for_of rs (Discord.roles_remove member) w = (Returned tt, w')
             /\ faults w' = [].
Proof.
  induction rs as [|r rs IH]; intros w F.
  - exists w. now split.
  - cbn [for_of]. unfold bind.
    assert (R : Discord.roles_remove member r w
                = (Returned tt,
                   set_members
                     (Discord.update_member (member_id member)
                        (filter (fun id => negb (id =? role_id r))) (guild_members w))
                     (record_call (RolesRemove (member_id member) (role_id r)) [] w))).
    { unfold Discord.roles_remove, bind, Discord.request. now rewrite F. }
    rewrite R. apply IH. reflexivity.
Qed.

Lemma filter_never {A} (p : A -> bool) (l : list A) :
  filter (fun x => negb (p x) && p x) l = [].
Proof.
  induction l as [|x l IH]; [reflexivity|].
  cbn [filter]. destruct (p x); exact IH.
Qed.

(** X8. Tier resolution fails exactly on NaN and on +Infinity.  Called
    with such a balance, with every request served and for a member as
    fetched, [assignRoleByBalance] throws a [TypeError] after the removals:
    the member is left with its roles that are not on the ladder and with
    no ladder role at all. *)
Theorem unresolvable_balance_strips_ladder_roles
    (member : GuildMember) (balance : Js.number) (symbol : Js.text) (w : World) :
  ((exists e, thresholdRoleName balance = Thrown e)
   <-> balance = Js.NaN \/ balance = Js.PosInfinity)
  /\ (balance = Js.NaN \/ balance = Js.PosInfinity ->
      faults w = [] ->
      Discord.find_member (member_id member) (guild_members w) = Some member ->
      (exists reason,
         fst (assignRoleByBalance member balance symbol w) = Thrown (TypeError reason))
      /\ held_roles (snd (assignRoleByBalance member balance symbol w)) (member_id member)
         = filter (fun r => negb (on_ladder r)) (held_roles w (member_id member))
      /\ held_ladder_roles (snd (assignRoleByBalance member balance symbol w))
           (member_id member) = []).
Proof.
  split; [apply thresholdRoleName_fails_iff|].
  intros B F Fm.
  assert (T : exists reason, thresholdRoleName balance = Thrown (TypeError reason))
    by (destruct B as [-> | ->]; eexists; reflexivity).
  destruct T as [reason T].
  destruct (remove_loop_served member
              (filter on_ladder
                 (Discord.resolve_roles (guild_roles w) (member_roles member))) w F)
    as (w1 & L & _).
  destruct (remove_loop member _ _ _ _ L) as (G1 & _ & _ & M1).
  destruct (M1 member Fm) as (m1 & F1 & E1).
  assert (R : assignRoleByBalance member balance symbol w
              = (Thrown (TypeError reason), w1)).
  { unfold assignRoleByBalance, Discord.roles_cache. unfold bind at 1 2.
    fold on_ladder.
    match goal with |- context [for_of ?l ?f w] =>
      change (for_of l f w) with (for_of l (Discord.roles_remove member) w) end.
    rewrite L. unfold bind at 1, lift. now rewrite T. }
  rewrite R. cbn [fst snd].
  assert (H : held_roles w1 (member_id member)
              = filter (fun r => negb (on_ladder r)) (held_roles w (member_id member))).
  { unfold held_roles. rewrite F1, Fm, G1, E1. apply resolve_after_removal. }
  split; [now exists reason|]. split; [exact H|].
  unfold held_ladder_roles. rewrite H, filter_filter. apply filter_never.
Qed.

Lemma unresolvable_balance_strips_ladder_roles_witness :
  (exists reason,
     fst (assignRoleByBalance ann Js.NaN [] sample_world) = Thrown (TypeError reason))
  /\ held_roles (snd (assignRoleByBalance ann Js.NaN [] sample_world)) (member_id ann)
     = filter (fun r => negb (on_ladder r)) (held_roles sample_world (member_id ann))
  /\ held_ladder_roles (snd (assignRoleByBalance ann Js.NaN [] sample_world))
       (member_id ann) = [].
Proof.
  exact (proj2 (unresolvable_balance_strips_ladder_roles ann Js.NaN [] sample_world)
           (or_introl eq_refl) eq_refl eq_refl).
Defined.

(** ** What the batch keeps and spares *)

Lemma steady_ret {A} (a : A) : steady (ret a).
Proof. intros w C. exact C. Qed.

Lemma steady_throw {A} (e : exn) : steady (@throw A e).
Proof. intros w C. exact C. Qed.

Lemma steady_lift {A} (o : outcome A) : steady (lift o).
Proof. intros w C. exact C. Qed.

Lemma steady_bind {A B} (m : M A) (k : A -> M B) :
  steady m -> (forall a, steady (k a)) -> steady (bind m k).
Proof.
  intros Sm Sk w C. unfold bind. specialize (Sm w C).
  destruct (m w) as [[a|e] w1]; cbn [snd] in *; [|exact Sm].
  now apply Sk.
Qed.

Lemma steady_try_catch {A} (m : M A) (h : exn -> M A) :
  steady m -> (forall e, steady (h e)) -> steady (try_catch m h).
Proof.
  intros Sm Sh w C. unfold try_catch. specialize (Sm w C).
  destruct (m w) as [[a|e] w1]; cbn [snd] in *; [exact Sm|].
  now apply Sh.
Qed.

Lemma steady_for_of {A} (body : A -> M unit) (xs : list A) :
  (forall x, steady (body x)) -> steady (for_of xs body).
Proof.
  intro Sb. induction xs as [|x xs IH]; cbn [for_of].
  - apply steady_ret.
  - apply steady_bind; [apply Sb|intros _; exact IH].
Qed.

Lemma steady_request (c : Call) : steady (Discord.request c).
Proof.
  intros w C. destruct (request_coherent c w) as (E & _). now rewrite E.
Qed.

Lemma steady_members_fetch (id : string) : steady (Discord.members_fetch id).
Proof.
  unfold Discord.members_fetch. apply steady_bind; [apply steady_request|].
  intros _ w C. destruct (Discord.find_member id (guild_members w)); exact C.
Qed.

Lemma steady_rpcCall (to data : string) : steady (rpcCall to data).
Proof.
  intros w C.
  destruct (rpcCall_cases to data w) as [[v [_ R]]|[r R]]; rewrite R; exact C.
Qed.

Lemma steady_console_write (l : ConsoleLine) : steady (console_write l).
Proof. intros w C. exact C. Qed.

Lemma steady_assignRoleByBalance (member : GuildMember) (balance : Js.number)
    (symbol : Js.text) : steady (assignRoleByBalance member balance symbol).
Proof. intros w C. now apply assignRoleByBalance_coherent. Qed.

Lemma spares_ret {A} (id : string) (a : A) : spares id (ret a).
Proof. intro w. reflexivity. Qed.

Lemma spares_throw {A} (id : string) (e : exn) : spares id (@throw A e).
Proof. intro w. reflexivity. Qed.

Lemma spares_lift {A} (id : string) (o : outcome A) : spares id (lift o).
Proof. intro w. reflexivity. Qed.

Lemma spares_bind_when {A B} (id : string) (P : A -> Prop) (m : M A) (k : A -> M B) :
  (forall w a, fst (m w) = Returned a -> P a) ->
  spares id m -> (forall a, P a -> spares id (k a)) -> spares id (bind m k).
Proof.
  intros Pm Sm Sk w. unfold bind. specialize (Sm w). specialize (Pm w).
  destruct (m w) as [[a|e] w1]; cbn [fst snd] in *; [|exact Sm].
  rewrite (Sk a (Pm a eq_refl) w1). exact Sm.
Qed.

Lemma spares_bind {A B} (id : string) (m : M A) (k : A -> M B) :
  spares id m -> (forall a, spares id (k a)) -> spares id (bind m k).
Proof.
  intros Sm Sk. apply (spares_bind_when id (fun _ => True)); auto.
Qed.

Lemma spares_try_catch {A} (id : string) (m : M A) (h : exn -> M A) :
  spares id m -> (forall e, spares id (h e)) -> spares id (try_catch m h).
Proof.
  intros Sm Sh w. unfold try_catch. specialize (Sm w).
  destruct (m w) as [[a|e] w1]; cbn [snd] in *; [exact Sm|].
  rewrite (Sh e w1). exact Sm.
Qed.

Lemma spares_for_of {A} (id : string) (body : A -> M unit) (xs : list A) :
  (forall x, In x xs -> spares id (body x)) -> spares id (for_of xs body).
Proof.
  induction xs as [|x xs IH]; intro Sb; cbn [for_of].
  - apply spares_ret.
  - apply spares_bind; [apply Sb; now left|].
    intros _. apply IH. intros y I. apply Sb. now right.
Qed.

Lemma spares_request (id : string) (c : Call) : spares id (Discord.request c).
Proof.
  intro w. destruct (request_coherent c w) as (_ & _ & _ & E). now rewrite E.
Qed.

Lemma spares_rpcCall (id to data : string) : spares id (rpcCall to data).
Proof.
  intro w.
  destruct (rpcCall_cases to data w) as [[v [_ R]]|[r R]]; now rewrite R.
Qed.

Lemma spares_assignRoleByBalance (id : string) (member : GuildMember)
    (balance : Js.number) (symbol : Js.text) :
  id <> member_id member -> spares id (assignRoleByBalance member balance symbol).
Proof.
  intro Ne. unfold assignRoleByBalance.
  apply spares_bind; [intro w; reflexivity|]. intro cache.
  apply spares_bind.
  { apply spares_for_of. intros r _. unfold Discord.roles_remove.
    apply spares_bind; [apply spares_request|]. intros _ w.
    cbn [snd guild_members set_members]. now apply find_member_update_other. }
  intros _. apply spares_bind; [apply spares_lift|]. intro name.
  apply spares_bind; [intro w; reflexivity|]. intro found.
  apply spares_bind.
  { destruct found; [apply spares_ret|]. unfold Discord.roles_create.
    apply spares_bind; [apply spares_request|]. intros _ w. reflexivity. }
  intro role. apply spares_bind; [|intros _; apply spares_ret].
  unfold Discord.roles_add.
  apply spares_bind; [apply spares_request|]. intros _ w.
  cbn [snd guild_members set_members]. now apply find_member_update_other.
Qed.

Lemma members_fetch_id (id : string) (w : World) (m : GuildMember) :
  fst (Discord.members_fetch id w) = Returned m -> member_id m = id.
Proof.
  unfold Discord.members_fetch, bind.
  destruct (Discord.request (MembersFetch id) w) as [[[]|e] w1]; [|discriminate].
  cbn [fst].
  destruct (Discord.find_member id (guild_members w1)) as [m'|] eqn:F; [|discriminate].
  cbn [fst]. intros [= <-]. now apply (find_member_id id (guild_members w1)).
Qed.

Section BatchInvariants.

Variable simpleEncode : string -> list string -> outcome (list byte).

Lemma steady_getTokenBalance (userAddr tokenAddr : string) :
  steady (getTokenBalance simpleEncode userAddr tokenAddr).
Proof.
  unfold getTokenBalance.
  apply steady_try_catch; [|intro; apply steady_throw].
  repeat (apply steady_bind;
          [first [apply steady_lift | apply steady_rpcCall]|intro]).
  apply steady_ret.
Qed.

Lemma spares_getTokenBalance (id userAddr tokenAddr : string) :
  spares id (getTokenBalance simpleEncode userAddr tokenAddr).
Proof.
  unfold getTokenBalance.
  apply spares_try_catch; [|intro; apply spares_throw].
  repeat (apply spares_bind;
          [first [apply spares_lift | apply spares_rpcCall]|intro]).
  apply spares_ret.
Qed.

Lemma steady_updateRow (row : Row) : steady (updateRow simpleEncode row).
Proof.
  unfold updateRow. apply steady_try_catch; [|intro; apply steady_console_write].
  apply steady_bind; [apply steady_members_fetch|]. intro member.
  apply steady_bind; [apply steady_getTokenBalance|]. intro token.
  apply steady_bind; [apply steady_assignRoleByBalance|].
  intros _. apply steady_console_write.
Qed.

Lemma spares_updateRow (id : string) (row : Row) :
  id <> discord_user_id row -> spares id (updateRow simpleEncode row).
Proof.
  intro Ne. unfold updateRow.
  apply spares_try_catch; [|intros e w; reflexivity].
  apply (spares_bind_when id (fun m => member_id m = discord_user_id row)).
  - intros w m. apply members_fetch_id.
  - unfold Discord.members_fetch. apply spares_bind; [apply spares_request|].
    intros _ w. now destruct (Discord.find_member _ (guild_members w)).
  - intros member E.
    apply spares_bind; [apply spares_getTokenBalance|]. intro token.
    apply spares_bind; [|intros _ w; reflexivity].
    apply spares_assignRoleByBalance. congruence.
Qed.

(** X9. The batch driver keeps the guild coherent: run on a guild whose
    roles have distinct identifiers, below the next one to be handed out,
    and whose members hold roles of the guild only, it leaves such a guild,
    whatever fails on the way. *)
Theorem batch_keeps_coherence (w : World) :
  coherent w = true -> coherent (snd (updateAllUserRoles simpleEncode w)) = true.
Proof.
  revert w. change (steady (updateAllUserRoles simpleEncode)).
  unfold updateAllUserRoles.
  apply steady_try_catch; [|intro; apply steady_console_write].
  intros w C. destruct (negb (guild_cached w)); [exact C|].
  destruct (users_table w) as [reason|[|row rows]]; [exact C|exact C|].
  now apply (steady_for_of (updateRow simpleEncode) (row :: rows) steady_updateRow).
Qed.

(** X10. The batch driver changes the roles of registered holders only:
    a member whose identifier is in no row of the table holds after the
    batch what it held before. *)
Theorem batch_spares_unregistered (id : string) (w : World) :
  (forall rows, users_table w = DbRows rows -> ~ In id (map discord_user_id rows)) ->
  Discord.find_member id (guild_members (snd (updateAllUserRoles simpleEncode w)))
  = Discord.find_member id (guild_members w).
Proof.
  intro H. unfold updateAllUserRoles, try_catch.
  destruct (negb (guild_cached w)); [reflexivity|].
  destruct (users_table w) as [reason|[|row rows]] eqn:T; [reflexivity|reflexivity|].
  specialize (H _ eq_refl).
  assert (S : spares id (for_of (row :: rows) (updateRow simpleEncode))).
  { apply spares_for_of. intros r I. apply spares_updateRow.
    intros ->. apply H. now apply in_map. }
  specialize (S w).
  destruct (for_of (row :: rows) (updateRow simpleEncode) w) as [[[]|e] w1];
    cbn [snd] in *; exact S.
Qed.

End BatchInvariants.

Lemma batch_keeps_coherence_witness :
  coherent (snd (updateAllUserRoles erc20Encode sample_world)) = true.
Proof.
  exact (batch_keeps_coherence erc20Encode sample_world eq_refl).
Defined.

Lemma batch_spares_unregistered_witness :
  Discord.find_member "102"
    (guild_members (snd (updateAllUserRoles erc20Encode two_holders_world)))
  = Discord.find_member "102" (guild_members two_holders_world).
Proof.
  apply (batch_spares_unregistered erc20Encode "102" two_holders_world).
  intros rows [= <-]. cbn [map discord_user_id].
  intros [H|[H|[]]]; discriminate H.
Defined.

(** ** From the oracle's string to the tier *)

Lemma binary64_huge (n : Z) : 2 ^ 1024 <= n -> Js.binary64_of_Z n = Js.PosInfinity.
Proof.
  intro H0.
  assert (P : 0 < 2 ^ 1024) by (apply Z.pow_pos_nonneg; lia).
  assert (Hn : 0 < n) by lia.
  unfold Js.binary64_of_Z. rewrite (Z.abs_eq n) by lia.
  pose proof (Z.log2_spec n Hn) as [S0 S1].
  assert (L0 : 1024 <= Z.log2 n) by (apply Z.log2_le_pow2; lia).
  set (e := Z.log2 n - 52) in *.
  assert (E : (e <=? 0) = false) by (apply Z.leb_gt; lia).
  rewrite E.
  assert (Pe : 0 < 2 ^ e) by (apply Z.pow_pos_nonneg; lia).
  assert (S0' : 2 ^ 52 * 2 ^ e <= n).
  { rewrite <- Z.pow_add_r by lia. replace (52 + e) with (Z.log2 n) by lia. exact S0. }
  rewrite !Z.shiftr_div_pow2 by lia.
  set (q := n / 2 ^ e) in *.
  assert (Q0 : 2 ^ 52 <= q) by (apply Z.div_le_lower_bound; lia).
  set (q' := if n - Z.shiftl q e <? Z.shiftl 1 (e - 1) then q
             else if Z.shiftl 1 (e - 1) <? n - Z.shiftl q e then q + 1
             else if Z.even q then q else q + 1).
  assert (Q' : q <= q') by
    (unfold q'; destruct (_ <? _); [lia|]; destruct (_ <? _); [lia|];
     destruct (Z.even q); lia).
  rewrite Z.shiftl_mul_pow2 by lia.
  assert (M : 2 ^ 1024 <= q' * 2 ^ e).
  { apply Z.le_trans with (2 ^ 52 * 2 ^ e).
    - rewrite <- Z.pow_add_r by lia. apply Z.pow_le_mono_r; lia.
    - apply Z.mul_le_mono_nonneg_r; lia. }
  assert (B : (2 ^ 1024 <=? q' * 2 ^ e) = true) by now apply Z.leb_le.
  rewrite B.
  assert (N : (n <? 0) = false) by (apply Z.ltb_ge; lia).
  now rewrite N.
Qed.

Lemma integer_tier_resolution (z : Z) :
  thresholdRoleName (Js.Finite (inject_Z z)) = Returned (integer_tier z).
Proof. apply tier_of_integer. Qed.

(** X11. The drivers hand [parseFloat] of the oracle's decimal string to
    the reconciler.  For an integer balance below 2^1023 the number so
    obtained resolves to the tier of the exact integer, whatever the
    rounding; from 2^1024 on it is +Infinity and resolves to no tier. *)
Theorem narrowing_keeps_tier (n : Z) :
  (0 <= n < 2 ^ 1023 ->
   thresholdRoleName (Js.parseFloat (Js.BigInt_toString n)) = Returned (integer_tier n))
  /\ (2 ^ 1024 <= n ->
      Js.parseFloat (Js.BigInt_toString n) = Js.PosInfinity
      /\ thresholdRoleName (Js.parseFloat (Js.BigInt_toString n))
         = Thrown (TypeError "Cannot read properties of undefined (reading 'roleName')")).
Proof.
  split.
  - intro H. rewrite (rounding_keeps_tier n H). apply integer_tier_resolution.
  - intro H.
    assert (P : 0 < 2 ^ 1024) by (apply Z.pow_pos_nonneg; lia).
    assert (E : Js.parseFloat (Js.BigInt_toString n) = Js.PosInfinity).
    { rewrite parseFloat_BigInt_toString by lia. now apply binary64_huge. }
    split; [exact E|]. rewrite E. reflexivity.
Qed.

Lemma narrowing_keeps_tier_witness :
  thresholdRoleName (Js.parseFloat (Js.BigInt_toString 9007199254740993))
  = Returned (integer_tier 9007199254740993)
  /\ Js.parseFloat (Js.BigInt_toString (2 ^ 1024)) = Js.PosInfinity.
Proof.
  split.
  - apply (proj1 (narrowing_keeps_tier 9007199254740993)).
    split; [discriminate|reflexivity].
  - apply (proj2 (narrowing_keeps_tier (2 ^ 1024))). apply Z.le_refl.
Defined.

(** ** One holder, from the node to the role *)

Lemma members_fetch_served (id : string) (w : World) (m : GuildMember) :
  faults w = [] -> Discord.find_member id (guild_members w) = Some m ->
  Discord.members_fetch id w = (Returned m, record_call (MembersFetch id) [] w).
Proof.
  intros F Fm. unfold Discord.members_fetch, bind, Discord.request. rewrite F.
  cbn [guild_members record_call]. now rewrite Fm.
Qed.

(** With every request served, the reconciler completes as soon as the
    balance resolves to a tier. *)
Lemma assignRoleByBalance_served
    (member : GuildMember) (balance : Js.number) (symbol : Js.text) (w : World)
    (name : string) :
  faults w = [] -> thresholdRoleName balance = Returned name ->
  exists w',
    assignRoleByBalance member balance symbol w
    = (Returned {| assigned_roleName := name; assigned_balance := balance;
                   assigned_symbol := symbol |}, w').
Proof.
  intros F T.
  destruct (remove_loop_served member
              (filter on_ladder
                 (Discord.resolve_roles (guild_roles w) (member_roles member))) w F)
    as (w1 & L & F1).
  unfold assignRoleByBalance, Discord.roles_cache, Discord.roles_find_by_name.
  unfold bind at 1 2. fold on_ladder.
  match goal with |- context [for_of ?l ?f w] =>
    change (for_of l f w) with (for_of l (Discord.roles_remove member) w) end.
  rewrite L. unfold bind at 1, lift. rewrite T. unfold bind at 1 2.
  assert (Add : forall role w2, faults w2 = [] ->
                  Discord.roles_add member role w2
                  = (Returned tt,
                     set_members
                       (Discord.update_member (member_id member)
                          (Discord.with_role (role_id role)) (guild_members w2))
                       (record_call (RolesAdd (member_id member) (role_id role)) [] w2))).
  { intros role w2 F2. unfold Discord.roles_add, bind, Discord.request.
    now rewrite F2. }
  destruct (find _ (guild_roles w1)) as [role|].
  - unfold ret at 1. unfold bind at 1. rewrite (Add role w1 F1).
    eexists. reflexivity.
  - assert (C : Discord.roles_create name w1
                = (Returned {| role_id := next_snowflake w1; role_name := name |},
                   set_roles
                     (guild_roles w1
                        ++ [ {| role_id := next_snowflake w1; role_name := name |} ])%list
                     (next_snowflake w1 + 1)
                     (record_call (RolesCreate name) [] w1))).
    { unfold Discord.roles_create, bind, Discord.request. now rewrite F1. }
    rewrite C. unfold bind at 1. rewrite Add by reflexivity.
    eexists. reflexivity.
Qed.

Lemma ladder_of_completed_run (l : list Role) (role : Role) :
  on_ladder role = true ->
  filter on_ladder (filter (fun r => negb (on_ladder r)) l ++ [role]) = [role].
Proof.
  intro L. rewrite filter_app, filter_filter, filter_never.
  cbn [filter app]. now rewrite L.
Qed.

Section OneHolder.

Variable simpleEncode : string -> list string -> outcome (list byte).

(** The oracle's answer and the world it leaves when the node serves the
    three queries. *)
Lemma getTokenBalance_returns
    (userAddr tokenAddr balanceData decimalsData symbolData : string)
    (hexBalance hexDecimals hexSymbol : string) (b d : Z) (w : World) :
  encodeFunctionCall simpleEncode BALANCE_OF_SIGNATURE [userAddr] = Returned balanceData ->
  encodeFunctionCall simpleEncode DECIMALS_SIGNATURE [] = Returned decimalsData ->
  encodeFunctionCall simpleEncode SYMBOL_SIGNATURE [] = Returned symbolData ->
  node w tokenAddr balanceData =
    Responded {| body_error := None; body_result := VString hexBalance |} ->
  node w tokenAddr decimalsData =
    Responded {| body_error := None; body_result := VString hexDecimals |} ->
  node w tokenAddr symbolData =
    Responded {| body_error := None; body_result := VString hexSymbol |} ->
  Js.StringToBigInt hexBalance = Some b -> 0 <= b ->
  Js.StringToBigInt hexDecimals = Some d -> 0 <= d ->
  exists symbol,
    decodeHexToString (VString hexSymbol) = Returned symbol
    /\ getTokenBalance simpleEncode userAddr tokenAddr w
       = (Returned {| balance := Js.BigInt_toString (b / 10 ^ d); symbol := symbol |},
          fold_left (fun w' c => record_call c (faults w') w')
            [EthCall tokenAddr balanceData; EthCall tokenAddr decimalsData;
             EthCall tokenAddr symbolData] w).
Proof.
  intros Eb Ed Es Nb Nd Ns Pb Hb Pd Hd.
  eexists. split; [reflexivity|].
  unfold getTokenBalance, try_catch, bind, lift.
  rewrite Eb. erewrite rpcCall_result by exact Nb.
  rewrite Ed. erewrite rpcCall_result by exact Nd.
  rewrite Es. erewrite rpcCall_result by exact Ns.
  unfold decodeHexToDecimal. cbn [Js.BigInt obind decodeHexToString].
  rewrite Pb, Pd. cbn [obind]. rewrite (BigInt_toString_StringToBigInt d Hd).
  unfold Js.BigInt_pow, Js.BigInt_div.
  destruct (d <? 0) eqn:L; [apply Z.ltb_lt in L; lia|].
  destruct (10 ^ d =? 0) eqn:Z0.
  { apply Z.eqb_eq in Z0. pose proof (Z.pow_pos_nonneg 10 d). lia. }
  cbn [ret fold_left].
  rewrite Z.quot_div_nonneg; [reflexivity|assumption|apply Z.pow_pos_nonneg; lia].
Qed.

(** X12. One turn of the batch end to end: on a coherent guild, with every
    Discord request served, for a holder who is a member and whose raw
    balance [b] and decimals [d] the node reports (with [b / 10^d] below
    2^1023), the holder is left with exactly one ladder role, the tier of
    [floor (b / 10^d)], and the console receives the daily update with the
    member's tag, that quotient in decimal and the decoded symbol. *)
Theorem holder_gets_tier_of_quotient
    (row : Row) (member : GuildMember)
    (balanceData decimalsData symbolData hexBalance hexDecimals hexSymbol : string)
    (b d : Z) (w : World) :
  coherent w = true ->
  faults w = [] ->
  Discord.find_member (discord_user_id row) (guild_members w) = Some member ->
  encodeFunctionCall simpleEncode BALANCE_OF_SIGNATURE [wallet_address row]
    = Returned balanceData ->
  encodeFunctionCall simpleEncode DECIMALS_SIGNATURE [] = Returned decimalsData ->
  encodeFunctionCall simpleEncode SYMBOL_SIGNATURE [] = Returned symbolData ->
  node w tokenContractAddress balanceData =
    Responded {| body_error := None; body_result := VString hexBalance |} ->
  node w tokenContractAddress decimalsData =
    Responded {| body_error := None; body_result := VString hexDecimals |} ->
  node w tokenContractAddress symbolData =
    Responded {| body_error := None; body_result := VString hexSymbol |} ->
  Js.StringToBigInt hexBalance = Some b -> 0 <= b ->
  Js.StringToBigInt hexDecimals = Some d -> 0 <= d ->
  b / 10 ^ d < 2 ^ 1023 ->
  exists w' symbol,
    updateRow simpleEncode row w = (Returned tt, w')
    /\ decodeHexToString (VString hexSymbol) = Returned symbol
    /\ console w'
       = (console w ++ [DailyUpdate (Discord.tag (user member))
                          (Js.BigInt_toString (b / 10 ^ d)) symbol])%list
    /\ map role_name (held_ladder_roles w' (discord_user_id row))
       = [integer_tier (b / 10 ^ d)].
Proof.
  intros Coh F Fm Eb Ed Es Nb Nd Ns Pb Hb Pd Hd Small.
  pose proof (find_member_id _ _ _ Fm) as Id.
  assert (Q : 0 <= b / 10 ^ d)
    by (apply Z.div_pos; [assumption|apply Z.pow_pos_nonneg; lia]).
  set (w1 := record_call (MembersFetch (discord_user_id row)) [] w).
  destruct (getTokenBalance_returns (wallet_address row) tokenContractAddress
              balanceData decimalsData symbolData hexBalance hexDecimals hexSymbol
              b d w1 Eb Ed Es Nb Nd Ns Pb Hb Pd Hd) as (sym & Ds & G).
  cbn [fold_left] in G.
  set (w3 := record_call (EthCall tokenContractAddress symbolData)
               (faults (record_call (EthCall tokenContractAddress decimalsData)
                          (faults (record_call (EthCall tokenContractAddress balanceData)
                                     (faults w1) w1))
                          (record_call (EthCall tokenContractAddress balanceData)
                             (faults w1) w1)))
               (record_call (EthCall tokenContractAddress decimalsData)
                  (faults (record_call (EthCall tokenContractAddress balanceData)
                             (faults w1) w1))
                  (record_call (EthCall tokenContractAddress balanceData)
                     (faults w1) w1))) in G.
  assert (T : thresholdRoleName (Js.parseFloat (Js.BigInt_toString (b / 10 ^ d)))
              = Returned (integer_tier (b / 10 ^ d))).
  { rewrite (rounding_keeps_tier _ (conj Q Small)). apply integer_tier_resolution. }
  assert (F3 : faults w3 = []) by reflexivity.
  assert (Coh3 : coherent w3 = true) by exact Coh.
  assert (Fm3 : Discord.find_member (member_id member) (guild_members w3) = Some member)
    by (rewrite Id; exact Fm).
  destruct (assignRoleByBalance_served member
              (Js.parseFloat (Js.BigInt_toString (b / 10 ^ d))) sym w3 _ F3 T)
    as (w4 & A).
  destruct (completed_run_roles _ _ _ _ _ _ Coh3 Fm3 A)
    as (role & _ & E & L & _ & R & _).
  cbn [assigned_roleName] in E.
  exists (write_line (DailyUpdate (Discord.tag (user member))
                        (Js.BigInt_toString (b / 10 ^ d)) sym) w4), sym.
  split; [|split; [exact Ds|split]].
  - unfold updateRow, try_catch. unfold bind at 1.
    rewrite (members_fetch_served _ _ _ F Fm). fold w1.
    unfold bind at 1. rewrite G. cbn [balance symbol].
    unfold bind at 1. rewrite A. reflexivity.
  - cbn [console write_line]. f_equal.
    destruct (quiet_assignRoleByBalance member
                (Js.parseFloat (Js.BigInt_toString (b / 10 ^ d))) sym w3) as [C _].
    rewrite A in C. cbn [snd] in C. rewrite C. reflexivity.
  - unfold held_ladder_roles.
    change (held_roles (write_line _ w4) (discord_user_id row))
      with (held_roles w4 (discord_user_id row)).
    rewrite <- Id, R, (ladder_of_completed_run _ role L). cbn [map]. now rewrite E.
Qed.

End OneHolder.

Lemma holder_gets_tier_of_quotient_witness :
  exists w' symbol,
    updateRow erc20Encode {| discord_user_id := "101"; wallet_address := holder1 |}
      sample_world = (Returned tt, w')
    /\ decodeHexToString (VString "0x5a4b4c0000000000000000000000000000") = Returned symbol
    /\ console w'
       = (console sample_world
          ++ [DailyUpdate (Discord.tag (user ann))
                (Js.BigInt_toString (5000000000000000000000 / 10 ^ 18)) symbol])%list
    /\ map role_name (held_ladder_roles w' "101")
       = [integer_tier (5000000000000000000000 / 10 ^ 18)].
Proof.
  exact (holder_gets_tier_of_quotient erc20Encode
           {| discord_user_id := "101"; wallet_address := holder1 |} ann
           "0x70a082310000000000000000000000001111111111111111111111111111111111111111"
           "0x313ce567" "0x95d89b41"
           "0x10f0cf064dd59200000" "0x12" "0x5a4b4c0000000000000000000000000000"
           5000000000000000000000 18 sample_world
           ltac:(vm_compute; reflexivity) ltac:(vm_compute; reflexivity)
           ltac:(vm_compute; reflexivity) ltac:(vm_compute; reflexivity)
           ltac:(vm_compute; reflexivity) ltac:(vm_compute; reflexivity)
           ltac:(vm_compute; reflexivity) ltac:(vm_compute; reflexivity)
           ltac:(vm_compute; reflexivity) ltac:(vm_compute; reflexivity)
           ltac:(discriminate) ltac:(vm_compute; reflexivity) ltac:(discriminate)
           ltac:(vm_compute; reflexivity)).
Defined.

(** ** Identity resolution *)

Lemma find_member_In (m : GuildMember) (ms : list GuildMember) :
  In m ms -> exists m', Discord.find_member (member_id m) ms = Some m'.
Proof.
  intro H. unfold Discord.find_member.
  destruct (find _ ms) as [m'|] eqn:F; [now exists m'|].
  pose proof (find_none _ _ F m H) as N. cbn beta in N.
  now rewrite String.eqb_refl in N.
Qed.

Lemma found_is_member (f : GuildMember -> bool) (ms : list GuildMember) (id : string) :
  option_map member_id (find f ms) = Some id ->
  exists m, Discord.find_member id ms = Some m.
Proof.
  destruct (find f ms) as [m|] eqn:F; [|discriminate].
  cbn [option_map]. intro E. injection E as <-.
  apply find_member_In. now apply find_some in F.
Qed.

Section Resolution.

Variable toLowerCase : string -> string.

(** X13. Identity resolution only reads the guild: whatever the input, it
    leaves the members, the roles, the table and the console as they were
    and sends at most one request, the fetch of the member named by a
    string of digits or the listing of the members for a name. *)
Theorem resolveUserId_reads_only (input : string) (w : World) :
  guild_members (snd (resolveUserId toLowerCase input w)) = guild_members w
  /\ guild_roles (snd (resolveUserId toLowerCase input w)) = guild_roles w
  /\ users_table (snd (resolveUserId toLowerCase input w)) = users_table w
  /\ console (snd (resolveUserId toLowerCase input w)) = console w
  /\ (calls (snd (resolveUserId toLowerCase input w)) = calls w
      \/ (Js.test_digits input = true
          /\ calls (snd (resolveUserId toLowerCase input w))
             = (calls w ++ [MembersFetch input])%list)
      \/ (Js.test_digits input = false
          /\ calls (snd (resolveUserId toLowerCase input w))
             = (calls w ++ [MembersFetchAll])%list)).
Proof.
  unfold resolveUserId.
  destruct (Js.match_mention input) as [id|].
  { cbn. repeat split. now left. }
  destruct (Js.test_digits input) eqn:D.
  - unfold Discord.members_fetch, Discord.request, try_catch, bind, ret.
    destruct (faults w) as [|[|] fs]; cbn [guild_members record_call];
      try destruct (Discord.find_member input (guild_members w));
      cbn; repeat split; right; left; now split.
  - destruct (nth_error (Js.split "#" input) 0) as [[|c name]|].
    1, 3: cbn; repeat split; now left.
    unfold Discord.members_fetch_all, Discord.request, bind, ret.
    destruct (faults w) as [|[|] fs]; cbn [guild_members record_call];
      try destruct (nth_error (Js.split "#" input) 1) as [[|c' d']|];
      cbn; repeat split; right; right; now split.
Qed.

(** X14. An input that is not a mention never resolves to a stranger: the
    identifier that resolution returns for it is the identifier of a
    member of the guild. *)
Theorem resolved_id_is_member (input id : string) (w : World) :
  Js.match_mention input = None ->
  fst (resolveUserId toLowerCase input w) = Returned (Some id) ->
  exists m, Discord.find_member id (guild_members w) = Some m.
Proof.
  intros Hm. unfold resolveUserId. rewrite Hm.
  destruct (Js.test_digits input) eqn:D.
  - unfold Discord.members_fetch, Discord.request, try_catch, bind, ret.
    destruct (faults w) as [|[|] fs]; cbn [guild_members record_call];
      try (destruct (Discord.find_member input (guild_members w)) as [m|] eqn:F);
      cbn [fst]; intro E; try discriminate E;
      injection E as <-; now exists m.
  - destruct (nth_error (Js.split "#" input) 0) as [[|c name]|].
    1, 3: cbn; discriminate.
    unfold Discord.members_fetch_all, Discord.request, bind, ret.
    destruct (faults w) as [|[|] fs]; cbn [guild_members record_call];
      try (cbn [fst]; discriminate);
      destruct (nth_error (Js.split "#" input) 1) as [[|c' d']|];
      cbn [fst]; intro E; injection E as E; exact (found_is_member _ _ _ E).
Qed.

End Resolution.

Lemma resolved_id_is_member_witness :
  exists m, Discord.find_member "103" (guild_members sample_world) = Some m.
Proof.
  apply (resolved_id_is_member asciiToLowerCase "BOB#0002" "103" sample_world);
    vm_compute; reflexivity.
Defined.

(** ** The command handler *)

Lemma split_spaces_cons (s : string) : forall gap,
  exists first rest, split_spaces gap s = first :: rest.
Proof.
  induction s as [|c s IH]; intro gap; cbn [split_spaces].
  - now exists EmptyString, [].
  - destruct (Ascii.eqb c " ").
    + destruct gap; [apply IH|]. now exists EmptyString, (split_spaces true s).
    + destruct (split_spaces false s) as [|piece rest]; eauto.
Qed.

Lemma keeps_table_ret {A} (a : A) : keeps_table (ret a).
Proof. intro w. reflexivity. Qed.

Lemma keeps_table_throw {A} (e : exn) : keeps_table (@throw A e).
Proof. intro w. reflexivity. Qed.

Lemma keeps_table_lift {A} (o : outcome A) : keeps_table (lift o).
Proof. intro w. reflexivity. Qed.

Lemma keeps_table_bind {A B} (m : M A) (k : A -> M B) :
  keeps_table m -> (forall a, keeps_table (k a)) -> keeps_table (bind m k).
Proof.
  intros Km Kk w. unfold bind. specialize (Km w).
  destruct (m w) as [[a|e] w1]; cbn [snd] in *; [|exact Km].
  now rewrite Kk.
Qed.

Lemma keeps_table_try_catch {A} (m : M A) (h : exn -> M A) :
  keeps_table m -> (forall e, keeps_table (h e)) -> keeps_table (try_catch m h).
Proof.
  intros Km Kh w. unfold try_catch. specialize (Km w).
  destruct (m w) as [[a|e] w1]; cbn [snd] in *; [exact Km|].
  now rewrite Kh.
Qed.

Lemma keeps_table_for_of {A} (body : A -> M unit) (xs : list A) :
  (forall x, keeps_table (body x)) -> keeps_table (for_of xs body).
Proof.
  intro Kb. induction xs as [|x xs IH]; cbn [for_of].
  - apply keeps_table_ret.
  - apply keeps_table_bind; [apply Kb|intros _; exact IH].
Qed.

Lemma keeps_table_request (c : Call) : keeps_table (Discord.request c).
Proof. intro w. unfold Discord.request. now destruct (faults w) as [|[|] fs]. Qed.

Lemma keeps_table_members_fetch (id : string) : keeps_table (Discord.members_fetch id).
Proof.
  unfold Discord.members_fetch. apply keeps_table_bind; [apply keeps_table_request|].
  intros _ w. now destruct (Discord.find_member id (guild_members w)).
Qed.

Lemma keeps_table_rpcCall (to data : string) : keeps_table (rpcCall to data).
Proof.
  intro w. destruct (rpcCall_cases to data w) as [[v [_ R]]|[r R]]; now rewrite R.
Qed.

Lemma keeps_table_assignRoleByBalance (member : GuildMember) (balance : Js.number)
    (symbol : Js.text) : keeps_table (assignRoleByBalance member balance symbol).
Proof.
  unfold assignRoleByBalance.
  apply keeps_table_bind; [intro w; reflexivity|]. intro cache.
  apply keeps_table_bind.
  { apply keeps_table_for_of. intro r. unfold Discord.roles_remove.
    apply keeps_table_bind; [apply keeps_table_request|]. intros _ w. reflexivity. }
  intros _. apply keeps_table_bind; [apply keeps_table_lift|]. intro name.
  apply keeps_table_bind; [intro w; reflexivity|]. intro found.
  apply keeps_table_bind.
  { destruct found; [apply keeps_table_ret|]. unfold Discord.roles_create.
    apply keeps_table_bind; [apply keeps_table_request|]. intros _ w. reflexivity. }
  intro role. apply keeps_table_bind; [|intros _; apply keeps_table_ret].
  unfold Discord.roles_add.
  apply keeps_table_bind; [apply keeps_table_request|]. intros _ w. reflexivity.
Qed.

Lemma keeps_table_getTokenBalance
    (simpleEncode : string -> list string -> outcome (list byte))
    (userAddr tokenAddr : string) :
  keeps_table (getTokenBalance simpleEncode userAddr tokenAddr).
Proof.
  unfold getTokenBalance.
  apply keeps_table_try_catch; [|intro; apply keeps_table_throw].
  repeat (apply keeps_table_bind;
          [first [apply keeps_table_lift | apply keeps_table_rpcCall]|intro]).
  apply keeps_table_ret.
Qed.

Lemma keeps_table_resolveUserId (toLowerCase : string -> string) (input : string) :
  keeps_table (resolveUserId toLowerCase input).
Proof.
  unfold resolveUserId.
  destruct (Js.match_mention input); [apply keeps_table_ret|].
  destruct (Js.test_digits input).
  - apply keeps_table_try_catch; [|intro; apply keeps_table_ret].
    apply keeps_table_bind; [apply keeps_table_members_fetch|].
    intros _. apply keeps_table_ret.
  - destruct (nth_error (Js.split "#" input) 0) as [[|c name]|];
      try apply keeps_table_ret.
    apply keeps_table_bind.
    { unfold Discord.members_fetch_all.
      apply keeps_table_bind; [apply keeps_table_request|]. intros _ w. reflexivity. }
    intro members.
    destruct (nth_error (Js.split "#" input) 1) as [[|c' d]|]; apply keeps_table_ret.
Qed.

(** The rows of a table after [INSERT OR REPLACE]. *)
Lemma select_after_insert (id wallet : string) (rows : list Row) :
  select_wallet id (insert_or_replace id wallet rows)
  = Some {| discord_user_id := id; wallet_address := wallet |}.
Proof.
  unfold select_wallet, insert_or_replace.
  induction rows as [|r rows IH]; cbn [filter app find discord_user_id].
  - now rewrite String.eqb_refl.
  - destruct (String.eqb (discord_user_id r) id) eqn:E; cbn [negb]; [exact IH|].
    cbn [app find]. now rewrite E.
Qed.

Lemma select_other_after_insert (id other wallet : string) (rows : list Row) :
  other <> id ->
  select_wallet other (insert_or_replace id wallet rows) = select_wallet other rows.
Proof.
  intro Ne. unfold select_wallet, insert_or_replace.
  induction rows as [|r rows IH]; cbn [filter app find discord_user_id].
  - destruct (String.eqb id other) eqn:E; [|reflexivity].
    apply String.eqb_eq in E. congruence.
  - destruct (String.eqb (discord_user_id r) id) eqn:E; cbn [negb].
    + apply String.eqb_eq in E.
      destruct (String.eqb (discord_user_id r) other) eqn:E'; [|exact IH].
      apply String.eqb_eq in E'. congruence.
    + cbn [app find]. now destruct (String.eqb (discord_user_id r) other).
Qed.

Lemma unique_keys_insert (id wallet : string) (rows : list Row) :
  unique_keys rows -> unique_keys (insert_or_replace id wallet rows).
Proof.
  unfold unique_keys, insert_or_replace. intro U.
  rewrite map_app. cbn [map discord_user_id].
  apply NoDup_app.
  - induction rows as [|r rows IH]; cbn [filter map]; [constructor|].
    cbn [map] in U. inversion U as [|x l N U']; subst.
    destruct (String.eqb (discord_user_id r) id); cbn [negb map]; [now apply IH|].
    constructor; [|now apply IH].
    intro I. apply N. apply in_map_iff in I. destruct I as (r' & E & I).
    apply filter_In in I. apply in_map_iff. exists r'. now split; [|apply I].
  - repeat constructor. intros [].
  - intros x I [<-|[]]. apply in_map_iff in I. destruct I as (r & E & I).
    apply filter_In in I. destruct I as [_ I].
    apply String.eqb_eq in E. now rewrite E in I.
Qed.


Lemma members_fetch_found (id : string) (w w' : World) (m : GuildMember) :
  Discord.members_fetch id w = (Returned m, w') ->
  Discord.find_member id (guild_members w') = Some m.
Proof.
  unfold Discord.members_fetch, bind.
  destruct (Discord.request (MembersFetch id) w) as [[[]|e] w1]; [|discriminate].
  destruct (Discord.find_member id (guild_members w1)) as [m'|] eqn:F; [|discriminate].
  intros [= <- <-]. exact F.
Qed.

Lemma steady_resolveUserId (toLowerCase : string -> string) (input : string) :
  steady (resolveUserId toLowerCase input).
Proof.
  unfold resolveUserId.
  destruct (Js.match_mention input); [apply steady_ret|].
  destruct (Js.test_digits input).
  - apply steady_try_catch; [|intro; apply steady_ret].
    apply steady_bind; [apply steady_members_fetch|].
    intros _. apply steady_ret.
  - destruct (nth_error (Js.split "#" input) 0) as [[|c name]|];
      try apply steady_ret.
    apply steady_bind.
    { unfold Discord.members_fetch_all.
      apply steady_bind; [apply steady_request|]. intros _ w C. exact C. }
    intro members.
    destruct (nth_error (Js.split "#" input) 1) as [[|c' d]|]; apply steady_ret.
Qed.

(** Identity resolution throws only when the listing of the members is
    rejected. *)
Lemma resolveUserId_thrown (toLowerCase : string -> string) (input : string)
    (w : World) (e : exn) :
  fst (resolveUserId toLowerCase input w) = Thrown e ->
  e = DiscordAPIError "request rejected"
  /\ exists fs, faults w = true :: fs
                /\ snd (resolveUserId toLowerCase input w)
                   = record_call MembersFetchAll fs w.
Proof.
  unfold resolveUserId.
  destruct (Js.match_mention input); [discriminate|].
  destruct (Js.test_digits input).
  - unfold try_catch, ret.
    destruct (bind _ _ w) as [[a|e'] w1]; discriminate.
  - destruct (nth_error (Js.split "#" input) 0) as [[|c name]|];
      try discriminate.
    unfold Discord.members_fetch_all, Discord.request, bind, ret.
    destruct (faults w) as [|[|] fs]; cbn [fst snd].
    + destruct (nth_error (Js.split "#" input) 1) as [[|c' d]|]; discriminate.
    + intros [= <-]. split; [reflexivity|]. now exists fs.
    + destruct (nth_error (Js.split "#" input) 1) as [[|c' d]|]; discriminate.
Qed.

Lemma remove_controls_twice (t : Js.text) :
  Js.remove_controls (Js.remove_controls t) = Js.remove_controls t.
Proof. unfold Js.remove_controls. apply filter_twice. Qed.

Lemma decodeHexToString_clean (v : value) (t : Js.text) :
  decodeHexToString v = Returned t -> Js.remove_controls t = t.
Proof.
  destruct v as [| |s]; try discriminate.
  rewrite decodeHexToString_string. intros [= <-]. apply remove_controls_twice.
Qed.

Lemma bind_returned {A B} (m : M A) (k : A -> M B) (w w' : World) (b : B) :
  bind m k w = (Returned b, w') ->
  exists a w1, m w = (Returned a, w1) /\ k a w1 = (Returned b, w').
Proof.
  unfold bind. destruct (m w) as [[a|e] w1]; [|discriminate].
  intro H. now exists a, w1.
Qed.

Lemma try_catch_rethrow_returned {A} (m : M A) (h : exn -> exn) (w w' : World) (a : A) :
  try_catch m (fun e => throw (h e)) w = (Returned a, w') -> m w = (Returned a, w').
Proof.
  unfold try_catch, throw. destruct (m w) as [[a'|e] w1]; [trivial|discriminate].
Qed.

Lemma bind_step {A B} (m : M A) (k : A -> M B) (w w1 : World) (a : A) :
  m w = (Returned a, w1) -> bind m k w = k a w1.
Proof. intro H. unfold bind. now rewrite H. Qed.

Lemma bind_stop {A B} (m : M A) (k : A -> M B) (w w1 : World) (e : exn) :
  m w = (Thrown e, w1) -> bind m k w = (Thrown e, w1).
Proof. intro H. unfold bind. now rewrite H. Qed.

Lemma try_catch_step {A} (m : M A) (h : exn -> M A) (w w1 : World) (a : A) :
  m w = (Returned a, w1) -> try_catch m h w = (Returned a, w1).
Proof. intro H. unfold try_catch. now rewrite H. Qed.

Lemma try_catch_caught {A} (m : M A) (h : exn -> M A) (w w1 : World) (e : exn) :
  m w = (Thrown e, w1) -> try_catch m h w = h e w1.
Proof. intro H. unfold try_catch. now rewrite H. Qed.

Section Handler.

Variable simpleEncode : string -> list string -> outcome (list byte).
Variable toLowerCase : string -> string.
Variable trim : string -> string.
Variable users_fetch : string -> outcome User.

Lemma keeps_table_checkbalance (message : Message) (args : list string) :
  keeps_table (checkbalance simpleEncode toLowerCase users_fetch message args).
Proof.
  unfold checkbalance.
  destruct (negb (isModerator message)); [apply keeps_table_ret|].
  destruct args as [|arg0 args]; [apply keeps_table_ret|].
  apply keeps_table_bind; [apply keeps_table_resolveUserId|].
  intros [[|c id]|]; try apply keeps_table_ret.
  intro w. destruct (users_table w) as [reason|rows] eqn:T; [exact T|].
  destruct (select_wallet _ rows) as [row|]; [|exact T].
  rewrite <- T. revert w T. intros w _. revert w.
  apply keeps_table_try_catch; [|intro; apply keeps_table_ret].
  apply keeps_table_bind; [apply keeps_table_getTokenBalance|]. intro token.
  apply keeps_table_bind; [apply keeps_table_lift|]. intro user.
  apply keeps_table_bind; [apply keeps_table_members_fetch|]. intro member.
  apply keeps_table_bind; [apply keeps_table_assignRoleByBalance|]. intro result.
  apply keeps_table_ret.
Qed.

(** X15. A message of a bot, or of a member who may not manage roles,
    changes nothing: the handler sends no request, leaves the table and
    the guild as they were, and answers with the refusal at most. *)
Theorem unprivileged_message_changes_nothing (message : Message) (w : World) :
  author_bot message = true \/ manages_roles message = false ->
  snd (messageCreate simpleEncode toLowerCase trim users_fetch message w) = w
  /\ (fst (messageCreate simpleEncode toLowerCase trim users_fetch message w) = Returned []
      \/ fst (messageCreate simpleEncode toLowerCase trim users_fetch message w) = Returned [Replied NoPermission]).
Proof.
  intro H. unfold messageCreate.
  destruct (author_bot message) eqn:B; [split; [reflexivity|now left]|].
  destruct H as [H|H]; [discriminate H|].
  destruct (negb (Js.startsWith (content message) "!"));
    [split; [reflexivity|now left]|].
  destruct (split_spaces_cons (trim (Js.slice 1 (content message))) false)
    as (first & args & ->).
  unfold register, checkbalance, isModerator. rewrite H. cbn [negb].
  destruct (String.eqb (toLowerCase first) "register");
    [split; [reflexivity|now right]|].
  destruct (String.eqb (toLowerCase first) "checkbalance");
    [split; [reflexivity|now right]|].
  split; [reflexivity|now left].
Qed.

(** X16. The table of the registered holders changes only by a
    moderator's [!register] that is answered with the confirmation; then
    the row of the resolved user, and no other, is replaced, the wallet
    address it now holds has the checked form, and the keys of the table
    stay pairwise different. *)
Theorem table_changes_by_registration_only (message : Message) (w : World) :
  users_table (snd (messageCreate simpleEncode toLowerCase trim users_fetch message w)) = users_table w
  \/ exists id wallet rows rows',
       users_table w = DbRows rows
       /\ users_table (snd (messageCreate simpleEncode toLowerCase trim users_fetch message w)) = DbRows rows'
       /\ manages_roles message = true
       /\ fst (messageCreate simpleEncode toLowerCase trim users_fetch message w) = Returned [Replied (Registered id)]
       /\ isValidWalletAddress wallet = true
       /\ select_wallet id rows'
          = Some {| discord_user_id := id; wallet_address := wallet |}
       /\ (forall other, other <> id -> select_wallet other rows' = select_wallet other rows)
       /\ (unique_keys rows -> unique_keys rows').
Proof.
  unfold messageCreate.
  destruct (author_bot message); [now left|].
  destruct (negb (Js.startsWith (content message) "!")); [now left|].
  destruct (split_spaces_cons (trim (Js.slice 1 (content message))) false)
    as (first & args & ->).
  destruct (String.eqb (toLowerCase first) "register").
  - unfold register, isModerator.
    destruct (manages_roles message) eqn:P; cbn [negb]; [|now left].
    destruct args as [|arg0 [|arg1 args]]; [now left|now left|].
    unfold bind.
    pose proof (keeps_table_resolveUserId toLowerCase (remove_quotes arg0) w) as K.
    destruct (resolveUserId toLowerCase (remove_quotes arg0) w)
      as [[[[|c id]|]|e] w1]; cbn [snd] in K; try (left; exact K).
    destruct (isValidWalletAddress (remove_quotes arg1)) eqn:V; cbn [negb];
      [|left; exact K].
    destruct (users_table w1) as [reason|rows] eqn:T; [left; now rewrite <- K|].
    right. exists (String c id), (remove_quotes arg1), rows,
             (insert_or_replace (String c id) (remove_quotes arg1) rows).
    cbn [fst snd users_table set_users].
    repeat split; try congruence.
    + apply select_after_insert.
    + intros other Ne. now apply select_other_after_insert.
    + apply unique_keys_insert.
  - destruct (String.eqb (toLowerCase first) "checkbalance"); [|now left].
    left. apply keeps_table_checkbalance.
Qed.


Lemma getTokenBalance_symbol (userAddr tokenAddr : string) (w : World)
    (token : TokenBalance) :
  fst (getTokenBalance simpleEncode userAddr tokenAddr w) = Returned token ->
  exists hexSymbol, decodeHexToString hexSymbol = Returned (symbol token).
Proof.
  destruct (getTokenBalance simpleEncode userAddr tokenAddr w) as [o w'] eqn:G.
  cbn [fst]. intros ->. unfold getTokenBalance in G.
  apply try_catch_rethrow_returned in G.
  repeat (apply bind_returned in G; destruct G as (? & ? & ? & G)).
  injection G as <- _. cbn [symbol].
  match goal with
  | D : lift (decodeHexToString ?v) _ = (Returned ?t, _) |- _ =>
      exists v; unfold lift in D; now injection D as ->
  end.
Qed.

(** X17. What the oracle returns as the symbol carries no control
    character, so the handler's own sanitising of the symbol changes
    nothing: the reply shows the symbol that the daily update shows. *)
Theorem oracle_symbol_is_clean (userAddr tokenAddr : string) (w : World)
    (token : TokenBalance) :
  fst (getTokenBalance simpleEncode userAddr tokenAddr w) = Returned token ->
  Js.remove_controls (symbol token) = symbol token
  /\ forallb (fun u => negb (Js.is_control u)) (symbol token) = true.
Proof.
  intro H. destruct (getTokenBalance_symbol _ _ _ _ H) as (v & D).
  pose proof (decodeHexToString_clean _ _ D) as C. split; [exact C|].
  rewrite <- C. unfold Js.remove_controls. apply forallb_forall.
  intros u I. now apply filter_In in I.
Qed.

(** With the replies taken as delivered, the handler throws only when the
    listing of the members is rejected while a user name is resolved. *)
Lemma messageCreate_thrown (message : Message) (w : World) (e : exn) :
  fst (messageCreate simpleEncode toLowerCase trim users_fetch message w) = Thrown e ->
  e = DiscordAPIError "request rejected"
  /\ manages_roles message = true
  /\ exists fs, faults w = true :: fs
                /\ snd (messageCreate simpleEncode toLowerCase trim users_fetch message w)
                   = record_call MembersFetchAll fs w.
Proof.
  unfold messageCreate.
  destruct (author_bot message); [discriminate|].
  destruct (negb (Js.startsWith (content message) "!")); [discriminate|].
  destruct (split_spaces_cons (trim (Js.slice 1 (content message))) false)
    as (first & args & ->).
  destruct (String.eqb (toLowerCase first) "register").
  - unfold register, isModerator.
    destruct (manages_roles message); cbn [negb]; [|discriminate].
    destruct args as [|arg0 [|arg1 args]]; try discriminate.
    unfold bind.
    pose proof (resolveUserId_thrown toLowerCase (remove_quotes arg0) w) as T.
    destruct (resolveUserId toLowerCase (remove_quotes arg0) w)
      as [[[[|c id]|]|e'] w1]; cbn [fst snd] in *; try discriminate.
    + destruct (negb _); [discriminate|]. destruct (users_table w1); discriminate.
    + intros [= <-]. destruct (T e' eq_refl) as (E & fs & F & W). now eauto.
  - destruct (String.eqb (toLowerCase first) "checkbalance"); [|discriminate].
    unfold checkbalance, isModerator.
    destruct (manages_roles message); cbn [negb]; [|discriminate].
    destruct args as [|arg0 args]; [discriminate|].
    pose proof (resolveUserId_thrown toLowerCase (remove_quotes arg0) w) as T.
    destruct (resolveUserId toLowerCase (remove_quotes arg0) w)
      as [[[[|c id]|]|e'] w1] eqn:R; cbn [fst snd] in T;
      [rewrite (bind_step _ _ _ _ _ R)..|rewrite (bind_stop _ _ _ _ _ R)];
      cbn [fst snd]; try discriminate.
    + destruct (users_table w1) as [reason|rows]; [discriminate|].
      destruct (select_wallet _ rows) as [row|]; [|discriminate].
      unfold try_catch, ret.
      destruct (bind _ _ w1) as [[a|e''] w2]; discriminate.
    + intros [= <-]. destruct (T e' eq_refl) as (E & fs & F & W). now eauto.
Qed.

(** X18. When Discord serves every request of the handler, its replies
    included, no error escapes it: whatever the message sent in the guild,
    and whatever the node, the database and the directory answer, the
    handler returns, and it has then written nothing at all, or lines of
    [console.error] followed by one reply. *)
Theorem handler_answers_when_served (message : Message) (w : World) :
  faults w = [] ->
  exists outputs,
    fst (messageCreate simpleEncode toLowerCase trim users_fetch message w)
    = Returned outputs
    /\ (outputs = []
        \/ exists logged text,
             outputs = (logged ++ [Replied text])%list
             /\ forallb (fun o => negb (is_reply o)) logged = true).
Proof.
  intro F.
  set (shape := fun outputs : list Output =>
         outputs = []
         \/ exists logged text,
              outputs = (logged ++ [Replied text])%list
              /\ forallb (fun o => negb (is_reply o)) logged = true).
  assert (S1 : forall text, shape [Replied text])
    by (intro text; right; now exists [], text).
  assert (S2 : forall line text, is_reply line = false -> shape [line; Replied text]).
  { intros line text L. right. exists [line], text. split; [reflexivity|].
    cbn [forallb]. now rewrite L. }
  destruct (messageCreate simpleEncode toLowerCase trim users_fetch message w)
    as [[outputs|e] w'] eqn:H.
  2: { destruct (messageCreate_thrown message w e) as (_ & _ & fs & T & _);
         [now rewrite H|]. rewrite F in T. discriminate T. }
  exists outputs. split; [reflexivity|]. fold (shape outputs).
  revert H. unfold messageCreate.
  destruct (author_bot message); [intros [= <- _]; now left|].
  destruct (negb (Js.startsWith (content message) "!")); [intros [= <- _]; now left|].
  destruct (split_spaces_cons (trim (Js.slice 1 (content message))) false)
    as (first & args & ->).
  destruct (String.eqb (toLowerCase first) "register").
  - unfold register.
    destruct (negb (isModerator message)); [intros [= <- _]; apply S1|].
    destruct args as [|arg0 [|arg1 args]]; try (intros [= <- _]; apply S1).
    destruct (resolveUserId toLowerCase (remove_quotes arg0) w)
      as [[[[|c id]|]|e] w1] eqn:R;
      [rewrite (bind_step _ _ _ _ _ R)..|rewrite (bind_stop _ _ _ _ _ R)];
      try (intros [= <- _]; apply S1); try discriminate.
    destruct (negb _); [intros [= <- _]; apply S1|].
    destruct (users_table w1) as [reason|rows]; intros [= <- _];
      [now apply S2|apply S1].
  - destruct (String.eqb (toLowerCase first) "checkbalance");
      [|intros [= <- _]; now left].
    unfold checkbalance.
    destruct (negb (isModerator message)); [intros [= <- _]; apply S1|].
    destruct args as [|arg0 args]; [intros [= <- _]; apply S1|].
    destruct (resolveUserId toLowerCase (remove_quotes arg0) w)
      as [[[[|c id]|]|e] w1] eqn:R;
      [rewrite (bind_step _ _ _ _ _ R)..|rewrite (bind_stop _ _ _ _ _ R)];
      try (intros [= <- _]; apply S1); try discriminate.
    destruct (users_table w1) as [reason|rows]; [intros [= <- _]; now apply S2|].
    destruct (select_wallet _ rows) as [row|]; [|intros [= <- _]; apply S1].
    unfold try_catch.
    match goal with
    | |- (let (_, _) := ?body w1 in _) = _ -> _ =>
        destruct (body w1) as [[a|e] w2] eqn:B
    end.
    + intros [= <- _].
      repeat (cbv zeta in B; apply bind_returned in B; destruct B as (? & ? & ? & B)).
      unfold ret in B. injection B as <- _. apply S1.
    + intros [= <- _]. now apply S2.
Qed.

(** X19. The reply of [!checkbalance] tells the truth: when the handler,
    run on a coherent guild, answers that a role has been assigned, the
    user it resolved has a row in the table and is found in the directory
    under the tag of the reply, the role named is the tier of the balance
    shown, and after the command the member holds that role and no other
    role of the ladder. *)
Theorem assigned_reply_is_true (message : Message) (w : World)
    (tag roleName shown : string) (sanitizedSymbol : Js.text) :
  coherent w = true ->
  fst (messageCreate simpleEncode toLowerCase trim users_fetch message w)
  = Returned [Replied (RoleAssigned tag roleName shown sanitizedSymbol)] ->
  exists id row rows user,
    manages_roles message = true
    /\ users_table w = DbRows rows
    /\ select_wallet id rows = Some row
    /\ users_fetch id = Returned user
    /\ Discord.tag user = tag
    /\ thresholdRoleName (Js.parseFloat shown) = Returned roleName
    /\ map role_name
         (held_ladder_roles
            (snd (messageCreate simpleEncode toLowerCase trim users_fetch message w)) id)
       = [roleName].
Proof.
  intro Coh. unfold messageCreate.
  destruct (author_bot message); [discriminate|].
  destruct (negb (Js.startsWith (content message) "!")); [discriminate|].
  destruct (split_spaces_cons (trim (Js.slice 1 (content message))) false)
    as (first & args & ->).
  destruct (String.eqb (toLowerCase first) "register").
  { unfold register. destruct (negb (isModerator message)); [discriminate|].
    destruct args as [|arg0 [|arg1 args]]; try discriminate.
    unfold bind.
    destruct (resolveUserId toLowerCase (remove_quotes arg0) w)
      as [[[[|c id]|]|e] w1]; try discriminate.
    destruct (negb _); [discriminate|]. destruct (users_table w1); discriminate. }
  destruct (String.eqb (toLowerCase first) "checkbalance"); [|discriminate].
  unfold checkbalance, isModerator.
  destruct (manages_roles message); cbn [negb]; [|discriminate].
  destruct args as [|arg0 args]; [discriminate|].
  pose proof (keeps_table_resolveUserId toLowerCase (remove_quotes arg0) w) as K.
  pose proof (steady_resolveUserId toLowerCase (remove_quotes arg0) w Coh) as C1.
  destruct (resolveUserId toLowerCase (remove_quotes arg0) w)
    as [[[[|c id]|]|e] w1] eqn:R; cbn [snd] in K, C1;
    [rewrite (bind_step _ _ _ _ _ R)..|rewrite (bind_stop _ _ _ _ _ R)];
    cbn [fst snd]; try discriminate.
  destruct (users_table w1) as [reason|rows] eqn:T; [discriminate|].
  destruct (select_wallet (String c id) rows) as [row|] eqn:S; [|discriminate].
  pose proof (steady_getTokenBalance simpleEncode (wallet_address row)
                tokenContractAddress w1 C1) as C2.
  destruct (getTokenBalance simpleEncode (wallet_address row) tokenContractAddress w1)
    as [[token|e] w2] eqn:G; cbn [snd] in C2;
    [|rewrite (try_catch_caught _ _ _ _ _ (bind_stop _ _ _ _ _ G)); discriminate].
  destruct (users_fetch (String c id)) as [user|e] eqn:U.
  2: { erewrite try_catch_caught; [discriminate|].
       rewrite (bind_step _ _ _ _ _ G). unfold bind, lift. reflexivity. }
  pose proof (steady_members_fetch (String c id) w2 C2) as C3.
  pose proof (members_fetch_id (String c id) w2) as Id.
  destruct (Discord.members_fetch (String c id) w2) as [[member|e] w3] eqn:Fm;
    cbn [fst snd] in C3, Id.
  2: { erewrite try_catch_caught; [discriminate|].
       rewrite (bind_step _ _ _ _ _ G). unfold bind at 1, lift.
       now rewrite (bind_stop _ _ _ _ _ Fm). }
  specialize (Id member eq_refl).
  apply members_fetch_found in Fm as Found. rewrite <- Id in Found.
  destruct (assignRoleByBalance member (Js.parseFloat (balance token))
              (symbol token) w3) as [[result|e] w4] eqn:A.
  2: { erewrite try_catch_caught; [discriminate|].
       rewrite (bind_step _ _ _ _ _ G). unfold bind at 1, lift.
       rewrite (bind_step _ _ _ _ _ Fm). now rewrite (bind_stop _ _ _ _ _ A). }
  erewrite try_catch_step.
  2: { rewrite (bind_step _ _ _ _ _ G). unfold bind at 1, lift.
       rewrite (bind_step _ _ _ _ _ Fm). rewrite (bind_step _ _ _ _ _ A).
       reflexivity. }
  cbn [fst snd]. intros [= <- <- <- <-].
  destruct (completed_run_roles _ _ _ _ _ _ C3 Found A)
    as (role & Th & E & L & _ & Held & _).
  exists (String c id), row, rows, user.
  repeat split; try congruence.
  unfold held_ladder_roles.
  rewrite <- Id, Held, (ladder_of_completed_run _ role L). cbn [map]. now rewrite E.
Qed.

Lemma steady_checkbalance (message : Message) (args : list string) :
  steady (checkbalance simpleEncode toLowerCase users_fetch message args).
Proof.
  unfold checkbalance.
  destruct (negb (isModerator message)); [apply steady_ret|].
  destruct args as [|arg0 args]; [apply steady_ret|].
  apply steady_bind; [apply steady_resolveUserId|].
  intros [[|c id]|]; try apply steady_ret.
  intros w C. destruct (users_table w) as [reason|rows]; [exact C|].
  destruct (select_wallet _ rows) as [row|]; [|exact C].
  revert w C.
  apply steady_try_catch; [|intro; apply steady_ret].
  apply steady_bind; [apply steady_getTokenBalance|]. intro token.
  apply steady_bind; [apply steady_lift|]. intro user.
  apply steady_bind; [apply steady_members_fetch|]. intro member.
  apply steady_bind; [apply steady_assignRoleByBalance|]. intro result.
  apply steady_ret.
Qed.

(** X20. The handler keeps the guild coherent: whatever the message, and
    whatever fails while it is served, a guild whose roles have distinct
    identifiers, below the next one to be handed out, and whose members
    hold roles of the guild only, is left such a guild. *)
Theorem handler_keeps_coherence (message : Message) (w : World) :
  coherent w = true ->
  coherent (snd (messageCreate simpleEncode toLowerCase trim users_fetch message w))
  = true.
Proof.
  revert w.
  change (steady (messageCreate simpleEncode toLowerCase trim users_fetch message)).
  unfold messageCreate.
  destruct (author_bot message); [apply steady_ret|].
  destruct (negb (Js.startsWith (content message) "!")); [apply steady_ret|].
  destruct (split_spaces false (trim (Js.slice 1 (content message))))
    as [|first args]; [apply steady_throw|].
  destruct (String.eqb (toLowerCase first) "register").
  - unfold register.
    destruct (negb (isModerator message)); [apply steady_ret|].
    destruct args as [|arg0 [|arg1 args]]; try apply steady_ret.
    apply steady_bind; [apply steady_resolveUserId|].
    intros [[|c id]|]; try apply steady_ret.
    destruct (negb _); [apply steady_ret|].
    intros w C. destruct (users_table w); exact C.
  - destruct (String.eqb (toLowerCase first) "checkbalance"); [|apply steady_ret].
    apply steady_checkbalance.
Qed.

End Handler.

Lemma unprivileged_message_changes_nothing_witness :
  snd (messageCreate erc20Encode asciiToLowerCase asciiTrim sample_directory
         {| author_bot := false; content := "!checkbalance ann"; manages_roles := false |}
         sample_world) = sample_world
  /\ (fst (messageCreate erc20Encode asciiToLowerCase asciiTrim sample_directory
             {| author_bot := false; content := "!checkbalance ann";
                manages_roles := false |} sample_world) = Returned []
      \/ fst (messageCreate erc20Encode asciiToLowerCase asciiTrim sample_directory
                {| author_bot := false; content := "!checkbalance ann";
                   manages_roles := false |} sample_world)
         = Returned [Replied NoPermission]).
Proof.
  apply (unprivileged_message_changes_nothing erc20Encode asciiToLowerCase asciiTrim
           sample_directory
           {| author_bot := false; content := "!checkbalance ann";
              manages_roles := false |} sample_world).
  right. reflexivity.
Defined.

Lemma oracle_symbol_is_clean_witness :
  Js.remove_controls (symbol {| balance := "5000"; symbol := Js.ascii_text "ZKL" |})
  = symbol {| balance := "5000"; symbol := Js.ascii_text "ZKL" |}
  /\ forallb (fun u => negb (Js.is_control u))
       (symbol {| balance := "5000"; symbol := Js.ascii_text "ZKL" |}) = true.
Proof.
  apply (oracle_symbol_is_clean erc20Encode holder1 tokenContractAddress sample_world
           {| balance := "5000"; symbol := Js.ascii_text "ZKL" |}).
  vm_compute. reflexivity.
Defined.

Lemma handler_answers_when_served_witness :
  exists outputs,
    fst (messageCreate erc20Encode asciiToLowerCase asciiTrim sample_directory
           (moderator_says "!checkbalance 102") sample_world)
    = Returned outputs
    /\ (outputs = []
        \/ exists logged text,
             outputs = (logged ++ [Replied text])%list
             /\ forallb (fun o => negb (is_reply o)) logged = true).
Proof.
  apply (handler_answers_when_served erc20Encode asciiToLowerCase asciiTrim
           sample_directory (moderator_says "!checkbalance 102") sample_world).
  reflexivity.
Defined.

Lemma assigned_reply_is_true_witness :
  exists id row rows user,
    manages_roles (moderator_says "!checkbalance <@101>") = true
    /\ users_table sample_world = DbRows rows
    /\ select_wallet id rows = Some row
    /\ sample_directory id = Returned user
    /\ Discord.tag user = "ann"
    /\ thresholdRoleName (Js.parseFloat "5000") = Returned "zkLDolphin 🐬"
    /\ map role_name
         (held_ladder_roles
            (snd (messageCreate erc20Encode asciiToLowerCase asciiTrim sample_directory
                    (moderator_says "!checkbalance <@101>") sample_world)) id)
       = ["zkLDolphin 🐬"].
Proof.
  apply (assigned_reply_is_true erc20Encode asciiToLowerCase asciiTrim sample_directory
           (moderator_says "!checkbalance <@101>") sample_world
           "ann" "zkLDolphin 🐬" "5000" (Js.ascii_text "ZKL")).
  - vm_compute. reflexivity.
  - vm_compute. reflexivity.
Defined.

Lemma handler_keeps_coherence_witness :
  coherent (snd (messageCreate erc20Encode asciiToLowerCase asciiTrim sample_directory
                   (moderator_says "!checkbalance bob#0002") sample_world)) = true.
Proof.
  apply (handler_keeps_coherence erc20Encode asciiToLowerCase asciiTrim sample_directory
           (moderator_says "!checkbalance bob#0002") sample_world).
  vm_compute. reflexivity.
Defined.

(** ** The check of a wallet address *)

Lemma hex_digit_value (c : ascii) :
  is_hex_digit c = true -> exists d, Js.digit_of 16 c = Some d /\ 0 <= d < 16.
Proof.
  unfold is_hex_digit, Js.digit_of. intro H.
  destruct ((48 <=? Js.code c) && (Js.code c <=? 57)) eqn:D.
  { apply andb_prop in D. destruct D as [D0 D1].
    apply Z.leb_le in D0. apply Z.leb_le in D1.
    exists (Js.code c - 48). split; [|lia].
    destruct (Js.code c - 48 <? 16) eqn:L; [reflexivity|apply Z.ltb_ge in L; lia]. }
  destruct ((97 <=? Js.code c) && (Js.code c <=? 102)) eqn:Lo.
  { apply andb_prop in Lo. destruct Lo as [L0 L1].
    apply Z.leb_le in L0. apply Z.leb_le in L1.
    exists (Js.code c - 87). split; [|lia].
    destruct (Js.code c - 87 <? 16) eqn:L; [reflexivity|apply Z.ltb_ge in L; lia]. }
  destruct ((65 <=? Js.code c) && (Js.code c <=? 70)) eqn:Up.
  { apply andb_prop in Up. destruct Up as [U0 U1].
    apply Z.leb_le in U0. apply Z.leb_le in U1.
    exists (Js.code c - 55). split; [|lia].
    destruct (Js.code c - 55 <? 16) eqn:L; [reflexivity|apply Z.ltb_ge in L; lia]. }
  discriminate H.
Qed.

Lemma all_hex_value (ds : string) : forall acc,
  all_hex ds = true -> 0 <= acc ->
  exists v, Js.digits_value 16 ds acc = Some v
            /\ acc * 16 ^ Z.of_nat (String.length ds) <= v
               < (acc + 1) * 16 ^ Z.of_nat (String.length ds).
Proof.
  induction ds as [|c ds IH]; intros acc H A.
  - exists acc. cbn. split; [reflexivity|lia].
  - cbn [all_hex] in H. apply andb_prop in H. destruct H as [Hc Hds].
    destruct (hex_digit_value c Hc) as (d & Dc & Rd).
    cbn [Js.digits_value]. rewrite Dc.
    destruct (IH (acc * 16 + d) Hds ltac:(lia)) as (v & V & B).
    exists v. split; [exact V|].
    cbn [String.length]. rewrite Nat2Z.inj_succ, Z.pow_succ_r by lia.
    assert (P : 0 < 16 ^ Z.of_nat (String.length ds))
      by (apply Z.pow_pos_nonneg; lia).
    nia.
Qed.

Lemma all_hex_plain (s : string) : all_hex s = true -> plain s = true.
Proof.
  induction s as [|c s IH]; [reflexivity|].
  cbn [all_hex plain]. intro H. apply andb_prop in H. destruct H as [C S].
  rewrite (IH S). unfold is_hex_digit in C.
  assert (R : 33 <= Js.code c <= 126).
  { apply orb_prop in C. destruct C as [C|C]; [apply orb_prop in C; destruct C as [C|C]|];
      apply andb_prop in C; destruct C as [L U];
      apply Z.leb_le in L; apply Z.leb_le in U; lia. }
  assert (A : (33 <=? Js.code c) = true) by (apply Z.leb_le; lia).
  assert (B : (Js.code c <=? 126) = true) by (apply Z.leb_le; lia).
  now rewrite A, B.
Qed.

(** X21. An address that passes the handler's check is forty-two
    characters long and is a hexadecimal literal that [BigInt] accepts,
    of a value below 2^160: it denotes twenty bytes. *)
Theorem valid_wallet_is_160_bit_literal (address : string) :
  isValidWalletAddress address = true ->
  String.length address = 42%nat
  /\ exists z, Js.BigInt (VString address) = Returned z /\ 0 <= z < 2 ^ 160.
Proof.
  unfold isValidWalletAddress, Js.startsWith. intro H.
  apply andb_prop in H. destruct H as [H Hex].
  apply andb_prop in H. destruct H as [Pre Len].
  apply Nat.eqb_eq in Len.
  destruct address as [|c0 address]; [discriminate Pre|].
  cbn [String.prefix] in Pre.
  destruct (ascii_dec "0" c0) as [<-|]; [|discriminate Pre].
  destruct address as [|c1 ds]; [discriminate Pre|].
  cbn [String.prefix] in Pre.
  destruct (ascii_dec "x" c1) as [<-|]; [|discriminate Pre].
  cbn [Js.slice] in Len, Hex.
  split; [cbn [String.length]; now rewrite Len|].
  destruct (all_hex_value ds 0 Hex ltac:(lia)) as (v & V & B).
  rewrite Len in B. exists v. split.
  - cbn [Js.BigInt].
    rewrite StringToBigInt_plain
      by (cbn [plain]; now rewrite (all_hex_plain ds Hex)).
    cbn [Js.StrIntegerLiteral]. unfold Js.literal.
    destruct ds as [|d ds]; [discriminate Len|].
    cbn [Js.nonempty]. now rewrite V.
  - change (16 ^ Z.of_nat 40) with (2 ^ 160) in B. lia.
Qed.

Lemma valid_wallet_is_160_bit_literal_witness :
  String.length holder1 = 42%nat
  /\ exists z, Js.BigInt (VString holder1) = Returned z /\ 0 <= z < 2 ^ 160.
Proof.
  apply (valid_wallet_is_160_bit_literal holder1). vm_compute. reflexivity.
Defined.

(** ** What every step of the program keeps *)

Section Within.

Variable R : World -> World -> Prop.

Hypothesis R_refl : forall w, R w w.
Hypothesis R_trans : forall w1 w2 w3, R w1 w2 -> R w2 w3 -> R w1 w3.
Hypothesis R_call : forall c w, R w (record_call c (tl (faults w)) w).
Hypothesis R_eth : forall to data w, R w (record_call (EthCall to data) (faults w) w).
Hypothesis R_members :
  forall id f w, R w (set_members (Discord.update_member id f (guild_members w)) w).
Hypothesis R_role :
  forall name w,
    R w (set_roles
           (guild_roles w ++ [ {| role_id := next_snowflake w; role_name := name |} ])%list
           (next_snowflake w + 1) w).
Hypothesis R_line : forall l w, R w (write_line l w).

Lemma within_ret {A} (a : A) : within R (ret a).
Proof. intro w. apply R_refl. Qed.

Lemma within_throw {A} (e : exn) : within R (@throw A e).
Proof. intro w. apply R_refl. Qed.

Lemma within_lift {A} (o : outcome A) : within R (lift o).
Proof. intro w. apply R_refl. Qed.

Lemma within_bind {A B} (m : M A) (k : A -> M B) :
  within R m -> (forall a, within R (k a)) -> within R (bind m k).
Proof.
  intros Wm Wk w. unfold bind. specialize (Wm w).
  destruct (m w) as [[a|e] w1]; cbn [snd] in *; [|exact Wm].
  exact (R_trans _ _ _ Wm (Wk a w1)).
Qed.

Lemma within_try_catch {A} (m : M A) (h : exn -> M A) :
  within R m -> (forall e, within R (h e)) -> within R (try_catch m h).
Proof.
  intros Wm Wh w. unfold try_catch. specialize (Wm w).
  destruct (m w) as [[a|e] w1]; cbn [snd] in *; [exact Wm|].
  exact (R_trans _ _ _ Wm (Wh e w1)).
Qed.

Lemma within_for_of {A} (body : A -> M unit) (xs : list A) :
  (forall x, within R (body x)) -> within R (for_of xs body).
Proof.
  intro Wb. induction xs as [|x xs IH]; cbn [for_of].
  - apply within_ret.
  - apply within_bind; [apply Wb|intros _; exact IH].
Qed.

Lemma within_request (c : Call) : within R (Discord.request c).
Proof.
  intro w. pose proof (R_call c w) as H. revert H. unfold Discord.request.
  destruct (faults w) as [|[|] fs]; cbn [tl snd]; trivial.
Qed.

Lemma within_members_fetch (id : string) : within R (Discord.members_fetch id).
Proof.
  unfold Discord.members_fetch. apply within_bind; [apply within_request|].
  intros _ w. destruct (Discord.find_member id (guild_members w)); apply R_refl.
Qed.

Lemma within_rpcCall (to data : string) : within R (rpcCall to data).
Proof.
  intro w.
  destruct (rpcCall_cases to data w) as [[v [_ E]]|[r E]]; rewrite E; apply R_eth.
Qed.

Lemma within_roles_remove (member : GuildMember) (role : Role) :
  within R (Discord.roles_remove member role).
Proof.
  unfold Discord.roles_remove. apply within_bind; [apply within_request|].
  intros _ w. apply R_members.
Qed.

Lemma within_roles_add (member : GuildMember) (role : Role) :
  within R (Discord.roles_add member role).
Proof.
  unfold Discord.roles_add. apply within_bind; [apply within_request|].
  intros _ w. apply R_members.
Qed.

Lemma within_roles_create (name : string) : within R (Discord.roles_create name).
Proof.
  unfold Discord.roles_create. apply within_bind; [apply within_request|].
  intros _ w. apply R_role.
Qed.

Lemma within_assignRoleByBalance (member : GuildMember) (balance : Js.number)
    (symbol : Js.text) : within R (assignRoleByBalance member balance symbol).
Proof.
  unfold assignRoleByBalance.
  apply within_bind; [intro w; apply R_refl|]. intro cache.
  apply within_bind.
  { apply within_for_of. intro r. apply within_roles_remove. }
  intros _. apply within_bind; [apply within_lift|]. intro name.
  apply within_bind; [intro w; apply R_refl|]. intro found.
  apply within_bind.
  { destruct found; [apply within_ret|apply within_roles_create]. }
  intro role. apply within_bind; [apply within_roles_add|].
  intros _. apply within_ret.
Qed.

Lemma within_getTokenBalance
    (simpleEncode : string -> list string -> outcome (list byte))
    (userAddr tokenAddr : string) :
  within R (getTokenBalance simpleEncode userAddr tokenAddr).
Proof.
  unfold getTokenBalance.
  apply within_try_catch; [|intro; apply within_throw].
  repeat (apply within_bind;
          [first [apply within_lift | apply within_rpcCall]|intro]).
  apply within_ret.
Qed.

Lemma within_updateRow
    (simpleEncode : string -> list string -> outcome (list byte)) (row : Row) :
  within R (updateRow simpleEncode row).
Proof.
  unfold updateRow.
  apply within_try_catch; [|intros e w; apply R_line].
  apply within_bind; [apply within_members_fetch|]. intro member.
  apply within_bind; [apply within_getTokenBalance|]. intro token.
  apply within_bind; [apply within_assignRoleByBalance|].
  intros _ w. apply R_line.
Qed.

End Within.

Lemma people_update_member (id : string) (f : list Z -> list Z) (ms : list GuildMember) :
  map (fun m => (member_id m, user m)) (Discord.update_member id f ms)
  = map (fun m => (member_id m, user m)) ms.
Proof.
  unfold Discord.update_member. rewrite map_map. apply map_ext.
  intro m. now destruct (String.eqb (member_id m) id).
Qed.

Lemma settled_refl (w : World) : settled w w.
Proof. repeat split; trivial. exists []. now rewrite app_nil_r. Qed.

Lemma settled_trans (w1 w2 w3 : World) : settled w1 w2 -> settled w2 w3 -> settled w1 w3.
Proof.
  intros (F1 & N1 & P1 & e1 & G1) (F2 & N2 & P2 & e2 & G2).
  repeat split; [auto|congruence|congruence|].
  exists (e1 ++ e2)%list. now rewrite G2, G1, app_assoc.
Qed.

Lemma settled_updateRow
    (simpleEncode : string -> list string -> outcome (list byte)) (row : Row) :
  within settled (updateRow simpleEncode row).
Proof.
  apply within_updateRow.
  - exact settled_refl.
  - exact settled_trans.
  - intros c w. repeat split; cbn [faults record_call node guild_roles];
      [now intros ->| ]. exists []. now rewrite app_nil_r.
  - intros to data w. repeat split; cbn [guild_roles record_call]; trivial.
    exists []. now rewrite app_nil_r.
  - intros id f w. repeat split; cbn [guild_roles set_members]; trivial.
    + unfold people. cbn [guild_members set_members]. apply people_update_member.
    + exists []. now rewrite app_nil_r.
  - intros name w. repeat split; cbn [guild_roles set_roles]; trivial. eauto.
  - intros l w. repeat split; cbn [guild_roles write_line]; trivial.
    exists []. now rewrite app_nil_r.
Qed.

(** A member found before is found after, with the same user. *)
Lemma people_find (id : string) (w w' : World) (m : GuildMember) :
  people w' = people w ->
  Discord.find_member id (guild_members w) = Some m ->
  exists m', Discord.find_member id (guild_members w') = Some m' /\ user m' = user m.
Proof.
  unfold people, Discord.find_member.
  generalize (guild_members w) (guild_members w'). intros ms.
  induction ms as [|x ms IH]; intros ms' E F; [discriminate F|].
  destruct ms' as [|x' ms']; [discriminate E|].
  cbn [map] in E. injection E as Ei Eu Et.
  cbn [find] in *. rewrite Ei.
  destruct (String.eqb (member_id x) id).
  - injection F as <-. now exists x'.
  - now apply IH.
Qed.

(** The roles a member holds are not changed by what happens to the
    others and by roles added to the guild. *)
Lemma held_roles_stable (id : string) (w w' : World) :
  coherent w = true ->
  (exists extra, guild_roles w' = (guild_roles w ++ extra)%list) ->
  Discord.find_member id (guild_members w') = Discord.find_member id (guild_members w) ->
  held_roles w' id = held_roles w id.
Proof.
  intros C (extra & G) F. unfold held_roles. rewrite F.
  destruct (Discord.find_member id (guild_members w)) as [m|] eqn:Fm; [|reflexivity].
  destruct (coherent_member w id m C Fm) as (_ & _ & K).
  rewrite G. now apply resolve_roles_known.
Qed.

Lemma for_of_app {A} (body : A -> M unit) (xs ys : list A) (w w1 : World) :
  for_of xs body w = (Returned tt, w1) ->
  for_of (xs ++ ys) body w = for_of ys body w1.
Proof.
  revert w. induction xs as [|x xs IH]; intros w H; cbn [app for_of] in *.
  - unfold ret in H. now injection H as <-.
  - unfold bind in *. destruct (body x w) as [[[]|e] w0]; [|discriminate H].
    now apply IH.
Qed.

(** ** The batch: every holder is attempted, whatever fails for the others *)

Section BatchIsolation.

Variable simpleEncode : string -> list string -> outcome (list byte).

(** One turn of the loop is an attempt followed by its report. *)
Lemma updateRow_attempt (row : Row) (w : World) :
  exists line w1,
    attempt simpleEncode row w line w1
    /\ updateRow simpleEncode row w = (Returned tt, write_line line w1).
Proof.
  unfold updateRow.
  destruct (Discord.members_fetch (discord_user_id row) w) as [[member|e] w1] eqn:Fm.
  2: { exists (UpdateError (message e)), w1. split; [now apply attempt_not_fetched|].
       now rewrite (try_catch_caught _ _ _ _ _ (bind_stop _ _ _ _ _ Fm)). }
  destruct (getTokenBalance simpleEncode (wallet_address row) tokenContractAddress w1)
    as [[token|e] w2] eqn:G.
  2: { exists (UpdateError (message e)), w2.
       split; [now apply (attempt_no_balance _ _ _ member e w1 w2)|].
       erewrite try_catch_caught; [reflexivity|].
       rewrite (bind_step _ _ _ _ _ Fm). now rewrite (bind_stop _ _ _ _ _ G). }
  destruct (assignRoleByBalance member (Js.parseFloat (balance token)) (symbol token) w2)
    as [[result|e] w3] eqn:A.
  2: { exists (UpdateError (message e)), w3.
       split; [now apply (attempt_not_reconciled _ _ _ member token e w1 w2 w3)|].
       erewrite try_catch_caught; [reflexivity|].
       rewrite (bind_step _ _ _ _ _ Fm), (bind_step _ _ _ _ _ G).
       now rewrite (bind_stop _ _ _ _ _ A). }
  exists (DailyUpdate (Discord.tag (user member)) (balance token) (symbol token)), w3.
  split; [now apply (attempt_reconciled _ _ _ member token result w1 w2 w3)|].
  erewrite try_catch_step; [reflexivity|].
  rewrite (bind_step _ _ _ _ _ Fm), (bind_step _ _ _ _ _ G).
  now rewrite (bind_step _ _ _ _ _ A).
Qed.

Lemma loop_attempts : forall (rows : list Row) (w : World),
  exists lines w',
    attempts simpleEncode rows w lines w'
    /\ for_of rows (updateRow simpleEncode) w = (Returned tt, w')
    /\ console w' = (console w ++ lines)%list.
Proof.
  induction rows as [|row rows IH]; intro w.
  - exists [], w. split; [constructor|]. split; [reflexivity|].
    now rewrite app_nil_r.
  - destruct (updateRow_attempt row w) as (line & w1 & At & U).
    destruct (IH (write_line line w1)) as (lines & w' & Ats & L & C).
    exists (line :: lines), w'. split; [now apply (attempts_cons _ row rows w w1)|].
    split; [cbn [for_of]; now rewrite (bind_step _ _ _ _ _ U)|].
    rewrite C. cbn [console write_line].
    destruct (updateRow_reports simpleEncode row w) as (line' & w'' & U' & C' & _).
    rewrite U in U'. injection U' as <-. cbn [console write_line] in C'.
    apply app_inj_tail in C'. destruct C' as [-> _].
    now rewrite <- app_assoc.
Qed.

(** One turn of the loop for a holder whose data are in order. *)
Lemma turn_reconciles
    (row : Row) (member : GuildMember)
    (balanceData decimalsData symbolData hexBalance hexDecimals hexSymbol : string)
    (b d : Z) (w : World) :
  coherent w = true ->
  faults w = [] ->
  Discord.find_member (discord_user_id row) (guild_members w) = Some member ->
  encodeFunctionCall simpleEncode BALANCE_OF_SIGNATURE [wallet_address row]
    = Returned balanceData ->
  encodeFunctionCall simpleEncode DECIMALS_SIGNATURE [] = Returned decimalsData ->
  encodeFunctionCall simpleEncode SYMBOL_SIGNATURE [] = Returned symbolData ->
  node w tokenContractAddress balanceData =
    Responded {| body_error := None; body_result := VString hexBalance |} ->
  node w tokenContractAddress decimalsData =
    Responded {| body_error := None; body_result := VString hexDecimals |} ->
  node w tokenContractAddress symbolData =
    Responded {| body_error := None; body_result := VString hexSymbol |} ->
  Js.StringToBigInt hexBalance = Some b -> 0 <= b ->
  Js.StringToBigInt hexDecimals = Some d -> 0 <= d ->
  b / 10 ^ d < 2 ^ 1023 ->
  exists w' symbol,
    updateRow simpleEncode row w = (Returned tt, w')
    /\ decodeHexToString (VString hexSymbol) = Returned symbol
    /\ console w'
       = (console w ++ [DailyUpdate (Discord.tag (user member))
                          (Js.BigInt_toString (b / 10 ^ d)) symbol])%list
    /\ map role_name (held_ladder_roles w' (discord_user_id row))
       = [integer_tier (b / 10 ^ d)].
Proof.
  intros Coh F Fm Eb Ed Es Nb Nd Ns Pb Hb Pd Hd Small.
  pose proof (find_member_id _ _ _ Fm) as Id.
  assert (Q : 0 <= b / 10 ^ d)
    by (apply Z.div_pos; [assumption|apply Z.pow_pos_nonneg; lia]).
  set (w1 := record_call (MembersFetch (discord_user_id row)) [] w).
  destruct (getTokenBalance_returns simpleEncode (wallet_address row) tokenContractAddress
              balanceData decimalsData symbolData hexBalance hexDecimals hexSymbol
              b d w1 Eb Ed Es Nb Nd Ns Pb Hb Pd Hd) as (sym & Ds & G).
  cbn [fold_left] in G.
  set (w3 := record_call (EthCall tokenContractAddress symbolData)
               (faults (record_call (EthCall tokenContractAddress decimalsData)
                          (faults (record_call (EthCall tokenContractAddress balanceData)
                                     (faults w1) w1))
                          (record_call (EthCall tokenContractAddress balanceData)
                             (faults w1) w1)))
               (record_call (EthCall tokenContractAddress decimalsData)
                  (faults (record_call (EthCall tokenContractAddress balanceData)
                             (faults w1) w1))
                  (record_call (EthCall tokenContractAddress balanceData)
                     (faults w1) w1))) in G.
  assert (T : thresholdRoleName (Js.parseFloat (Js.BigInt_toString (b / 10 ^ d)))
              = Returned (integer_tier (b / 10 ^ d))).
  { rewrite (rounding_keeps_tier _ (conj Q Small)). apply integer_tier_resolution. }
  assert (F3 : faults w3 = []) by reflexivity.
  assert (Coh3 : coherent w3 = true) by exact Coh.
  assert (Fm3 : Discord.find_member (member_id member) (guild_members w3) = Some member)
    by (rewrite Id; exact Fm).
  destruct (assignRoleByBalance_served member
              (Js.parseFloat (Js.BigInt_toString (b / 10 ^ d))) sym w3 _ F3 T)
    as (w4 & A).
  destruct (completed_run_roles _ _ _ _ _ _ Coh3 Fm3 A)
    as (role & _ & E & L & _ & R & _).
  cbn [assigned_roleName] in E.
  exists (write_line (DailyUpdate (Discord.tag (user member))
                        (Js.BigInt_toString (b / 10 ^ d)) sym) w4), sym.
  split; [|split; [exact Ds|split]].
  - unfold updateRow, try_catch. unfold bind at 1.
    rewrite (members_fetch_served _ _ _ F Fm). fold w1.
    unfold bind at 1. rewrite G. cbn [balance symbol].
    unfold bind at 1. rewrite A. reflexivity.
  - cbn [console write_line]. f_equal.
    destruct (quiet_assignRoleByBalance member
                (Js.parseFloat (Js.BigInt_toString (b / 10 ^ d))) sym w3) as [C _].
    rewrite A in C. cbn [snd] in C. rewrite C. reflexivity.
  - unfold held_ladder_roles.
    change (held_roles (write_line _ w4) (discord_user_id row))
      with (held_roles w4 (discord_user_id row)).
    rewrite <- Id, R, (ladder_of_completed_run _ role L). cbn [map]. now rewrite E.
Qed.

(** Whatever happens to the holders before and after, a holder whose own
    data are in order is reconciled. *)
Lemma isolated_turn
    (before after : list Row) (row : Row) (member : GuildMember)
    (balanceData decimalsData symbolData hexBalance hexDecimals hexSymbol : string)
    (b d : Z) (w : World) :
  coherent w = true ->
  faults w = [] ->
  Discord.find_member (discord_user_id row) (guild_members w) = Some member ->
  encodeFunctionCall simpleEncode BALANCE_OF_SIGNATURE [wallet_address row]
    = Returned balanceData ->
  encodeFunctionCall simpleEncode DECIMALS_SIGNATURE [] = Returned decimalsData ->
  encodeFunctionCall simpleEncode SYMBOL_SIGNATURE [] = Returned symbolData ->
  node w tokenContractAddress balanceData =
    Responded {| body_error := None; body_result := VString hexBalance |} ->
  node w tokenContractAddress decimalsData =
    Responded {| body_error := None; body_result := VString hexDecimals |} ->
  node w tokenContractAddress symbolData =
    Responded {| body_error := None; body_result := VString hexSymbol |} ->
  Js.StringToBigInt hexBalance = Some b -> 0 <= b ->
  Js.StringToBigInt hexDecimals = Some d -> 0 <= d ->
  b / 10 ^ d < 2 ^ 1023 ->
  exists lines symbol w',
    for_of (before ++ row :: after) (updateRow simpleEncode) w = (Returned tt, w')
    /\ console w' = (console w ++ lines)%list
    /\ decodeHexToString (VString hexSymbol) = Returned symbol
    /\ nth_error lines (length before)
       = Some (DailyUpdate (Discord.tag (user member))
                 (Js.BigInt_toString (b / 10 ^ d)) symbol)
    /\ (~ In (discord_user_id row) (map discord_user_id after) ->
        map role_name (held_ladder_roles w' (discord_user_id row))
        = [integer_tier (b / 10 ^ d)]).
Proof.
  intros Coh F Fm Eb Ed Es Nb Nd Ns Pb Hb Pd Hd Small.
  (* the holders before *)
  destruct (batch_loop simpleEncode before w) as (lines1 & w1 & L1 & C1 & Len1 & _).
  pose proof (within_for_of settled settled_refl settled_trans
                (updateRow simpleEncode) before (settled_updateRow simpleEncode) w) as S1.
  pose proof (steady_for_of (updateRow simpleEncode) before
                (steady_updateRow simpleEncode) w Coh) as Coh1.
  rewrite L1 in S1, Coh1. cbn [snd] in S1, Coh1.
  destruct S1 as (F1 & N1 & P1 & _).
  destruct (people_find _ w w1 member P1 Fm) as (member1 & Fm1 & U1).
  (* the holder *)
  destruct (turn_reconciles row member1 balanceData decimalsData symbolData
              hexBalance hexDecimals hexSymbol b d w1 Coh1 (F1 F) Fm1 Eb Ed Es)
    as (w2 & symbol & T & Ds & C2 & H2); try assumption; try (now rewrite N1).
  pose proof (steady_updateRow simpleEncode row w1 Coh1) as Coh2.
  rewrite T in Coh2. cbn [snd] in Coh2.
  (* the holders after *)
  destruct (batch_loop simpleEncode after w2) as (lines3 & w3 & L3 & C3 & _).
  exists (lines1 ++ DailyUpdate (Discord.tag (user member))
                      (Js.BigInt_toString (b / 10 ^ d)) symbol :: lines3)%list,
         symbol, w3.
  split; [|split; [|split; [exact Ds|split]]].
  - rewrite (for_of_app _ _ _ _ _ L1). cbn [for_of].
    now rewrite (bind_step _ _ _ _ _ T).
  - rewrite C3, C2, C1, U1. rewrite <- !app_assoc. reflexivity.
  - rewrite nth_error_app2 by lia. rewrite Len1, Nat.sub_diag. reflexivity.
  - intro Out.
    assert (Sp : spares (discord_user_id row) (for_of after (updateRow simpleEncode))).
    { apply spares_for_of. intros r I. apply spares_updateRow.
      intro E. apply Out. rewrite E. now apply in_map. }
    specialize (Sp w2). rewrite L3 in Sp. cbn [snd] in Sp.
    pose proof (within_for_of settled settled_refl settled_trans
                  (updateRow simpleEncode) after (settled_updateRow simpleEncode) w2) as S3.
    rewrite L3 in S3. cbn [snd] in S3. destruct S3 as (_ & _ & _ & G3).
    unfold held_ladder_roles.
    rewrite (held_roles_stable _ w2 w3 Coh2 G3 Sp). exact H2.
Qed.


(** C9. Whatever the registered holders and whatever fails while one of
    them is reconciled, the batch driver does not throw and goes through
    the whole list: it fetches the member of every holder, in the order of
    the rows, and makes one full attempt per holder, each begun in the
    world the attempt before has left and each reported by one line, the
    daily update or the error that was caught.  No failure of another
    holder keeps a holder from being reconciled: on a coherent guild where
    Discord serves every request, a holder who is a member and whose
    balance the node reports gets the daily update as the report of its
    row and, when no later row bears its identifier, ends with the tier
    of its balance as its one ladder role, whatever the rows before and
    after it are and however they fare.  With the three holders of the
    sample world, where the node rejects the balance query of the second,
    the first and the third are reconciled and the error is reported
    between their two daily updates. *)
Theorem batch_attempts_every_holder (rows : list Row) (w : World) :
  guild_cached w = true ->
  users_table w = DbRows rows ->
  fst (updateAllUserRoles simpleEncode w) = Returned tt
  /\ fetched (calls (snd (updateAllUserRoles simpleEncode w)))
     = (fetched (calls w) ++ map discord_user_id rows)%list
  /\ (rows <> [] ->
      exists lines,
        console (snd (updateAllUserRoles simpleEncode w)) = (console w ++ lines)%list
        /\ length lines = length rows
        /\ forallb is_report lines = true
        /\ attempts simpleEncode rows w lines (snd (updateAllUserRoles simpleEncode w)))
  /\ (forall (before after : list Row) (row : Row) (member : GuildMember)
        (balanceData decimalsData symbolData hexBalance hexDecimals hexSymbol : string)
        (b d : Z),
        rows = (before ++ row :: after)%list ->
        coherent w = true ->
        faults w = [] ->
        Discord.find_member (discord_user_id row) (guild_members w) = Some member ->
        encodeFunctionCall simpleEncode BALANCE_OF_SIGNATURE [wallet_address row]
          = Returned balanceData ->
        encodeFunctionCall simpleEncode DECIMALS_SIGNATURE [] = Returned decimalsData ->
        encodeFunctionCall simpleEncode SYMBOL_SIGNATURE [] = Returned symbolData ->
        node w tokenContractAddress balanceData =
          Responded {| body_error := None; body_result := VString hexBalance |} ->
        node w tokenContractAddress decimalsData =
          Responded {| body_error := None; body_result := VString hexDecimals |} ->
        node w tokenContractAddress symbolData =
          Responded {| body_error := None; body_result := VString hexSymbol |} ->
        Js.StringToBigInt hexBalance = Some b -> 0 <= b ->
        Js.StringToBigInt hexDecimals = Some d -> 0 <= d ->
        b / 10 ^ d < 2 ^ 1023 ->
        exists lines symbol,
          console (snd (updateAllUserRoles simpleEncode w)) = (console w ++ lines)%list
          /\ decodeHexToString (VString hexSymbol) = Returned symbol
          /\ nth_error lines (length before)
             = Some (DailyUpdate (Discord.tag (user member))
                       (Js.BigInt_toString (b / 10 ^ d)) symbol)
          /\ (~ In (discord_user_id row) (map discord_user_id after) ->
              map role_name
                (held_ladder_roles (snd (updateAllUserRoles simpleEncode w))
                   (discord_user_id row))
              = [integer_tier (b / 10 ^ d)]))
  /\ console (snd (updateAllUserRoles erc20Encode sample_world))
     = [ DailyUpdate "ann" "5000" (Js.ascii_text "ZKL");
         UpdateError
           "Token information retrieval error: RPC request error: execution reverted";
         DailyUpdate "bob#0002" "100000" (Js.ascii_text "ZKL") ]
  /\ map role_name
       (held_ladder_roles (snd (updateAllUserRoles erc20Encode sample_world)) "101")
     = ["zkLDolphin 🐬"]
  /\ map role_name
       (held_ladder_roles (snd (updateAllUserRoles erc20Encode sample_world)) "103")
     = ["zklHumpback 🐳"].
Proof.
  intros G T.
  assert (Loop : forall row rest, rows = row :: rest ->
            updateAllUserRoles simpleEncode w
            = for_of rows (updateRow simpleEncode) w).
  { intros row rest ->. unfold updateAllUserRoles.
    destruct (for_of (row :: rest) (updateRow simpleEncode) w) as [[[]|e] w'] eqn:L.
    - erewrite try_catch_step; [reflexivity|]. now rewrite G, T.
    - destruct (batch_loop simpleEncode (row :: rest) w) as (? & ? & L' & _).
      rewrite L in L'. discriminate L'. }
  assert (General :
            fst (updateAllUserRoles simpleEncode w) = Returned tt
            /\ fetched (calls (snd (updateAllUserRoles simpleEncode w)))
               = (fetched (calls w) ++ map discord_user_id rows)%list
            /\ (rows <> [] ->
                exists lines,
                  console (snd (updateAllUserRoles simpleEncode w))
                  = (console w ++ lines)%list
                  /\ length lines = length rows
                  /\ forallb is_report lines = true
                  /\ attempts simpleEncode rows w lines
                       (snd (updateAllUserRoles simpleEncode w)))).
  { destruct rows as [|row rows].
    - unfold updateAllUserRoles, try_catch. rewrite G, T. cbn [negb].
      cbn [console_write fst snd calls write_line map]. rewrite app_nil_r.
      split; [reflexivity|]. split; [reflexivity|]. intro N. now destruct N.
    - rewrite (Loop row rows eq_refl).
      destruct (batch_loop simpleEncode (row :: rows) w)
        as (lines & w1 & R & C & Len & P & F).
      destruct (loop_attempts (row :: rows) w) as (lines' & w1' & At & R' & C').
      rewrite R in R'. injection R' as <-.
      rewrite C in C'. apply app_inv_head in C'. subst lines'.
      rewrite R. cbn [fst snd].
      split; [reflexivity|]. split; [exact F|]. intros _. exists lines.
      now repeat split. }
  destruct General as (A & B & C).
  split; [exact A|]. split; [exact B|]. split; [exact C|].
  split.
  - intros before after row member balanceData decimalsData symbolData
      hexBalance hexDecimals hexSymbol b d E Coh F Fm Eb Ed Es Nb Nd Ns Pb Hb Pd Hd Small.
    destruct (isolated_turn before after row member balanceData decimalsData
                symbolData hexBalance hexDecimals hexSymbol b d w
                Coh F Fm Eb Ed Es Nb Nd Ns Pb Hb Pd Hd Small)
      as (lines & symbol & w' & L & Cw & Ds & Nth & Held).
    assert (U : updateAllUserRoles simpleEncode w = (Returned tt, w')).
    { destruct before as [|r0 before]; cbn [app] in E;
        rewrite (Loop _ _ E); rewrite E; exact L. }
    rewrite U. cbn [snd]. exists lines, symbol. now repeat split.
  - vm_compute. repeat split.
Qed.

End BatchIsolation.

Lemma batch_attempts_every_holder_witness :
  fst (updateAllUserRoles erc20Encode sample_world) = Returned tt
  /\ fetched (calls (snd (updateAllUserRoles erc20Encode sample_world)))
     = ["101"; "102"; "103"]
  /\ exists lines symbol,
       console (snd (updateAllUserRoles erc20Encode sample_world))
       = (console sample_world ++ lines)%list
       /\ decodeHexToString (VString "0x5a4b4c0000000000000000000000000000")
          = Returned symbol
       /\ nth_error lines
            (length [ {| discord_user_id := "101"; wallet_address := holder1 |};
                      {| discord_user_id := "102"; wallet_address := holder2 |} ])
          = Some (DailyUpdate
                    (Discord.tag (user {| member_id := "103";
                                          user := {| username := "bob";
                                                     discriminator := "0002" |};
                                          member_roles := [2] |}))
                    (Js.BigInt_toString (100000000000000000000000 / 10 ^ 18)) symbol)
       /\ (~ In (discord_user_id {| discord_user_id := "103"; wallet_address := holder3 |})
             (map discord_user_id [])  ->
           map role_name
             (held_ladder_roles (snd (updateAllUserRoles erc20Encode sample_world))
                (discord_user_id {| discord_user_id := "103"; wallet_address := holder3 |}))
           = [integer_tier (100000000000000000000000 / 10 ^ 18)]).
Proof.
  destruct (batch_attempts_every_holder erc20Encode
              [ {| discord_user_id := "101"; wallet_address := holder1 |};
                {| discord_user_id := "102"; wallet_address := holder2 |};
                {| discord_user_id := "103"; wallet_address := holder3 |} ]
              sample_world eq_refl eq_refl) as (R & F & _ & I & _).
  split; [exact R|]. split; [exact F|].
  apply (I [ {| discord_user_id := "101"; wallet_address := holder1 |};
             {| discord_user_id := "102"; wallet_address := holder2 |} ]
           []
           {| discord_user_id := "103"; wallet_address := holder3 |}
           {| member_id := "103";
              user := {| username := "bob"; discriminator := "0002" |};
              member_roles := [2] |}
           "0x70a082310000000000000000000000003333333333333333333333333333333333333333"
           "0x313ce567" "0x95d89b41"
           "0x152d02c7e14af6800000" "0x12" "0x5a4b4c0000000000000000000000000000"
           100000000000000000000000 18);
    first [reflexivity | discriminate | (vm_compute; reflexivity)].
Defined.
